(** * Lab-report OCR pipeline: a shallow embedding of [batch_processor.py]
      and of the request handler of [main.py]

    Python [str] values are sequences of Unicode code points; they are
    modelled as lists of code points ([N]).  Exceptions are explicit: a
    computation that may raise returns a [res].  The builtins the source
    relies on ([str.strip], [str.splitlines], [str.split], [str.upper],
    [float], [re.match], and for the batch [str.lower], [str.endswith],
    [os.path] and [json.dump]) are modelled after CPython 3; calls to
    [logger] have no effect on any value and are left out.

    Outside ASCII, which characters are decimal digits and what their upper
    case is depends on the Unicode database of the interpreter: the pipeline
    is parameterised by these two tables, and the few facts the proofs need
    about them are stated as hypotheses of the section.

    OpenCV, Tesseract and the file system are outside the program.  Their
    calls are fields of a record ([ocr_backend], [host], [batch_host]) that
    says, for each call, whether it returns or raises; the theorems hold for
    every such record.

    Contents: strings, exceptions, floats, regular expressions,
    dictionaries, the OCR boundary, the line parser and the formatter, the
    request handler, the pattern as a scanner, the batch; then the lemmas on
    each of these and the properties of the pipeline. *)

From Stdlib Require Import List ZArith NArith Bool String Ascii Lia.
Import ListNotations.

Set Implicit Arguments.

(** ** Strings *)

Definition char := N.
Definition str := list char.

(** ASCII literal of the source as a [str]. *)
Definition py (s : string) : str := map N_of_ascii (list_ascii_of_string s).

Definition in_range (lo hi c : N) : bool := ((lo <=? c) && (c <=? hi))%N.

Definition nonempty {A} (l : list A) : bool :=
  match l with [] => false | _ :: _ => true end.

(** [Py_UNICODE_ISSPACE]: the characters [str.strip], [str.isspace] and the
    regex class [\s] treat as whitespace. *)
Definition is_space (c : char) : bool :=
  in_range 0x09 0x0D c || in_range 0x1C 0x1F c || (c =? 0x20)%N
  || (c =? 0x85)%N || (c =? 0xA0)%N || (c =? 0x1680)%N
  || in_range 0x2000 0x200A c || (c =? 0x2028)%N || (c =? 0x2029)%N
  || (c =? 0x202F)%N || (c =? 0x205F)%N || (c =? 0x3000)%N.

(** [Py_UNICODE_ISLINEBREAK]: the line boundaries of [str.splitlines]. *)
Definition is_linebreak (c : char) : bool :=
  in_range 0x0A 0x0D c || in_range 0x1C 0x1E c || (c =? 0x85)%N
  || (c =? 0x2028)%N || (c =? 0x2029)%N.

(** [Py_ISSPACE] of the C locale, used by [float] after transliteration. *)
Definition is_c_space (c : char) : bool :=
  in_range 0x09 0x0D c || (c =? 0x20)%N.

Definition is_ascii_digit (c : char) : bool := in_range 0x30 0x39 c.

Fixpoint drop_while (p : char -> bool) (s : str) : str :=
  match s with
  | c :: s' => if p c then drop_while p s' else s
  | [] => []
  end.

Fixpoint take_while (p : char -> bool) (s : str) : str :=
  match s with
  | c :: s' => if p c then c :: take_while p s' else []
  | [] => []
  end.

Definition lstrip (s : str) : str := drop_while is_space s.
Definition rstrip (s : str) : str := rev (drop_while is_space (rev s)).

(** [s.strip()] *)
Definition strip (s : str) : str := rstrip (lstrip s).

(** [s.splitlines()]: [cur] holds the characters of the line being read, last
    one first.  A CR LF pair is one boundary; no empty line is produced after
    a final boundary. *)
Fixpoint splitlines_from (cur : str) (s : str) : list str :=
  match s with
  | [] => if nonempty cur then [rev cur] else []
  | c :: s' =>
      if is_linebreak c then
        rev cur ::
        match s' with
        | c' :: s'' =>
            if ((c =? 0x0D) && (c' =? 0x0A))%N then splitlines_from [] s''
            else splitlines_from [] s'
        | [] => []
        end
      else splitlines_from (c :: cur) s'
  end.

Definition splitlines (s : str) : list str := splitlines_from [] s.

(** [s.split(sep)] for a one-character separator: always at least one part. *)
Fixpoint split_from (sep : char) (cur : str) (s : str) : list str :=
  match s with
  | [] => [rev cur]
  | c :: s' =>
      if (c =? sep)%N then rev cur :: split_from sep [] s'
      else split_from sep (c :: cur) s'
  end.

Definition split (sep : char) (s : str) : list str := split_from sep [] s.

(** ** Exceptions *)

Inductive exn : Type :=
| ValueError
| KeyError (key : string)
| OSError
| OtherError (name : string).

Inductive res (A : Type) : Type :=
| Ok (a : A)
| Raise (e : exn).

Arguments Ok {A} a.
Arguments Raise {A} e.

Definition bind {A B} (c : res A) (k : A -> res B) : res B :=
  match c with
  | Ok a => k a
  | Raise e => Raise e
  end.

Notation "x <- c ;; k" := (bind c (fun x => k))
  (at level 61, c at next level, right associativity).

Definition is_ValueError (e : exn) : bool :=
  match e with ValueError => true | _ => false end.

(** [try: body / except ValueError: handler]; any other exception passes. *)
Definition try_except_ValueError {A} (body : res A) (handler : res A) : res A :=
  match body with
  | Ok a => Ok a
  | Raise e => if is_ValueError e then handler else Raise e
  end.

(** [for x in xs: s = body(s, x)], stopping at the first exception. *)
Fixpoint for_each {A S} (body : S -> A -> res S) (xs : list A) (s : S) : res S :=
  match xs with
  | [] => Ok s
  | x :: xs' => s' <- body s x ;; for_each body xs' s'
  end.

(** ** Floating-point numbers

    A Python [float] is an IEEE 754 binary64 value: a NaN, a signed infinity,
    or a signed dyadic number [m * 2^e] (with [m < 2^53] and
    [-1074 <= e <= 971] for the values [float] produces). *)

Inductive pyfloat : Type :=
| FNan
| FInf (neg : bool)
| FFinite (neg : bool) (m : Z) (e : Z).

Definition is_finite (x : pyfloat) : bool :=
  match x with FFinite _ _ _ => true | _ => false end.

Definition signed (neg : bool) (m : Z) : Z := if neg then (- m)%Z else m.

(** IEEE comparison: unordered ([None]) as soon as a NaN is involved; the two
    zeros are equal. *)
Definition fcompare (x y : pyfloat) : option comparison :=
  match x, y with
  | FNan, _ | _, FNan => None
  | FInf sx, FInf sy =>
      Some (if sx then (if sy then Eq else Lt) else (if sy then Gt else Eq))
  | FInf sx, FFinite _ _ _ => Some (if sx then Lt else Gt)
  | FFinite _ _ _, FInf sy => Some (if sy then Gt else Lt)
  | FFinite sx mx ex, FFinite sy my ey =>
      let e := Z.min ex ey in
      Some (Z.compare (signed sx mx * 2 ^ (ex - e)) (signed sy my * 2 ^ (ey - e)))
  end.

(** [x <= y], [x < y] and [x > y] on floats. *)
Definition fle (x y : pyfloat) : bool :=
  match fcompare x y with Some Lt | Some Eq => true | _ => false end.
Definition flt (x y : pyfloat) : bool :=
  match fcompare x y with Some Lt => true | _ => false end.
Definition fgt (x y : pyfloat) : bool :=
  match fcompare x y with Some Gt => true | _ => false end.

(** Nearest integer to [a / b], ties to even ([0 <= a], [0 < b]). *)
Definition round_half_even (a b : Z) : Z :=
  let q := (a / b)%Z in
  match (2 * (a mod b) ?= b)%Z with
  | Lt => q
  | Gt => (q + 1)%Z
  | Eq => if Z.even q then q else (q + 1)%Z
  end.

(** The fraction [num / den / 2^e]. *)
Definition scale2 (num den e : Z) : Z * Z :=
  if (0 <=? e)%Z then (num, (den * 2 ^ e)%Z) else ((num * 2 ^ (- e))%Z, den).

(** Correctly rounded (round-to-nearest-even) binary64 value of the
    non-negative rational [num / den], as [strtod] computes it: subnormal
    below [2^-1022], infinite from [2^1024 - 2^970] on. *)
Definition binary64_of_ratio (neg : bool) (num den : Z) : pyfloat :=
  if (num =? 0)%Z then FFinite neg 0 0 else
  let d := (Z.log2 num - Z.log2 den)%Z in
  let '(a, b) := scale2 num den d in
  let fl := if (b <=? a)%Z then d else (d - 1)%Z in
  let e := Z.max (fl - 52) (-1074) in
  let '(a', b') := scale2 num den e in
  let m := round_half_even a' b' in
  let '(m, e) := if (m =? 2 ^ 53)%Z then ((2 ^ 52)%Z, (e + 1)%Z) else (m, e) in
  if (971 <? e)%Z then FInf neg else FFinite neg m e.

(** Value of a run of ASCII decimal digits. *)
Definition digits_value (ds : str) : Z :=
  fold_left (fun acc c => (10 * acc + (Z.of_N c - 48))%Z) ds 0%Z.

(** The float denoted by the decimal numeral [intpart.fracpart e exp]. *)
Definition decimal_to_float (neg : bool) (intpart fracpart : str) (exp : Z) : pyfloat :=
  let n := digits_value (intpart ++ fracpart) in
  let e10 := (exp - Z.of_nat (List.length fracpart))%Z in
  if (0 <=? e10)%Z then binary64_of_ratio neg (n * 10 ^ e10) 1
  else binary64_of_ratio neg n (10 ^ (- e10)).

(** Optional sign in front of a numeral: [(negative, rest)]. *)
Definition read_sign (s : str) : bool * str :=
  match s with
  | c :: s' =>
      if (c =? 0x2D)%N then (true, s')
      else if (c =? 0x2B)%N then (false, s')
      else (false, s)
  | [] => (false, s)
  end.

(** Exponent part: nothing, or [e]/[E], an optional sign and at least one
    digit, up to the end of the string. *)
Definition read_exponent (s : str) : option Z :=
  match s with
  | [] => Some 0%Z
  | c :: s' =>
      if ((c =? 0x65) || (c =? 0x45))%N then
        let '(neg, ds) := read_sign s' in
        if nonempty ds && forallb is_ascii_digit ds
        then Some (signed neg (digits_value ds))
        else None
      else None
  end.

(** ASCII lower case, for the case-insensitive spelling of [inf] and [nan]. *)
Definition ascii_lower (c : char) : char :=
  if in_range 0x41 0x5A c then (c + 32)%N else c.

Definition str_eqb (a b : str) : bool :=
  if list_eq_dec N.eq_dec a b then true else false.

(** [_PyOS_ascii_strtod] on the whole string: a decimal numeral, or else an
    infinity or a NaN, each with an optional sign.  The whole string must be
    consumed; an overflowing numeral is an infinity, not an error. *)
Definition strtod (s : str) : res pyfloat :=
  let '(neg, body) := read_sign s in
  let intpart := take_while is_ascii_digit body in
  let rest := drop_while is_ascii_digit body in
  let '(fracpart, rest') :=
    match rest with
    | c :: r =>
        if (c =? 0x2E)%N
        then (take_while is_ascii_digit r, drop_while is_ascii_digit r)
        else ([], rest)
    | [] => ([], rest)
    end in
  if nonempty (intpart ++ fracpart) then
    match read_exponent rest' with
    | Some exp => Ok (decimal_to_float neg intpart fracpart exp)
    | None => Raise ValueError
    end
  else
    let word := map ascii_lower body in
    if str_eqb word (py "inf") || str_eqb word (py "infinity") then Ok (FInf neg)
    else if str_eqb word (py "nan") then Ok FNan
    else Raise ValueError.

(** [_Py_string_to_number_with_underscores]: an underscore is accepted only
    between two digits, and is dropped.  [prev] is the previous character. *)
Fixpoint strip_underscores (prev : char) (s : str) : option str :=
  match s with
  | [] => if (prev =? 0x5F)%N then None else Some []
  | c :: s' =>
      if (c =? 0x5F)%N then
        if is_ascii_digit prev then strip_underscores c s' else None
      else if (prev =? 0x5F)%N && negb (is_ascii_digit c) then None
      else option_map (cons c) (strip_underscores c s')
  end.

(** ** Regular expressions

    The fragment of Python's [re] the source uses: one character of a set,
    a repeated set (greedy or lazy), concatenation, a greedy optional item and
    numbered capturing groups.  Matching is by backtracking, in the order
    [re] tries the alternatives; [k] is what remains to be matched. *)

Inductive regex : Type :=
| Chr (p : char -> bool)
| Star (greedy : bool) (p : char -> bool)
| Cat (r1 r2 : regex)
| Opt (r : regex)
| Grp (i : nat) (r : regex).

Definition Plus (greedy : bool) (p : char -> bool) : regex :=
  Cat (Chr p) (Star greedy p).

Infix "+++" := Cat (at level 60, right associativity).

(** Captured groups, latest binding first. *)
Definition groups := list (nat * str).

Fixpoint group (g : groups) (i : nat) : option str :=
  match g with
  | [] => None
  | (j, s) :: g' => if Nat.eqb i j then Some s else group g' i
  end.

Section Matcher.
Variable A : Type.

(** [x*]: as many as possible first, then one less, ... *)
Fixpoint star_greedy (p : char -> bool) (s : str) (k : str -> option A) : option A :=
  match s with
  | c :: s' =>
      if p c then
        match star_greedy p s' k with
        | Some a => Some a
        | None => k s
        end
      else k s
  | [] => k s
  end.

(** [x*?]: none first, then one more, ... *)
Fixpoint star_lazy (p : char -> bool) (s : str) (k : str -> option A) : option A :=
  match k s with
  | Some a => Some a
  | None =>
      match s with
      | c :: s' => if p c then star_lazy p s' k else None
      | [] => None
      end
  end.

Fixpoint rmatch (r : regex) (s : str) (g : groups)
         (k : str -> groups -> option A) : option A :=
  match r with
  | Chr p =>
      match s with
      | c :: s' => if p c then k s' g else None
      | [] => None
      end
  | Star greedy p =>
      (if greedy then star_greedy else star_lazy) p s (fun s' => k s' g)
  | Cat r1 r2 => rmatch r1 s g (fun s1 g1 => rmatch r2 s1 g1 k)
  | Opt r1 =>
      match rmatch r1 s g k with
      | Some a => Some a
      | None => k s g
      end
  | Grp i r1 =>
      rmatch r1 s g
        (fun s' g' => k s' ((i, firstn (List.length s - List.length s') s) :: g'))
  end.
End Matcher.

(** [re.match(r, s)]: anchored at the start of [s], not at its end. *)
Definition re_match (r : regex) (s : str) : option groups :=
  rmatch r s [] (fun _ g => Some g).

(** ** Dictionaries *)

Inductive pyval : Type :=
| VStr (s : str)
| VBool (b : bool).

(** A [dict] with string keys, in insertion order. *)
Definition dict := list (string * pyval).

(** [d[key]] *)
Fixpoint getitem (d : dict) (key : string) : res pyval :=
  match d with
  | [] => Raise (KeyError key)
  | (k, v) :: d' => if String.eqb k key then Ok v else getitem d' key
  end.

(** [low, high = xs] for a lazily evaluated sequence [xs] (here a [map]):
    the items are evaluated in order, a third one only to find out that there
    are too many. *)
Definition unpack2 {A} (xs : list (res A)) : res (A * A) :=
  match xs with
  | [] => Raise ValueError
  | x :: xs1 =>
      a <- x ;;
      match xs1 with
      | [] => Raise ValueError
      | y :: xs2 =>
          b <- y ;;
          match xs2 with
          | [] => Ok (a, b)
          | z :: _ => _ <- z ;; Raise ValueError
          end
      end
  end.

(** [f(x) if x else <empty string>] for a group that may be unset. *)
Definition if_truthy (f : str -> str) (x : option str) : str :=
  match x with
  | Some s => if nonempty s then f s else []
  | None => []
  end.

(** ** The OCR boundary

    OpenCV and Tesseract are outside the program: each call either returns or
    raises.  Every exception they raise derives from [Exception]. *)

Record ocr_backend : Type := {
  image : Type;
  (** [cv2.imread]: [None] when the file cannot be read as an image *)
  imread : str -> res (option image);
  cvtColor : image -> res image;
  threshold : image -> res image;
  medianBlur : image -> res image;
  image_to_string : image -> res str
}.

(** [try: body / except Exception as e: handler(e)] *)
Definition try_except_Exception {A} (body : res A) (handler : exn -> res A) : res A :=
  match body with
  | Ok a => Ok a
  | Raise e => handler e
  end.

Definition extract_text_from_image (cv : ocr_backend) (image_path : str) : res str :=
  try_except_Exception
    (img <- imread cv image_path ;;
     match img with
     | None => Ok []
     | Some img =>
         gray <- cvtColor cv img ;;
         binary <- threshold cv gray ;;
         denoised <- medianBlur cv binary ;;
         text <- image_to_string cv denoised ;;
         Ok text
     end)
    (fun _ => Ok []).

(** Linear arithmetic on code points, through the boolean tests. *)
Ltac N_cases :=
  unfold is_space, is_ascii_digit, in_range in *;
  rewrite ?orb_false_iff, ?andb_false_iff, ?orb_true_iff, ?andb_true_iff,
          ?N.leb_le, ?N.leb_gt, ?N.eqb_eq, ?N.eqb_neq, ?N.ltb_lt, ?N.ltb_ge in *;
  lia.

(** ** The pipeline of [batch_processor.py] *)

Section Pipeline.

(** The Unicode character database outside ASCII: [uni_todecimal c] is the
    value of [c] when it is a decimal digit (category Nd), and
    [uni_toupper c] is the full upper-case mapping of [c]. *)
Variable uni_todecimal : char -> option N.
Variable uni_toupper : char -> str.

(** [Py_UNICODE_TODECIMAL] *)
Definition todecimal (c : char) : option N :=
  if (c <? 128)%N then (if is_ascii_digit c then Some (c - 48)%N else None)
  else uni_todecimal c.

(** The regex class [\d]. *)
Definition is_decimal (c : char) : bool :=
  match todecimal c with Some _ => true | None => false end.

Definition toupper (c : char) : str :=
  if (c <? 128)%N then [if in_range 0x61 0x7A c then (c - 32)%N else c]
  else uni_toupper c.

(** [s.upper()] *)
Definition upper (s : str) : str := flat_map toupper s.

(** What the proofs use of the character database: a digit value is below
    ten, no decimal digit is whitespace; upper-casing never yields the empty
    string, never turns a character into whitespace, and yields characters
    that are their own upper case. *)
Hypothesis uni_todecimal_digit :
  forall c d, uni_todecimal c = Some d -> (d < 10)%N.
Hypothesis uni_todecimal_not_space :
  forall c d, uni_todecimal c = Some d -> is_space c = false.
Hypothesis uni_toupper_nonempty :
  forall c, (128 <= c)%N -> uni_toupper c <> [].
Hypothesis uni_toupper_not_space :
  forall c x, (128 <= c)%N -> is_space c = false ->
              In x (uni_toupper c) -> is_space x = false.
Hypothesis uni_toupper_fixed :
  forall c x, (128 <= c)%N -> In x (uni_toupper c) -> toupper x = [x].

(** [_PyUnicode_TransformDecimalAndSpaceToASCII]: ASCII is kept, any other
    whitespace becomes a space and any other decimal digit its ASCII digit;
    the string is cut at the first character that is neither, marked [?]. *)
Fixpoint transform_decimal_and_space (s : str) : str :=
  match s with
  | [] => []
  | c :: s' =>
      if (c <? 127)%N then c :: transform_decimal_and_space s'
      else if is_space c then 0x20%N :: transform_decimal_and_space s'
      else match todecimal c with
           | Some d => (48 + d)%N :: transform_decimal_and_space s'
           | None => [0x3F%N]
           end
  end.

(** [float(s)] for a [str]: [ValueError] unless [s], up to surrounding
    whitespace, is a decimal numeral, an infinity or a NaN. *)
Definition float (s : str) : res pyfloat :=
  let t := drop_while is_c_space (transform_decimal_and_space s) in
  let t := rev (drop_while is_c_space (rev t)) in
  if nonempty t then
    match (if existsb (N.eqb 0x5F) t then strip_underscores 0%N t else Some t) with
    | Some u => strtod u
    | None => Raise ValueError
    end
  else Raise ValueError.

Definition any_char (c : char) : bool := negb (c =? 0x0A)%N.
Definition sep_class (c : char) : bool := is_space c || (c =? 0x3A)%N.
Definition num_class (c : char) : bool := is_decimal c || (c =? 0x2E)%N.
Definition unit_class (c : char) : bool :=
  in_range 0x61 0x7A c || in_range 0x41 0x5A c || (c =? 0x25)%N || (c =? 0x2F)%N.
Definition is_char (x c : char) : bool := (c =? x)%N.

(** [(.*?)[\s:]+([\d.]+)[\s]*([a-zA-Z%/]+)?[\s]*[\(]?([\d.]+-[\d.]+)?[\)]?] *)
Definition pattern : regex :=
  Grp 1 (Star false any_char) +++
  Plus true sep_class +++
  Grp 2 (Plus true num_class) +++
  Star true is_space +++
  Opt (Grp 3 (Plus true unit_class)) +++
  Star true is_space +++
  Opt (Chr (is_char 0x28%N)) +++
  Opt (Grp 4 (Plus true num_class +++ Chr (is_char 0x2D%N) +++ Plus true num_class)) +++
  Opt (Chr (is_char 0x29%N)).

(** The inner [try] block of the range check. *)
Definition range_check (float_value : pyfloat) (ref_range : str) : res bool :=
  lh <- unpack2 (map float (split 0x2D%N ref_range)) ;;
  let '(low, high) := lh in
  Ok (negb (fle low float_value && fle float_value high)).

Definition make_record (name value ref_range unit : str) (is_out_of_range : bool) : dict :=
  [ ("test_name", VStr name);
    ("test_value", VStr value);
    ("bio_reference_range", VStr ref_range);
    ("test_unit", VStr (if nonempty unit then unit else []));
    ("lab_test_out_of_range", VBool is_out_of_range) ]%string.

(** The body of the loop over the lines: [results] after one more [line]. *)
Definition parse_line (results : list dict) (line : str) : res (list dict) :=
  if negb (nonempty (strip line)) then Ok results
  else
    match re_match pattern (strip line) with
    | None => Ok results
    | Some m =>
        let name := if_truthy (fun s => upper (strip s)) (group m 1) in
        let value := if_truthy strip (group m 2) in
        let unit := if_truthy strip (group m 3) in
        let ref_range := if_truthy strip (group m 4) in
        if negb (nonempty name) || negb (nonempty value) then Ok results
        else
          try_except_ValueError
            (float_value <- float value ;;
             is_out_of_range <-
               (if nonempty ref_range
                then try_except_ValueError (range_check float_value ref_range) (Ok false)
                else Ok false) ;;
             Ok (results ++ [make_record name value ref_range unit is_out_of_range]))
            (Ok results)
    end.

Definition parse_lab_tests (text : str) : res (list dict) :=
  for_each parse_line (splitlines text) [].

Definition format_entry (entry : dict) : res dict :=
  (test_name <- getitem entry "test_name" ;;
   test_value <- getitem entry "test_value" ;;
   bio_reference_range <- getitem entry "bio_reference_range" ;;
   test_unit <- getitem entry "test_unit" ;;
   lab_test_out_of_range <- getitem entry "lab_test_out_of_range" ;;
   Ok [ ("test_name", test_name);
        ("test_value", test_value);
        ("bio_reference_range", bio_reference_range);
        ("test_unit", test_unit);
        ("lab_test_out_of_range", lab_test_out_of_range) ])%string.

Definition format_output (parsed_data : list dict) : res (list dict) :=
  for_each (fun formatted_data entry =>
              d <- format_entry entry ;; Ok (formatted_data ++ [d]))
           parsed_data [].


(** ** The request handler of [main.py]

    The handler runs against the upload directory, modelled by the list of
    the paths that exist in it, and against a host whose calls may fail. *)

Definition files := list str.

Definition io (A : Type) : Type := files -> res A * files.

Definition io_ret {A} (a : A) : io A := fun fs => (Ok a, fs).

Definition io_bind {A B} (c : io A) (k : A -> io B) : io B :=
  fun fs =>
    match c fs with
    | (Ok a, fs') => k a fs'
    | (Raise e, fs') => (Raise e, fs')
    end.

Definition lift {A} (c : res A) : io A := fun fs => (c, fs).

(** [try: body / except Exception as e: handler(e)], files as they are
    when the exception is caught. *)
Definition io_try {A} (body : io A) (handler : exn -> io A) : io A :=
  fun fs =>
    match body fs with
    | (Ok a, fs') => (Ok a, fs')
    | (Raise e, fs') => handler e fs'
    end.

Notation "x <~ c ;; k" := (io_bind c (fun x => k))
  (at level 61, c at next level, right associativity).

Record host : Type := {
  uuid4 : str;
  (** whether [open(path, "wb")] succeeds *)
  open_result : str -> res unit;
  (** whether [shutil.copyfileobj] copies the whole upload *)
  copy_result : res unit;
  (** whether [os.remove(path)] succeeds on an existing file *)
  remove_result : str -> res unit;
  cv : ocr_backend
}.

Definition has_path (fs : files) (path : str) : bool := existsb (str_eqb path) fs.

(** [open(path, "wb")] creates the file. *)
Definition open_wb (h : host) (path : str) : io unit :=
  fun fs =>
    match open_result h path with
    | Ok _ => (Ok tt, if has_path fs path then fs else path :: fs)
    | Raise e => (Raise e, fs)
    end.

(** [os.remove(path)] *)
Definition os_remove (h : host) (path : str) : io unit :=
  fun fs =>
    if has_path fs path then
      match remove_result h path with
      | Ok _ => (Ok tt, filter (fun p => negb (str_eqb path p)) fs)
      | Raise e => (Raise e, fs)
      end
    else (Raise OSError, fs).

(** [posixpath.splitext(p)[1]]: from the last dot of the last component,
    unless that component has only dots before it. *)
Definition splitext_ext (p : str) : str :=
  let r := rev p in
  let after := take_while (fun c => negb (c =? 0x2E)%N) r in
  match drop_while (fun c => negb (c =? 0x2E)%N) r with
  | [] => []
  | dot :: before =>
      if existsb (N.eqb 0x2F) after then []
      else if existsb (fun c => negb (c =? 0x2E)%N)
                      (take_while (fun c => negb (c =? 0x2F)%N) before)
      then dot :: rev after
      else []
  end.

(** [posixpath.join(a, b)] *)
Definition path_join (a b : str) : str :=
  match b with
  | c :: _ => if (c =? 0x2F)%N then b else
      if negb (nonempty a) || (last a 0 =? 0x2F)%N then a ++ b else a ++ 0x2F%N :: b
  | [] => if negb (nonempty a) || (last a 0 =? 0x2F)%N then a else a ++ [0x2F%N]
  end.

Definition UPLOAD_DIR : str := py "temp_uploads".

Inductive response : Type :=
| Success (data : list dict)
| Failure (status_code : N) (error : exn).

Definition upload_path (h : host) (filename : option str) : str :=
  let file_id := uuid4 h in
  let file_extension :=
    match filename with
    | Some f => if nonempty f then splitext_ext f else py ".png"
    | None => py ".png"
    end in
  path_join UPLOAD_DIR (file_id ++ file_extension).

Definition get_lab_tests (h : host) (filename : option str) : io response :=
  io_try
    (let file_path := upload_path h filename in
     _ <~ open_wb h file_path ;;
     _ <~ lift (copy_result h) ;;
     text <~ lift (extract_text_from_image (cv h) file_path) ;;
     parsed_data <~ lift (parse_lab_tests text) ;;
     formatted_data <~ lift (format_output parsed_data) ;;
     _ <~ os_remove h file_path ;;
     io_ret (Success formatted_data))
    (fun e => io_ret (Failure 500 e)).

(** ** Specification-side definitions *)

(** What it means for [r] to match exactly [s], taking the groups [g] to
    [g']: the declarative reading of the backtracking matcher. *)
Inductive matches : regex -> str -> groups -> groups -> Prop :=
| M_Chr p c g : p c = true -> matches (Chr p) [c] g g
| M_Star b p s g : forallb p s = true -> matches (Star b p) s g g
| M_Cat r1 r2 s1 s2 g g1 g2 :
    matches r1 s1 g g1 -> matches r2 s2 g1 g2 -> matches (Cat r1 r2) (s1 ++ s2) g g2
| M_OptSkip r g : matches (Opt r) [] g g
| M_OptTake r s g g' : matches r s g g' -> matches (Opt r) s g g'
| M_Grp i r s g g' : matches r s g g' -> matches (Grp i r) s g ((i, s) :: g').

(** Shape of a captured reference range: [low-high], both sides non-empty
    runs of digits and dots. *)
Definition range_shape (r : str) : Prop :=
  exists a b, r = a ++ 0x2D%N :: b /\ a <> [] /\ b <> [] /\
              forallb num_class a = true /\ forallb num_class b = true.

(** A number that is neither a NaN nor negative. *)
Definition is_nonneg_number (v : pyfloat) : bool :=
  match v with
  | FNan => false
  | FInf neg | FFinite neg _ _ => negb neg
  end.

(** The characters left of a run of digits and dots once [float] has
    transliterated it: ASCII digits, dots and spaces. *)
Definition plain_char (c : char) : bool :=
  is_ascii_digit c || (c =? 0x2E)%N || (c =? 0x20)%N.

(** The flag the loop body computes for a value and a cleaned range. *)
Definition out_of_range_flag (float_value : pyfloat) (ref_range : str) : bool :=
  if nonempty ref_range then
    match range_check float_value ref_range with
    | Ok b => b
    | Raise _ => false
    end
  else false.

(** [line] makes the loop body append the record [d]. *)
Definition emits (line : str) (d : dict) : Prop :=
  exists m v,
    nonempty (strip line) = true /\
    re_match pattern (strip line) = Some m /\
    nonempty (if_truthy (fun s => upper (strip s)) (group m 1)) = true /\
    nonempty (if_truthy strip (group m 2)) = true /\
    float (if_truthy strip (group m 2)) = Ok v /\
    d = make_record (if_truthy (fun s => upper (strip s)) (group m 1))
                    (if_truthy strip (group m 2))
                    (if_truthy strip (group m 4))
                    (if_truthy strip (group m 3))
                    (out_of_range_flag v (if_truthy strip (group m 4))).

(** A separator character directly followed by a digit or a dot: where a
    value token can start. *)
Fixpoint has_value_token (s : str) : bool :=
  match s with
  | c :: s' =>
      match s' with
      | c' :: _ => (sep_class c && num_class c') || has_value_token s'
      | [] => false
      end
  | [] => false
  end.

(** A failure inside [extract_text_from_image]: the image cannot be read, or
    one of the calls to OpenCV or Tesseract raises. *)
Definition internal_failure (cv : ocr_backend) (image_path : str) : Prop :=
  (exists e, imread cv image_path = Raise e) \/
  imread cv image_path = Ok None \/
  exists img, imread cv image_path = Ok (Some img) /\
    ((exists e, cvtColor cv img = Raise e) \/
     exists gray, cvtColor cv img = Ok gray /\
       ((exists e, threshold cv gray = Raise e) \/
        exists binary, threshold cv gray = Ok binary /\
          ((exists e, medianBlur cv binary = Raise e) \/
           exists denoised, medianBlur cv binary = Ok denoised /\
             exists e, image_to_string cv denoised = Raise e))).

(** ** Sample data

    A small character database (Arabic-Indic digits; Latin-1 letters with
    their upper case, sharp s included), a backend that cannot decode
    anything, and a host on which copying the upload fails. *)

Definition sample_todecimal (c : char) : option N :=
  if in_range 0x660 0x669 c then Some (c - 0x660)%N else None.

Definition sample_toupper (c : char) : str :=
  if (c =? 0xDF)%N then [0x53; 0x53]%N
  else if in_range 0xE0 0xFE c && negb (c =? 0xF7)%N then [(c - 32)%N]
  else [c].

Definition undecodable : ocr_backend :=
  {| image := unit;
     imread := fun _ => Ok None;
     cvtColor := fun img => Ok img;
     threshold := fun img => Ok img;
     medianBlur := fun img => Ok img;
     image_to_string := fun _ => Ok [] |}.

Definition copy_fails : host :=
  {| uuid4 := py "1b4e28ba-2fa1-41d2-883f-0016d3cca427";
     open_result := fun _ => Ok tt;
     copy_result := Raise OSError;
     remove_result := fun _ => Ok tt;
     cv := undecodable |}.

Definition hemoglobin_line : str := py "HEMOGLOBIN 9.5 g/dL (13.0-17.0)".

Definition hemoglobin_record : dict :=
  [ ("test_name", VStr (py "HEMOGLOBIN"));
    ("test_value", VStr (py "9.5"));
    ("bio_reference_range", VStr (py "13.0-17.0"));
    ("test_unit", VStr (py "g/dL"));
    ("lab_test_out_of_range", VBool true) ]%string.

(** A value token of four hundred nines. *)
Definition huge_value : str := repeat 0x39%N 400.


(** The five fields of the output schema, in the order in which
    [format_output] reads them from an entry and writes them. *)
Definition required_keys : list string :=
  [ "test_name"; "test_value"; "bio_reference_range"; "test_unit";
    "lab_test_out_of_range" ]%string.


(** A backend that reads the hemoglobin line off any image, and a host on
    which every file operation succeeds. *)
Definition reads_hemoglobin : ocr_backend :=
  {| image := unit;
     imread := fun _ => Ok (Some tt);
     cvtColor := fun img => Ok img;
     threshold := fun img => Ok img;
     medianBlur := fun img => Ok img;
     image_to_string := fun _ => Ok hemoglobin_line |}.

Definition healthy : host :=
  {| uuid4 := py "1b4e28ba-2fa1-41d2-883f-0016d3cca427";
     open_result := fun _ => Ok tt;
     copy_result := Ok tt;
     remove_result := fun _ => Ok tt;
     cv := reads_hemoglobin |}.


(** ** The pattern read as a left-to-right scanner *)

(** Whether a value token starts at the head of [s]: a run of separators
    followed by a digit or a dot. *)
Definition token_at (s : str) : bool :=
  match s with
  | c :: s' =>
      sep_class c &&
      match drop_while sep_class s' with
      | d :: _ => num_class d
      | [] => false
      end
  | [] => false
  end.

(** The name and what follows it: the shortest prefix without a line feed
    after which a value token starts. *)
Fixpoint scan_name (s : str) : option (str * str) :=
  if token_at s then Some ([], s)
  else
    match s with
    | c :: s' =>
        if any_char c then
          match scan_name s' with
          | Some (name, rest) => Some (c :: name, rest)
          | None => None
          end
        else None
    | [] => None
    end.

(** A reference range at the head of [s]: digits and dots, a hyphen, digits
    and dots, each run as long as possible. *)
Definition scan_range (s : str) : option str :=
  let low := take_while num_class s in
  match drop_while num_class s with
  | h :: s1 =>
      let high := take_while num_class s1 in
      if (h =? 0x2D)%N && nonempty low && nonempty high
      then Some (low ++ h :: high)
      else None
  | [] => None
  end.

Definition skip_paren (s : str) : str :=
  match s with
  | c :: s' => if (c =? 0x28)%N then s' else s
  | [] => s
  end.

(** What follows the name, read in one pass: separators, value, spaces,
    unit if any, spaces, an opening parenthesis if any, range if any.  The
    groups found are added to [g]. *)
Definition scan_tail (rest : str) (g : groups) : groups :=
  let after_sep := drop_while sep_class rest in
  let value := take_while num_class after_sep in
  let after_value := drop_while is_space (drop_while num_class after_sep) in
  let unit := take_while unit_class after_value in
  let after_unit := drop_while is_space (drop_while unit_class after_value) in
  let g3 := (if nonempty unit then [(3%nat, unit)] else []) ++ (2%nat, value) :: g in
  match scan_range (skip_paren after_unit) with
  | Some r => (4%nat, r) :: g3
  | None => g3
  end.

(** The groups of a line. *)
Definition scan_line (s : str) : option groups :=
  match scan_name s with
  | None => None
  | Some (name, rest) => Some (scan_tail rest [(1%nat, name)])
  end.


(** [b] does not start with a character of [p]: a run of [p] ends before
    it. *)
Definition stops (p : char -> bool) (b : str) : Prop :=
  match b with
  | c :: _ => p c = false
  | [] => True
  end.

(** A test name as it stands in a well-formed line: not empty, on one line,
    without a separator followed by a digit or dot inside, not starting with
    whitespace and not ending with a separator. *)
Definition plain_name (name : str) : Prop :=
  name <> [] /\
  forallb any_char name = true /\
  has_value_token name = false /\
  (forall c s', name = c :: s' -> is_space c = false) /\
  (forall c s', rev name = c :: s' -> sep_class c = false).


(** ** Batch processing

    [process_all_images] runs against a host whose directory and file calls
    may fail, and against the files of the output directory, modelled by the
    texts written to them, latest first. *)

(** The Unicode database, for [str.lower]: the lower case of a character
    outside ASCII, which depends on the characters before and after it (a
    capital sigma at the end of a word). *)
Variable uni_tolower : str -> char -> str -> str.

(** [s.lower()], [before] being what has been read. *)
Fixpoint lower_from (before s : str) : str :=
  match s with
  | [] => []
  | c :: s' =>
      (if (c <? 128)%N then [ascii_lower c] else uni_tolower before c s')
      ++ lower_from (before ++ [c]) s'
  end.

Definition lower (s : str) : str := lower_from [] s.

(** [s.endswith(suffix)] *)
Definition endswith (s suffix : str) : bool :=
  (List.length suffix <=? List.length s)%nat &&
  str_eqb (skipn (List.length s - List.length suffix) s) suffix.

Definition image_suffixes : list str :=
  map py [".png"; ".jpg"; ".jpeg"; ".tif"; ".tiff"; ".bmp"]%string.

(** [file_name.lower().endswith(('.png', ...))] *)
Definition is_image_name (file_name : str) : bool :=
  existsb (endswith (lower file_name)) image_suffixes.

(** [posixpath.splitext(p)[0]]: what is left of [p] before its extension. *)
Definition splitext_root (p : str) : str :=
  firstn (List.length p - List.length (splitext_ext p)) p.

Definition INPUT_DIR : str := py "lbmaske".
Definition OUTPUT_DIR : str := py "output".

(** [json.dumps(..., indent=4, ensure_ascii=False)] for a list of records:
    strings between double quotes, with the quote, the backslash and the
    control characters escaped and everything else as it is. *)
Definition hex_digit (n : N) : char := if (n <? 10)%N then (48 + n)%N else (87 + n)%N.

Definition json_escape (c : char) : str :=
  if (c =? 0x22)%N then [0x5C; 0x22]%N
  else if (c =? 0x5C)%N then [0x5C; 0x5C]%N
  else if (c =? 0x0A)%N then [0x5C; 0x6E]%N
  else if (c =? 0x0D)%N then [0x5C; 0x72]%N
  else if (c =? 0x09)%N then [0x5C; 0x74]%N
  else if (c =? 0x08)%N then [0x5C; 0x62]%N
  else if (c =? 0x0C)%N then [0x5C; 0x66]%N
  else if (c <? 0x20)%N
       then [0x5C; 0x75; 0x30; 0x30; hex_digit (c / 16); hex_digit (c mod 16)]%N
  else [c].

Definition json_string (s : str) : str :=
  0x22%N :: flat_map json_escape s ++ [0x22%N].

Definition json_value (v : pyval) : str :=
  match v with
  | VStr s => json_string s
  | VBool true => py "true"
  | VBool false => py "false"
  end.

(** A line feed and the indentation of [level]. *)
Definition newline_indent (level : nat) : str := 0x0A%N :: repeat 0x20%N (4 * level).

Fixpoint join (sep : str) (parts : list str) : str :=
  match parts with
  | [] => []
  | [p] => p
  | p :: rest => p ++ sep ++ join sep rest
  end.

Definition json_item (kv : string * pyval) : str :=
  json_string (py (fst kv)) ++ py ": " ++ json_value (snd kv).

Definition json_dict (level : nat) (d : dict) : str :=
  match d with
  | [] => py "{}"
  | _ => py "{" ++ newline_indent (S level) ++
         join (py "," ++ newline_indent (S level)) (map json_item d) ++
         newline_indent level ++ py "}"
  end.

Definition json_dumps (data : list dict) : str :=
  match data with
  | [] => py "[]"
  | _ => py "[" ++ newline_indent 1 ++
         join (py "," ++ newline_indent 1) (map (json_dict 1) data) ++
         newline_indent 0 ++ py "]"
  end.

Record batch_host : Type := {
  (** [os.makedirs(OUTPUT_DIR, exist_ok=True)] *)
  makedirs_result : res unit;
  (** [os.path.exists(INPUT_DIR)] *)
  input_exists : bool;
  (** [os.listdir(INPUT_DIR)] *)
  listdir_result : res (list str);
  (** whether [open(path, "w", encoding='utf-8')] succeeds, for the image
      with that number *)
  open_w_result : nat -> str -> res unit;
  (** whether the text gets written and the file closed, for the image with
      that number; if not, the exception and the text left in the file *)
  write_result : nat -> str -> str -> option (exn * str);
  batch_cv : ocr_backend
}.

(** The files of the output directory: path and text, latest first. *)
Definition outputs := list (str * str).

Fixpoint file_content (out : outputs) (path : str) : option str :=
  match out with
  | [] => None
  | (p, text) :: out' => if str_eqb path p then Some text else file_content out' path
  end.

Definition output_path_of (file_name : str) : str :=
  path_join OUTPUT_DIR (splitext_root file_name ++ py ".json").

(** What an image gives: the text of its output file. *)
Definition image_report (cv : ocr_backend) (file_name : str) : res str :=
  text <- extract_text_from_image cv (path_join INPUT_DIR file_name) ;;
  parsed_data <- parse_lab_tests text ;;
  Ok (json_dumps parsed_data).

(** The loop over the directory listing: the number of images processed,
    and the files of the output directory, when the loop ends or raises. *)
Fixpoint process_files (h : batch_host) (file_names : list str)
         (image_count : nat) (out : outputs) : res nat * outputs :=
  match file_names with
  | [] => (Ok image_count, out)
  | file_name :: rest =>
      if is_image_name file_name then
        match image_report (batch_cv h) file_name with
        | Raise e => (Raise e, out)
        | Ok report =>
            let output_path := output_path_of file_name in
            match open_w_result h image_count output_path with
            | Raise e => (Raise e, out)
            | Ok _ =>
                match write_result h image_count output_path report with
                | Some (e, remains) => (Raise e, (output_path, remains) :: out)
                | None =>
                    process_files h rest (S image_count) ((output_path, report) :: out)
                end
            end
        end
      else process_files h rest image_count out
  end.

Definition process_all_images (h : batch_host) (out : outputs) : res unit * outputs :=
  match makedirs_result h with
  | Raise e => (Raise e, out)
  | Ok _ =>
      if negb (input_exists h) then (Ok tt, out)
      else
        match listdir_result h with
        | Raise e => (Raise e, out)
        | Ok file_names =>
            match process_files h file_names 0 out with
            | (Ok _, out') => (Ok tt, out')
            | (Raise e, out') => (Raise e, out')
            end
        end
  end.


(** Sample data for the batch: lower case for Latin-1 letters; a backend
    that reads the hemoglobin line off [lbmaske/scan.JPG] and cannot decode
    any other file; a folder with two images of the same stem, a text file
    and a third image, on a host where every call succeeds, and the same
    folder on a host where the second output file cannot be opened. *)
Definition sample_tolower (before : str) (c : char) (after : str) : str :=
  if in_range 0xC0 0xDE c && negb (c =? 0xD7)%N then [(c + 32)%N] else [c].

Definition reads_scan_jpg : ocr_backend :=
  {| image := unit;
     imread := fun p => if str_eqb p (py "lbmaske/scan.JPG") then Ok (Some tt) else Ok None;
     cvtColor := fun img => Ok img;
     threshold := fun img => Ok img;
     medianBlur := fun img => Ok img;
     image_to_string := fun _ => Ok hemoglobin_line |}.

Definition lab_folder : batch_host :=
  {| makedirs_result := Ok tt;
     input_exists := true;
     listdir_result := Ok [py "scan.png"; py "notes.txt"; py "scan.JPG"; py "old.bmp"];
     open_w_result := fun _ _ => Ok tt;
     write_result := fun _ _ _ => None;
     batch_cv := reads_scan_jpg |}.

Definition second_open_fails : batch_host :=
  {| makedirs_result := Ok tt;
     input_exists := true;
     listdir_result := Ok [py "scan.png"; py "notes.txt"; py "scan.JPG"; py "old.bmp"];
     open_w_result := fun k _ => if (k =? 1)%nat then Raise OSError else Ok tt;
     write_result := fun _ _ _ => None;
     batch_cv := reads_scan_jpg |}.

(** ** Strings: basic facts *)

Lemma nonempty_true A (l : list A) : nonempty l = true <-> l <> [].
Proof. destruct l; simpl; split; congruence. Qed.

Lemma nonempty_false A (l : list A) : nonempty l = false <-> l = [].
Proof. destruct l; simpl; split; congruence. Qed.

Lemma forallb_drop_while p q s :
  forallb p s = true -> forallb p (drop_while q s) = true.
Proof.
  induction s as [|c s IH]; simpl; auto.
  intros H. apply andb_prop in H as [Hc Hs].
  destruct (q c); simpl; auto. now rewrite Hc, Hs.
Qed.

Lemma forallb_rev (p : char -> bool) s :
  forallb p (rev s) = forallb p s.
Proof.
  induction s as [|c s IH]; simpl; auto.
  rewrite forallb_app, IH. simpl. rewrite andb_true_r. apply andb_comm.
Qed.

Lemma forallb_strip p s : forallb p s = true -> forallb p (strip s) = true.
Proof.
  intros H. unfold strip, rstrip, lstrip.
  rewrite forallb_rev. apply forallb_drop_while.
  rewrite forallb_rev. now apply forallb_drop_while.
Qed.

Lemma drop_while_head p c s : p c = false -> drop_while p (c :: s) = c :: s.
Proof. intros H. simpl. now rewrite H. Qed.

(** Stripping a string that neither starts nor ends with whitespace. *)
Lemma strip_fixed s :
  (forall c s', s = c :: s' -> is_space c = false) ->
  (forall c s', rev s = c :: s' -> is_space c = false) ->
  strip s = s.
Proof.
  intros Hfirst Hlast. unfold strip, rstrip, lstrip.
  assert (E : drop_while is_space s = s).
  { destruct s as [|c s']; auto. apply drop_while_head. eapply Hfirst; eauto. }
  rewrite E.
  destruct (rev s) as [|c r] eqn:Er.
  - simpl. apply (f_equal (@rev _)) in Er. rewrite rev_involutive in Er. now rewrite Er.
  - rewrite drop_while_head by (eapply Hlast; eauto).
    rewrite <- Er. apply rev_involutive.
Qed.

Lemma drop_while_first p s c s' : drop_while p s = c :: s' -> p c = false.
Proof.
  induction s as [|x s IH]; simpl; try discriminate.
  destruct (p x) eqn:E; auto. intros H. injection H as -> _. exact E.
Qed.

Lemma drop_while_suffix p s : exists pre, s = pre ++ drop_while p s.
Proof.
  induction s as [|x s [pre IH]]; simpl.
  - now exists [].
  - destruct (p x).
    + exists (x :: pre). simpl. now f_equal.
    + now exists [].
Qed.

(** A stripped string neither starts nor ends with whitespace. *)
Lemma strip_first s c s' : strip s = c :: s' -> is_space c = false.
Proof.
  unfold strip, rstrip, lstrip. intros H.
  destruct (drop_while_suffix is_space (rev (drop_while is_space s))) as [pre Hp].
  apply (f_equal (@rev _)) in Hp.
  rewrite rev_involutive, rev_app_distr, H in Hp. simpl in Hp.
  eapply drop_while_first. exact Hp.
Qed.

Lemma strip_last s c s' : rev (strip s) = c :: s' -> is_space c = false.
Proof.
  unfold strip, rstrip. rewrite rev_involutive. apply drop_while_first.
Qed.

(** ** The matcher only finds matches *)

Lemma star_greedy_sound A p s (k : str -> option A) a :
  star_greedy p s k = Some a ->
  exists s1 s2, s = s1 ++ s2 /\ forallb p s1 = true /\ k s2 = Some a.
Proof.
  induction s as [|c s IH]; simpl; intros H.
  - exists [], []. auto.
  - destruct (p c) eqn:Hc.
    + destruct (star_greedy p s k) as [a'|] eqn:E.
      * injection H as ->. destruct (IH eq_refl) as (s1 & s2 & -> & Hp & Hk).
        exists (c :: s1), s2. simpl. rewrite Hc, Hp. auto.
      * exists [], (c :: s). auto.
    + exists [], (c :: s). auto.
Qed.

Lemma star_lazy_sound A p s (k : str -> option A) a :
  star_lazy p s k = Some a ->
  exists s1 s2, s = s1 ++ s2 /\ forallb p s1 = true /\ k s2 = Some a.
Proof.
  induction s as [|c s IH]; simpl; intros H.
  - destruct (k []) eqn:E; [|discriminate]. exists [], []. rewrite E. auto.
  - destruct (k (c :: s)) eqn:E.
    + exists [], (c :: s). rewrite E. auto.
    + destruct (p c) eqn:Hc; [|discriminate].
      destruct (IH H) as (s1 & s2 & -> & Hp & Hk).
      exists (c :: s1), s2. simpl. rewrite Hc, Hp. auto.
Qed.

Lemma firstn_consumed (s1 s2 : str) :
  firstn (List.length (s1 ++ s2) - List.length s2) (s1 ++ s2) = s1.
Proof.
  rewrite length_app.
  replace (List.length s1 + List.length s2 - List.length s2)%nat
    with (List.length s1 + 0)%nat by lia.
  rewrite firstn_app_2. simpl. apply app_nil_r.
Qed.

Lemma rmatch_sound A r : forall s g (k : str -> groups -> option A) a,
  rmatch r s g k = Some a ->
  exists s1 s2 g', s = s1 ++ s2 /\ matches r s1 g g' /\ k s2 g' = Some a.
Proof.
  induction r as [p|b p|r1 IH1 r2 IH2|r IH|i r IH]; simpl; intros s g k a H.
  - destruct s as [|c s]; [discriminate|].
    destruct (p c) eqn:Hc; [|discriminate].
    exists [c], s, g. repeat split; auto. now constructor.
  - assert (Hs : exists s1 s2, s = s1 ++ s2 /\ forallb p s1 = true /\ k s2 g = Some a).
    { destruct b; [eapply star_greedy_sound | eapply star_lazy_sound]; exact H. }
    destruct Hs as (s1 & s2 & -> & Hp & Hk).
    exists s1, s2, g. repeat split; auto. now constructor.
  - destruct (IH1 _ _ _ _ H) as (s1 & t & g1 & -> & M1 & H2).
    destruct (IH2 _ _ _ _ H2) as (s2 & s3 & g2 & -> & M2 & H3).
    exists (s1 ++ s2), s3, g2. rewrite app_assoc. repeat split; auto.
    econstructor; eauto.
  - destruct (rmatch r s g k) as [a'|] eqn:E.
    + injection H as ->. destruct (IH _ _ _ _ E) as (s1 & s2 & g' & -> & M & Hk).
      exists s1, s2, g'. repeat split; auto. now constructor.
    + exists [], s, g. repeat split; auto. constructor.
  - destruct (IH _ _ _ _ H) as (s1 & s2 & g' & -> & M & Hk).
    rewrite firstn_consumed in Hk.
    exists s1, s2, ((i, s1) :: g'). repeat split; auto. now constructor.
Qed.

Lemma re_match_sound r s m :
  re_match r s = Some m -> exists s1 s2, s = s1 ++ s2 /\ matches r s1 [] m.
Proof.
  unfold re_match. intros H.
  destruct (rmatch_sound _ _ _ _ H) as (s1 & s2 & g' & -> & M & Hk).
  injection Hk as ->. eauto.
Qed.

(** ** What a match of [pattern] captures *)

Ltac use_true :=
  simpl;
  repeat match goal with
         | H : ?x = true |- context [ ?x ] => rewrite H
         end;
  solve [reflexivity | discriminate].

Ltac inv_matches :=
  repeat match goal with
  | H : matches (Cat _ _) _ _ _ |- _ => inversion H; clear H; subst
  | H : matches (Grp _ _) _ _ _ |- _ => inversion H; clear H; subst
  | H : matches (Chr _) _ _ _ |- _ => inversion H; clear H; subst
  | H : matches (Star _ _) _ _ _ |- _ => inversion H; clear H; subst
  | H : matches (Opt _) _ _ _ |- _ => inversion H; clear H; subst
  end.

Lemma pattern_matches_inv s1 m :
  matches pattern s1 [] m ->
  exists name sep value rest,
    s1 = name ++ sep ++ value ++ rest /\
    group m 1 = Some name /\ group m 2 = Some value /\
    sep <> [] /\ forallb sep_class sep = true /\
    value <> [] /\ forallb num_class value = true /\
    (group m 3 = None \/
     exists u, group m 3 = Some u /\ u <> [] /\ forallb unit_class u = true) /\
    (group m 4 = None \/ exists r, group m 4 = Some r /\ range_shape r).
Proof.
  unfold pattern, Plus. intros H. inv_matches.
  all: repeat match goal with
              | H : is_char _ _ = true |- _ => apply N.eqb_eq in H; subst
              end.
  all: match goal with
       | |- exists name sep value rest, ?n ++ ?sp ++ ?v ++ ?r = _ /\ _ =>
           exists n, sp, v, r
       end.
  all: simpl; repeat match goal with
                     | H : ?x = true |- context [ ?x ] => rewrite H
                     end.
  all: repeat (split; [first [reflexivity | discriminate]|]).
  all: split; [first [left; reflexivity | right; eexists; repeat split; use_true]|].
  all: first [left; reflexivity | right; eexists; split; [reflexivity|] ].
  all: match goal with
       | |- range_shape (?c :: ?a ++ _ :: ?d :: ?b) => exists (c :: a), (d :: b)
       end.
  all: repeat split; use_true.
Qed.

(** ** Floats *)

Lemma fcompare_antisym x y :
  fcompare x y = option_map CompOpp (fcompare y x).
Proof.
  destruct x as [|sx|sx mx ex], y as [|sy|sy my ey]; simpl; auto.
  - now destruct sx, sy.
  - now destruct sx.
  - now destruct sy.
  - rewrite (Z.min_comm ey ex). now rewrite Z.compare_antisym.
Qed.

(** Without NaN, [not (low <= v <= high)] is [v < low or v > high]. *)
Lemma outside_interval v lo hi :
  v <> FNan -> lo <> FNan -> hi <> FNan ->
  negb (fle lo v && fle v hi) = flt v lo || fgt v hi.
Proof.
  intros Hv Hlo Hhi. unfold fle, flt, fgt.
  rewrite (fcompare_antisym lo v).
  destruct (fcompare v lo) as [[]|] eqn:E1, (fcompare v hi) as [[]|] eqn:E2;
    simpl; auto.
  all: exfalso.
  all: destruct v, lo, hi; simpl in *; congruence.
Qed.

Lemma mul_compare_r (p n m : Z) :
  (0 < p)%Z -> (n * p ?= m * p)%Z = (n ?= m)%Z.
Proof.
  intros Hp. destruct (Z.compare_spec n m) as [->|H|H].
  - apply Z.compare_refl.
  - apply Z.compare_lt_iff. now apply Z.mul_lt_mono_pos_r.
  - apply Z.compare_gt_iff. now apply Z.mul_lt_mono_pos_r.
Qed.

(** Two dyadic numbers can be compared at any scale below both exponents. *)
Lemma compare_at_scale a b ea eb e :
  (e <= ea)%Z -> (e <= eb)%Z ->
  (a * 2 ^ (ea - Z.min ea eb) ?= b * 2 ^ (eb - Z.min ea eb))%Z
  = (a * 2 ^ (ea - e) ?= b * 2 ^ (eb - e))%Z.
Proof.
  intros Ha Hb.
  set (mn := Z.min ea eb).
  assert (Hmn : (e <= mn)%Z) by (unfold mn; lia).
  assert (Hpos : (0 < 2 ^ (mn - e))%Z) by (apply Z.pow_pos_nonneg; lia).
  replace (ea - e)%Z with ((ea - mn) + (mn - e))%Z by lia.
  replace (eb - e)%Z with ((eb - mn) + (mn - e))%Z by lia.
  rewrite !Z.pow_add_r by (unfold mn; lia).
  rewrite !Z.mul_assoc.
  symmetry. apply mul_compare_r. exact Hpos.
Qed.

(** Equal floats compare alike with any third one. *)
Lemma fcompare_eq_l x y z :
  fcompare x y = Some Eq -> fcompare x z = fcompare y z.
Proof.
  destruct x as [|sx|sx mx ex], y as [|sy|sy my ey]; simpl; try discriminate.
  - destruct sx, sy; try discriminate; auto.
  - destruct sx; discriminate.
  - destruct sy; discriminate.
  - intros H. injection H as H.
    destruct z as [|sz|sz mz ez]; simpl; auto.
    set (e := Z.min (Z.min ex ey) ez).
    rewrite (@compare_at_scale _ _ ex ey e) in H by (unfold e; lia).
    rewrite (@compare_at_scale _ _ ex ez e) by (unfold e; lia).
    rewrite (@compare_at_scale _ _ ey ez e) by (unfold e; lia).
    apply Z.compare_eq in H. now rewrite H.
Qed.

(** In a range with [low <= high], a value equal to a bound is inside. *)
Lemma on_bound_inside v lo hi :
  fle lo hi = true ->
  fcompare v lo = Some Eq \/ fcompare v hi = Some Eq ->
  negb (fle lo v && fle v hi) = false.
Proof.
  intros Hle [H|H]; apply negb_false_iff, andb_true_iff.
  - split.
    + unfold fle. rewrite fcompare_antisym, H. reflexivity.
    + unfold fle in *. now rewrite (fcompare_eq_l _ _ hi H).
  - split.
    + unfold fle in *. rewrite fcompare_antisym, (fcompare_eq_l _ _ lo H).
      now rewrite <- fcompare_antisym.
    + unfold fle. now rewrite H.
Qed.

Lemma fle_spec c : match c with Lt | Eq => true | Gt => false end = true <-> c <> Gt.
Proof. destruct c; split; congruence. Qed.

Lemma fle_trans x y z : fle x y = true -> fle y z = true -> fle x z = true.
Proof.
  unfold fle.
  destruct x as [|sx|sx mx ex], y as [|sy|sy my ey], z as [|sz|sz mz ez];
    cbn [fcompare]; try discriminate; auto.
  all: try (destruct sx; discriminate).
  all: try (destruct sy; discriminate).
  all: try (destruct sz; discriminate).
  all: try (destruct sx, sy, sz; (discriminate || reflexivity)).
  all: try (destruct sx, sy; (discriminate || reflexivity)).
  all: try (destruct sy, sz; (discriminate || reflexivity)).
  all: try (destruct sx, sz; (discriminate || reflexivity)).
  set (e := Z.min (Z.min ex ey) ez).
  rewrite (@compare_at_scale _ _ ex ey e) by (unfold e; lia).
  rewrite (@compare_at_scale _ _ ey ez e) by (unfold e; lia).
  rewrite (@compare_at_scale _ _ ex ez e) by (unfold e; lia).
  set (a := (signed sx mx * 2 ^ (ex - e))%Z).
  set (b := (signed sy my * 2 ^ (ey - e))%Z).
  set (c := (signed sz mz * 2 ^ (ez - e))%Z).
  destruct (Z.compare_spec a b), (Z.compare_spec b c), (Z.compare_spec a c);
    try discriminate; auto; lia.
Qed.

(** In a range written the wrong way round no value is inside. *)
Lemma reversed_outside v lo hi :
  fgt lo hi = true -> negb (fle lo v && fle v hi) = true.
Proof.
  intros Hrev. apply negb_true_iff.
  destruct (fle lo v && fle v hi) eqn:E; auto.
  apply andb_prop in E as [E1 E2]. pose proof (fle_trans _ _ _ E1 E2) as Hle.
  unfold fle, fgt in *. destruct (fcompare lo hi) as [[]|]; discriminate.
Qed.


Lemma binary64_of_ratio_sign neg num den :
  is_nonneg_number (binary64_of_ratio neg num den) = negb neg.
Proof.
  unfold binary64_of_ratio.
  destruct (num =? 0)%Z; auto.
  destruct (scale2 num den (Z.log2 num - Z.log2 den)) as [a b].
  destruct (scale2 num den _) as [a' b'].
  destruct (round_half_even a' b' =? 2 ^ 53)%Z;
  match goal with |- context [ (971 <? ?e)%Z ] => destruct (971 <? e)%Z end; auto.
Qed.

Lemma str_eqb_eq a b : str_eqb a b = true -> a = b.
Proof. unfold str_eqb. destruct (list_eq_dec N.eq_dec a b); congruence. Qed.

Lemma strtod_raises u e : strtod u = Raise e -> e = ValueError.
Proof.
  unfold strtod.
  destruct (read_sign u) as [neg body].
  match goal with |- context [ let '(_, _) := ?x in _ ] => destruct x as [fracpart rest'] end.
  destruct (nonempty _).
  - destruct (read_exponent rest'); congruence.
  - destruct (_ || _); [congruence|].
    destruct (str_eqb _ _); congruence.
Qed.

Lemma plain_char_letter c :
  plain_char c = true ->
  ascii_lower c <> 0x69%N /\ ascii_lower c <> 0x6E%N /\
  c <> 0x2D%N /\ c <> 0x2B%N /\ c <> 0x5F%N.
Proof.
  unfold plain_char, ascii_lower, is_ascii_digit, in_range. intros H.
  repeat rewrite orb_true_iff in H. rewrite andb_true_iff in H.
  repeat rewrite N.eqb_eq in H. repeat rewrite N.leb_le in H.
  destruct ((65 <=? c)%N && (c <=? 90)%N) eqn:E.
  - apply andb_prop in E as [E1 E2]. apply N.leb_le in E1, E2. lia.
  - lia.
Qed.

Lemma plain_char_exponent c : plain_char c = true -> c <> 0x65%N /\ c <> 0x45%N.
Proof.
  unfold plain_char, is_ascii_digit, in_range. intros H.
  repeat rewrite orb_true_iff in H. rewrite andb_true_iff in H.
  repeat rewrite N.eqb_eq in H. repeat rewrite N.leb_le in H. lia.
Qed.

Lemma read_sign_plain u : forallb plain_char u = true -> read_sign u = (false, u).
Proof.
  destruct u as [|c u']; auto. cbn [forallb]. intros Hu.
  apply andb_prop in Hu as [Hc _].
  apply plain_char_letter in Hc as (_ & _ & Hm & Hp & _).
  cbn [read_sign]. apply N.eqb_neq in Hm, Hp. now rewrite Hm, Hp.
Qed.

Lemma read_exponent_plain r x :
  forallb plain_char r = true -> read_exponent r = Some x -> x = 0%Z.
Proof.
  destruct r as [|c r]; cbn [read_exponent forallb].
  - intros _ H. now injection H as <-.
  - intros H. apply andb_prop in H as [Hc _].
    apply plain_char_exponent in Hc as [H1 H2].
    apply N.eqb_neq in H1, H2. rewrite H1, H2. discriminate.
Qed.

(** No spelling of [inf] or [nan] is made of digits, dots and spaces. *)
Lemma plain_word u w x w' :
  forallb plain_char u = true ->
  str_eqb (map ascii_lower u) w = true -> w = x :: w' ->
  x = 0x69%N \/ x = 0x6E%N -> False.
Proof.
  intros Hu Hw -> Hx. apply str_eqb_eq in Hw.
  destruct u as [|c u']; [discriminate|]. cbn [map forallb] in Hw, Hu.
  injection Hw as Hc _. apply andb_prop in Hu as [Hp _].
  apply plain_char_letter in Hp as (Hi & Hn & _). destruct Hx; congruence.
Qed.

Lemma take_while_all p s : forallb p (take_while p s) = true.
Proof.
  induction s as [|c s IH]; cbn [take_while forallb]; auto.
  destruct (p c) eqn:E; cbn [forallb]; auto. now rewrite E.
Qed.

Lemma length_take_drop p s :
  (List.length (take_while p s) + List.length (drop_while p s) = List.length s)%nat.
Proof.
  induction s as [|c s IH]; cbn [take_while drop_while List.length]; auto.
  destruct (p c); cbn [List.length]; lia.
Qed.

Lemma length_drop_while_le p s : (List.length (drop_while p s) <= List.length s)%nat.
Proof. pose proof (length_take_drop p s). lia. Qed.

(** A string of digits, dots and spaces that [strtod] accepts is a plain
    decimal numeral: no sign, no exponent. *)
Lemma strtod_plain_shape u v :
  forallb plain_char u = true -> strtod u = Ok v ->
  exists intpart fracpart,
    v = decimal_to_float false intpart fracpart 0 /\
    forallb is_ascii_digit intpart = true /\
    forallb is_ascii_digit fracpart = true /\
    (List.length intpart <= List.length u)%nat.
Proof.
  intros Hu. unfold strtod. rewrite (read_sign_plain _ Hu).
  assert (Hrest : forallb plain_char (drop_while is_ascii_digit u) = true)
    by now apply forallb_drop_while.
  match goal with
  | |- context [ let '(_, _) := ?x in _ ] =>
      assert (HM : exists frac rest',
                 x = (frac, rest') /\ forallb is_ascii_digit frac = true /\
                 forallb plain_char rest' = true)
  end.
  { destruct (drop_while is_ascii_digit u) as [|c r]; [exists [], []; auto|].
    cbn [forallb] in Hrest. apply andb_prop in Hrest as [Hc Hr].
    destruct (c =? 46)%N.
    - exists (take_while is_ascii_digit r), (drop_while is_ascii_digit r).
      repeat split; [apply take_while_all | now apply forallb_drop_while].
    - exists [], (c :: r). cbn [forallb]. now rewrite Hc, Hr. }
  destruct HM as (frac & rest' & -> & Hfrac & Hrest').
  destruct (nonempty _).
  - destruct (read_exponent rest') as [x|] eqn:Ee; [|discriminate].
    apply read_exponent_plain in Ee; auto. subst x.
    intros H. injection H as <-.
    exists (take_while is_ascii_digit u), frac. repeat split; auto.
    + apply take_while_all.
    + pose proof (length_take_drop is_ascii_digit u). lia.
  - destruct (str_eqb _ (py "inf")) eqn:E1.
    { exfalso. eapply plain_word; [exact Hu|exact E1|reflexivity|auto]. }
    destruct (str_eqb _ (py "infinity")) eqn:E2.
    { exfalso. eapply plain_word; [exact Hu|exact E2|reflexivity|auto]. }
    destruct (str_eqb _ (py "nan")) eqn:E3.
    { exfalso. eapply plain_word; [exact Hu|exact E3|reflexivity|auto]. }
    discriminate.
Qed.

(** Such a numeral is never read as a NaN or as a negative number. *)
Lemma strtod_plain u v :
  forallb plain_char u = true -> strtod u = Ok v -> is_nonneg_number v = true.
Proof.
  intros Hu Hv.
  destruct (strtod_plain_shape _ Hu Hv) as (intpart & fracpart & -> & _).
  unfold decimal_to_float. destruct (0 <=? _)%Z; apply binary64_of_ratio_sign.
Qed.

Lemma todecimal_digit c d : todecimal c = Some d -> (d < 10)%N.
Proof.
  unfold todecimal, is_ascii_digit, in_range.
  destruct (c <? 128)%N; [|apply uni_todecimal_digit].
  destruct (48 <=? c)%N eqn:E1; [|discriminate].
  destruct (c <=? 57)%N eqn:E2; [|discriminate].
  simpl. intros H. injection H as <-.
  apply N.leb_le in E1, E2. lia.
Qed.

Lemma num_class_ascii c :
  (c <? 127)%N = true -> num_class c = true -> plain_char c = true.
Proof.
  unfold num_class, is_decimal, todecimal, plain_char. intros Hc.
  assert (E : (c <? 128)%N = true).
  { apply N.ltb_lt in Hc. apply N.ltb_lt. lia. }
  rewrite E. destruct (is_ascii_digit c); simpl; auto.
  intros ->. reflexivity.
Qed.

Lemma transform_plain s :
  forallb num_class s = true ->
  forallb plain_char (transform_decimal_and_space s) = true.
Proof.
  induction s as [|c s IH]; cbn [transform_decimal_and_space forallb]; auto.
  intros H. apply andb_prop in H as [Hc Hs].
  destruct (c <? 127)%N eqn:E.
  - cbn [forallb]. rewrite (num_class_ascii _ E Hc). auto.
  - destruct (is_space c); [cbn [forallb]; rewrite IH by assumption; reflexivity|].
    destruct (todecimal c) as [d|] eqn:T.
    + cbn [forallb]. rewrite IH by assumption. rewrite andb_true_r.
      apply todecimal_digit in T.
      unfold plain_char, is_ascii_digit, in_range.
      apply orb_true_iff; left. apply orb_true_iff; left.
      apply andb_true_iff; split; apply N.leb_le; lia.
    + exfalso. unfold num_class, is_decimal in Hc. rewrite T in Hc.
      cbn [orb] in Hc. apply N.eqb_eq in Hc. subst c. discriminate.
Qed.

Lemma plain_no_underscore t :
  forallb plain_char t = true -> existsb (N.eqb 0x5F) t = false.
Proof.
  induction t as [|c t IH]; cbn [existsb forallb]; auto.
  intros H. apply andb_prop in H as [Hc Ht]. rewrite (IH Ht), orb_false_r.
  apply plain_char_letter in Hc as (_ & _ & _ & _ & Hu).
  apply N.eqb_neq. congruence.
Qed.

(** [float] of a run of digits and dots, when it succeeds, is a number that
    is neither NaN nor negative. *)
Lemma float_num_class s v :
  forallb num_class s = true -> float s = Ok v -> is_nonneg_number v = true.
Proof.
  intros Hs. unfold float.
  set (t := rev (drop_while is_c_space
                   (rev (drop_while is_c_space (transform_decimal_and_space s))))).
  assert (Ht : forallb plain_char t = true).
  { unfold t. rewrite forallb_rev. apply forallb_drop_while.
    rewrite forallb_rev. apply forallb_drop_while. now apply transform_plain. }
  destruct (nonempty t); [|discriminate].
  rewrite (plain_no_underscore _ Ht). now apply strtod_plain.
Qed.

Lemma is_nonneg_number_not_nan v : is_nonneg_number v = true -> v <> FNan.
Proof. destruct v; simpl; congruence. Qed.

Lemma float_raises s e : float s = Raise e -> e = ValueError.
Proof.
  unfold float. destruct (nonempty _); [|congruence].
  destruct (if existsb _ _ then _ else _); [apply strtod_raises|congruence].
Qed.

(** A rational below [2^1023] rounds to a finite binary64 value. *)
Lemma binary64_of_ratio_finite neg num den :
  (0 <= num)%Z -> (0 < den)%Z -> (num < den * 2 ^ 1023)%Z ->
  is_finite (binary64_of_ratio neg num den) = true.
Proof.
  intros Hnum Hden Hlt. unfold binary64_of_ratio.
  destruct (num =? 0)%Z eqn:E0; auto.
  apply Z.eqb_neq in E0.
  set (d := (Z.log2 num - Z.log2 den)%Z).
  assert (Hd : (d <= 1023)%Z).
  { assert (H : (Z.log2 num <= Z.log2 (den * 2 ^ 1023))%Z)
      by (apply Z.log2_le_mono; lia).
    rewrite Z.log2_mul_pow2 in H by lia. unfold d. lia. }
  destruct (scale2 num den d) as [a b] eqn:Es.
  set (fl := if (b <=? a)%Z then d else (d - 1)%Z).
  assert (Hfl : (fl <= 1022)%Z).
  { unfold fl. destruct (b <=? a)%Z eqn:Eab; [|lia].
    apply Z.leb_le in Eab.
    destruct (Z.eq_dec d 1023) as [Hd'|]; [|lia].
    exfalso. unfold scale2 in Es. rewrite Hd' in Es. cbn [Z.leb Z.compare] in Es.
    change (0 <=? 1023)%Z with true in Es. injection Es as <- <-. lia. }
  set (e := Z.max (fl - 52) (-1074)).
  assert (He : (e <= 970)%Z) by (unfold e; lia).
  destruct (scale2 num den e) as [a' b'].
  destruct (round_half_even a' b' =? 2 ^ 53)%Z.
  - replace (971 <? e + 1)%Z with false by (symmetry; apply Z.ltb_ge; lia). reflexivity.
  - replace (971 <? e)%Z with false by (symmetry; apply Z.ltb_ge; lia). reflexivity.
Qed.

Lemma fold_digits_bound ds : forall acc,
  forallb is_ascii_digit ds = true -> (0 <= acc)%Z ->
  (0 <= fold_left (fun acc c => 10 * acc + (Z.of_N c - 48)) ds acc
   < (acc + 1) * 10 ^ Z.of_nat (List.length ds))%Z.
Proof.
  induction ds as [|c ds IH]; intros acc Hds Hacc.
  - cbn [fold_left List.length]. change (10 ^ Z.of_nat 0)%Z with 1%Z. lia.
  - cbn [forallb] in Hds. apply andb_prop in Hds as [Hc Hds].
    cbn [fold_left List.length].
    assert (Hk : (0 <= Z.of_N c - 48 <= 9)%Z).
    { unfold is_ascii_digit, in_range in Hc. apply andb_prop in Hc as [H1 H2].
      apply N.leb_le in H1, H2. lia. }
    specialize (IH (10 * acc + (Z.of_N c - 48))%Z Hds ltac:(lia)).
    rewrite Nat2Z.inj_succ, Z.pow_succ_r by lia.
    assert (Hp : (0 < 10 ^ Z.of_nat (List.length ds))%Z) by (apply Z.pow_pos_nonneg; lia).
    nia.
Qed.

Lemma digits_value_bound ds :
  forallb is_ascii_digit ds = true ->
  (0 <= digits_value ds < 10 ^ Z.of_nat (List.length ds))%Z.
Proof.
  intros H. unfold digits_value.
  pose proof (@fold_digits_bound ds 0%Z H ltac:(lia)) as B. lia.
Qed.

(** A numeral with at most 307 digits before the point is below [2^1023]. *)
Lemma decimal_to_float_finite neg intpart fracpart :
  forallb is_ascii_digit intpart = true ->
  forallb is_ascii_digit fracpart = true ->
  (List.length intpart <= 307)%nat ->
  is_finite (decimal_to_float neg intpart fracpart 0) = true.
Proof.
  intros Hi Hf Hlen. unfold decimal_to_float.
  assert (Hn : (0 <= digits_value (intpart ++ fracpart)
                < 10 ^ Z.of_nat (List.length intpart) * 10 ^ Z.of_nat (List.length fracpart))%Z).
  { rewrite <- Z.pow_add_r, <- Nat2Z.inj_add, <- length_app by lia.
    apply digits_value_bound. rewrite forallb_app. now rewrite Hi, Hf. }
  assert (Hp : (10 ^ Z.of_nat (List.length intpart) <= 10 ^ 307)%Z)
    by (apply Z.pow_le_mono_r; lia).
  assert (Hc : (10 ^ 307 < 2 ^ 1023)%Z) by (vm_compute; reflexivity).
  assert (Hq : (0 < 10 ^ Z.of_nat (List.length fracpart))%Z)
    by (apply Z.pow_pos_nonneg; lia).
  remember (2 ^ 1023)%Z as big. remember (10 ^ 307)%Z as ten307.
  destruct (0 <=? 0 - Z.of_nat (List.length fracpart))%Z eqn:E.
  - apply Z.leb_le in E.
    assert (E0 : Z.of_nat (List.length fracpart) = 0%Z) by lia.
    rewrite E0 in *. change (0 - 0)%Z with 0%Z. change (10 ^ 0)%Z with 1%Z in *.
    apply binary64_of_ratio_finite; subst big; lia.
  - replace (- (0 - Z.of_nat (List.length fracpart)))%Z
      with (Z.of_nat (List.length fracpart)) by lia.
    apply binary64_of_ratio_finite; [lia | exact Hq | subst big; nia].
Qed.

(** A numeral of at most 307 characters, written with digits, dots and
    spaces, is read as a finite number. *)
Lemma strtod_plain_finite u v :
  forallb plain_char u = true -> (List.length u <= 307)%nat ->
  strtod u = Ok v -> is_finite v = true.
Proof.
  intros Hu Hlen Hv.
  destruct (strtod_plain_shape _ Hu Hv) as (intpart & fracpart & -> & Hi & Hf & Hl).
  apply decimal_to_float_finite; auto. lia.
Qed.

Lemma length_transform_le s :
  (List.length (transform_decimal_and_space s) <= List.length s)%nat.
Proof.
  induction s as [|c s IH]; cbn [transform_decimal_and_space List.length]; auto.
  destruct (c <? 127)%N; cbn [List.length]; [lia|].
  destruct (is_space c); cbn [List.length]; [lia|].
  destruct (todecimal c); cbn [List.length]; lia.
Qed.

(** [float] of a run of at most 307 digits and dots is finite when it
    succeeds. *)
Lemma float_num_class_finite s v :
  forallb num_class s = true -> (List.length s <= 307)%nat ->
  float s = Ok v -> is_finite v = true.
Proof.
  intros Hs Hlen. unfold float.
  set (t := rev (drop_while is_c_space
                   (rev (drop_while is_c_space (transform_decimal_and_space s))))).
  assert (Ht : forallb plain_char t = true).
  { unfold t. rewrite forallb_rev. apply forallb_drop_while.
    rewrite forallb_rev. apply forallb_drop_while. now apply transform_plain. }
  assert (Hl : (List.length t <= 307)%nat).
  { unfold t. rewrite length_rev.
    pose proof (length_drop_while_le is_c_space
                  (rev (drop_while is_c_space (transform_decimal_and_space s)))) as H1.
    rewrite length_rev in H1.
    pose proof (length_drop_while_le is_c_space (transform_decimal_and_space s)) as H2.
    pose proof (length_transform_le s). lia. }
  destruct (nonempty t); [|discriminate].
  rewrite (plain_no_underscore _ Ht). now apply strtod_plain_finite.
Qed.

(** ** The range check *)

Lemma unpack2_ok A (xs : list (res A)) a b :
  unpack2 xs = Ok (a, b) -> xs = [Ok a; Ok b].
Proof.
  destruct xs as [|[x|e] [|[y|e'] [|[z|e''] xs]]]; simpl; try discriminate.
  intros H. now injection H as -> ->.
Qed.

Lemma unpack2_raises A (xs : list (res A)) e :
  (forall e', In (Raise e') xs -> e' = ValueError) ->
  unpack2 xs = Raise e -> e = ValueError.
Proof.
  intros Hxs.
  destruct xs as [|[x|e1] [|[y|e2] [|[z|e3] xs]]]; simpl; try congruence.
  all: intros H; injection H as <-; apply Hxs; simpl; auto.
Qed.

Lemma range_check_raises v r e : range_check v r = Raise e -> e = ValueError.
Proof.
  unfold range_check.
  destruct (unpack2 _) as [[lo hi]|e'] eqn:E; simpl; [discriminate|].
  intros H. injection H as <-.
  apply unpack2_raises in E; auto.
  intros e'' Hin. apply in_map_iff in Hin as (p & Hp & _).
  now apply float_raises in Hp.
Qed.

Lemma range_check_ok v r b :
  range_check v r = Ok b ->
  exists low_s high_s low high,
    split 0x2D%N r = [low_s; high_s] /\
    float low_s = Ok low /\ float high_s = Ok high /\
    b = negb (fle low v && fle v high).
Proof.
  unfold range_check.
  destruct (unpack2 _) as [[lo hi]|e'] eqn:E; simpl; [|discriminate].
  intros H. injection H as <-.
  apply unpack2_ok in E.
  destruct (split 45%N r) as [|a [|b [|c l]]]; simpl in E; try discriminate.
  injection E as Ha Hb. exists a, b, lo, hi. auto.
Qed.

(** ** The loop body *)

Lemma range_flag v r :
  (if nonempty r
   then try_except_ValueError (range_check v r) (Ok false)
   else Ok false) = Ok (out_of_range_flag v r).
Proof.
  unfold out_of_range_flag. destruct (nonempty r); auto.
  destruct (range_check v r) as [b|e] eqn:E; simpl; auto.
  apply range_check_raises in E. now subst e.
Qed.

(** One line leaves the results as they are or appends one record. *)
Lemma parse_line_cases results line :
  parse_line results line = Ok results \/
  exists d, emits line d /\ parse_line results line = Ok (results ++ [d]).
Proof.
  unfold parse_line, emits.
  destruct (nonempty (strip line)) eqn:Hline; simpl; auto.
  destruct (re_match pattern (strip line)) as [m|] eqn:Hm; auto.
  destruct (nonempty (if_truthy (fun s => upper (strip s)) (group m 1))) eqn:Hname;
    simpl; auto.
  destruct (nonempty (if_truthy strip (group m 2))) eqn:Hvalue; simpl; auto.
  destruct (float (if_truthy strip (group m 2))) as [v|e] eqn:Hfloat; simpl.
  - right. rewrite range_flag. simpl. eexists. split; [|reflexivity].
    exists m, v. repeat split; auto.
  - left. apply float_raises in Hfloat. now subst e.
Qed.

Lemma parse_line_total results line : exists results', parse_line results line = Ok results'.
Proof.
  destruct (parse_line_cases results line) as [H|(d & _ & H)]; rewrite H; eauto.
Qed.

Lemma parse_line_blank results line :
  nonempty (strip line) = false -> parse_line results line = Ok results.
Proof. unfold parse_line. now intros ->. Qed.

Lemma parse_line_no_match results line :
  re_match pattern (strip line) = None -> parse_line results line = Ok results.
Proof. unfold parse_line. intros ->. now destruct (negb _). Qed.

Lemma has_value_token_here pre c c' post :
  sep_class c = true -> num_class c' = true ->
  has_value_token (pre ++ c :: c' :: post) = true.
Proof.
  intros Hc Hc'. induction pre as [|x pre IH].
  - cbn [app has_value_token]. now rewrite Hc, Hc'.
  - cbn [app has_value_token]. cbn [app has_value_token] in IH. rewrite IH.
    destruct (pre ++ c :: c' :: post); [discriminate IH|]. apply orb_true_r.
Qed.

(** A line without any digit or dot has no value token. *)
Lemma no_digit_no_value_token s :
  forallb (fun c => negb (num_class c)) s = true -> has_value_token s = false.
Proof.
  induction s as [|c s IH]; auto.
  cbn [forallb]. intros H. apply andb_prop in H as [_ H].
  cbn [has_value_token]. destruct s as [|c' s']; auto.
  rewrite (IH H). cbn [forallb] in H. apply andb_prop in H as [H _].
  apply negb_true_iff in H. rewrite H. now rewrite andb_false_r.
Qed.

(** A line without a value token does not match the pattern. *)
Lemma no_value_token_no_match s :
  has_value_token s = false -> re_match pattern s = None.
Proof.
  intros Hs. destruct (re_match pattern s) as [m|] eqn:Hm; auto. exfalso.
  apply re_match_sound in Hm as (s1 & s2 & -> & M).
  apply pattern_matches_inv in M
    as (name & sep & value & rest & -> & _ & _ & Hsep & Hsepc & Hval & Hvalc & _).
  destruct value as [|c' value]; [congruence|].
  destruct (exists_last Hsep) as (sep' & c & ->).
  rewrite forallb_app in Hsepc. apply andb_prop in Hsepc as [_ Hc].
  cbn [forallb] in Hc, Hvalc. apply andb_prop in Hc as [Hc _].
  apply andb_prop in Hvalc as [Hc' _].
  rewrite <- !app_assoc in Hs. cbn [app] in Hs.
  rewrite (app_assoc name), has_value_token_here in Hs by assumption.
  discriminate.
Qed.

(** ** The loop *)

Lemma for_each_parse_line lines : forall acc,
  exists rs,
    for_each parse_line lines acc = Ok (acc ++ rs) /\
    forall d, In d rs -> exists line, In line lines /\ emits line d.
Proof.
  induction lines as [|line lines IH]; intros acc; cbn [for_each].
  - exists []. rewrite app_nil_r. split; auto. intros d [].
  - destruct (parse_line_cases acc line) as [H|(d & Hd & H)]; rewrite H; cbn [bind].
    + destruct (IH acc) as (rs & Hrs & Hin). exists rs. split; auto.
      intros d Hd. destruct (Hin d Hd) as (l & Hl & He). exists l. simpl. auto.
    + destruct (IH (acc ++ [d])) as (rs & Hrs & Hin). exists (d :: rs).
      rewrite Hrs, <- app_assoc. split; auto.
      intros d' [<-|Hd']; [exists line; simpl; auto|].
      destruct (Hin d' Hd') as (l & Hl & He). exists l. simpl. auto.
Qed.

Lemma parse_lab_tests_total text : exists rs, parse_lab_tests text = Ok rs.
Proof.
  unfold parse_lab_tests.
  destruct (for_each_parse_line (splitlines text) []) as (rs & H & _). eauto.
Qed.

(** Every record of the result was appended for one of the lines. *)
Lemma parse_lab_tests_records text rs d :
  parse_lab_tests text = Ok rs -> In d rs ->
  exists line, In line (splitlines text) /\ emits line d.
Proof.
  unfold parse_lab_tests.
  destruct (for_each_parse_line (splitlines text) []) as (rs' & H & Hin).
  rewrite H. simpl. intros E. injection E as <-. auto.
Qed.

(** ** What an emitted record looks like *)

Lemma if_truthy_nonempty f x :
  nonempty (if_truthy f x) = true -> exists s, x = Some s /\ s <> [] /\ if_truthy f x = f s.
Proof.
  destruct x as [[|c s]|]; simpl; try discriminate.
  intros _. exists (c :: s). repeat split. discriminate.
Qed.

Lemma emits_inv line d :
  emits line d ->
  exists g1 g2 unit range v,
    d = make_record (upper (strip g1)) (strip g2) range unit (out_of_range_flag v range) /\
    upper (strip g1) <> [] /\ strip g2 <> [] /\
    g2 <> [] /\ forallb num_class g2 = true /\
    float (strip g2) = Ok v /\
    (range = [] \/ exists r, range = strip r /\ range_shape r).
Proof.
  intros (m & v & Hline & Hm & Hname & Hvalue & Hfloat & ->).
  apply re_match_sound in Hm as (s1 & s2 & _ & M).
  apply pattern_matches_inv in M
    as (name & sep & value & rest & _ & G1 & G2 & _ & _ & Hval & Hvalc & _ & G4).
  destruct (if_truthy_nonempty _ _ Hname) as (g1 & E1 & _ & N1).
  destruct (if_truthy_nonempty _ _ Hvalue) as (g2 & E2 & _ & N2).
  rewrite N1, N2 in *. rewrite G1 in E1. rewrite G2 in E2.
  injection E1 as <-. injection E2 as <-.
  exists name, value, (if_truthy strip (group m 3)), (if_truthy strip (group m 4)), v.
  repeat split; auto; try (now apply nonempty_true).
  destruct G4 as [->|(r & -> & Hr)]; [now left|right].
  exists r. split; auto.
  destruct Hr as (a & b & -> & Ha & _). destruct a; [congruence|reflexivity].
Qed.

Lemma split_from_parts sep p s : forall cur,
  p sep = false ->
  forallb (fun c => p c || (c =? sep)%N) s = true ->
  forallb p cur = true ->
  forall part, In part (split_from sep cur s) -> forallb p part = true.
Proof.
  intros cur Hsep. revert cur.
  induction s as [|c s IH]; cbn [split_from forallb]; intros cur Hs Hcur part.
  - intros [<-|[]]. now rewrite forallb_rev.
  - apply andb_prop in Hs as [Hc Hs].
    destruct (c =? sep)%N eqn:E.
    + intros [<-|Hin]; [now rewrite forallb_rev|]. now apply (IH [] Hs eq_refl).
    + rewrite orb_false_r in Hc. apply IH; auto. cbn [forallb]. now rewrite Hc.
Qed.

Lemma num_class_hyphen : num_class 0x2D%N = false.
Proof. reflexivity. Qed.

(** The halves of a cleaned range are runs of digits and dots. *)
Lemma range_halves r part :
  range_shape r -> In part (split 0x2D%N (strip r)) -> forallb num_class part = true.
Proof.
  intros (a & b & -> & _ & _ & Ha & Hb). unfold split.
  apply split_from_parts; auto using num_class_hyphen.
  apply forallb_strip. rewrite forallb_app. cbn [forallb].
  rewrite N.eqb_refl, orb_true_r. cbn [andb].
  apply andb_true_iff; split.
  - clear -Ha. induction a as [|c a IH]; cbn [forallb] in *; auto.
    apply andb_prop in Ha as [-> Ha]. now rewrite IH.
  - clear -Hb. induction b as [|c b IH]; cbn [forallb] in *; auto.
    apply andb_prop in Hb as [-> Hb]. now rewrite IH.
Qed.

Lemma for_each_app A S (body : S -> A -> res S) xs ys : forall acc,
  for_each body (xs ++ ys) acc = (acc' <- for_each body xs acc ;; for_each body ys acc').
Proof.
  induction xs as [|x xs IH]; intros acc; cbn [app for_each bind]; auto.
  destruct (body acc x); cbn [bind]; auto.
Qed.

Lemma format_entry_record name value range unit flag :
  format_entry (make_record name value range unit flag)
  = Ok (make_record name value range unit flag).
Proof. reflexivity. Qed.

Lemma format_output_from parsed : forall acc,
  (forall d, In d parsed -> format_entry d = Ok d) ->
  for_each (fun formatted_data entry =>
              d <- format_entry entry ;; Ok (formatted_data ++ [d])) parsed acc
  = Ok (acc ++ parsed).
Proof.
  induction parsed as [|d parsed IH]; intros acc H; cbn [for_each].
  - now rewrite app_nil_r.
  - rewrite (H d) by (simpl; auto). cbn [bind].
    rewrite IH by (intros; apply H; simpl; auto).
    now rewrite <- app_assoc.
Qed.

(** ** Properties of the line parser *)

(** C1: for a record whose reference range is non-empty and whose two
    hyphen-separated halves parse as numbers [low] and [high], the value
    parses too and [lab_test_out_of_range] is true exactly when the value is
    strictly below [low] or strictly above [high]; in a range with
    [low <= high] a value equal to either bound is in range, whereas in a
    range with [low > high] every value is flagged, a value equal to a bound
    included. *)
Theorem C1_flag_iff_outside_range text rs d value range low_s high_s low high :
  parse_lab_tests text = Ok rs -> In d rs ->
  getitem d "test_value" = Ok (VStr value) ->
  getitem d "bio_reference_range" = Ok (VStr range) ->
  range <> [] ->
  split 0x2D%N range = [low_s; high_s] ->
  float low_s = Ok low -> float high_s = Ok high ->
  exists v,
    float value = Ok v /\
    getitem d "lab_test_out_of_range" = Ok (VBool (flt v low || fgt v high)) /\
    (fle low high = true ->
     fcompare v low = Some Eq \/ fcompare v high = Some Eq ->
     getitem d "lab_test_out_of_range" = Ok (VBool false)) /\
    (fgt low high = true ->
     getitem d "lab_test_out_of_range" = Ok (VBool true)).
Proof.
  intros Hrs Hd Hvalue Hrange Hne Hsplit Hlow Hhigh.
  destruct (@parse_lab_tests_records _ _ _ Hrs Hd) as (line & _ & He).
  apply emits_inv in He
    as (g1 & g2 & unit & range' & v & -> & _ & _ & _ & Hg2 & Hfloat & Hshape).
  cbn in Hvalue, Hrange. injection Hvalue as <-. injection Hrange as <-.
  destruct Hshape as [->|(r & -> & Hr)]; [congruence|].
  assert (Hv : v <> FNan).
  { apply is_nonneg_number_not_nan. eapply float_num_class; [|exact Hfloat].
    now apply forallb_strip. }
  assert (Hlo : low <> FNan).
  { apply is_nonneg_number_not_nan. eapply float_num_class; [|exact Hlow].
    eapply range_halves; [exact Hr|]. rewrite Hsplit. simpl. auto. }
  assert (Hhi : high <> FNan).
  { apply is_nonneg_number_not_nan. eapply float_num_class; [|exact Hhigh].
    eapply range_halves; [exact Hr|]. rewrite Hsplit. simpl. auto. }
  assert (Hflag : out_of_range_flag v (strip r) = negb (fle low v && fle v high)).
  { unfold out_of_range_flag, range_check.
    apply nonempty_true in Hne. rewrite Hne, Hsplit.
    cbn [map unpack2]. rewrite Hlow, Hhigh. reflexivity. }
  exists v. split; [exact Hfloat|]. cbn. rewrite Hflag. repeat split.
  - now rewrite outside_interval.
  - intros Hle Heq. now rewrite on_bound_inside.
  - intros Hrev. now rewrite reversed_outside.
Qed.

(** C2: a record whose reference range is empty, or has a part that [float]
    rejects, has [lab_test_out_of_range] false; and parsing returns normally
    whatever the ranges are. *)
Theorem C2_unusable_range_in_range text :
  (exists rs, parse_lab_tests text = Ok rs) /\
  (forall rs d range,
     parse_lab_tests text = Ok rs -> In d rs ->
     getitem d "bio_reference_range" = Ok (VStr range) ->
     range = [] \/ (exists part e, In part (split 0x2D%N range) /\ float part = Raise e) ->
     getitem d "lab_test_out_of_range" = Ok (VBool false)).
Proof.
  split; [apply parse_lab_tests_total|].
  intros rs d range Hrs Hd Hrange Hbad.
  destruct (@parse_lab_tests_records _ _ _ Hrs Hd) as (line & _ & He).
  apply emits_inv in He as (g1 & g2 & unit & range' & v & -> & _).
  cbn in Hrange. injection Hrange as ->. cbn.
  do 2 f_equal. unfold out_of_range_flag.
  destruct Hbad as [->|(part & e & Hin & Hpart)]; [reflexivity|].
  destruct (nonempty range); auto.
  destruct (range_check v range) as [b|] eqn:E; auto.
  apply range_check_ok in E as (low_s & high_s & low & high & Hsplit & Hl & Hh & _).
  rewrite Hsplit in Hin. destruct Hin as [<-|[<-|[]]]; congruence.
Qed.

(** C3: [parse_lab_tests] returns normally on every text; a line that is
    blank, that does not match the grammar, or that has no value token (no
    separator followed by a digit or dot; in particular no digit or dot at
    all) adds no record, wherever it stands among the lines. *)
Theorem C3_total_and_skips :
  (forall text, exists rs, parse_lab_tests text = Ok rs) /\
  (forall line,
     nonempty (strip line) = false \/
     re_match pattern (strip line) = None \/
     has_value_token (strip line) = false \/
     forallb (fun c => negb (num_class c)) (strip line) = true ->
     forall before after results,
       for_each parse_line (before ++ line :: after) results
       = for_each parse_line (before ++ after) results).
Proof.
  split; [apply parse_lab_tests_total|].
  intros line Hline before after results.
  rewrite !for_each_app.
  destruct (for_each parse_line before results) as [acc|e]; cbn [bind for_each]; auto.
  assert (H : parse_line acc line = Ok acc).
  { destruct Hline as [H|[H|[H|H]]].
    - now apply parse_line_blank.
    - now apply parse_line_no_match.
    - now apply parse_line_no_match, no_value_token_no_match.
    - now apply parse_line_no_match, no_value_token_no_match,
                no_digit_no_value_token. }
  now rewrite H.
Qed.

(** C9: on the output of [parse_lab_tests], [format_output] returns normally
    and returns the same records, in the same order, with the same fields. *)
Theorem C9_format_output_identity text :
  exists rs, parse_lab_tests text = Ok rs /\ format_output rs = Ok rs.
Proof.
  destruct (parse_lab_tests_total text) as [rs Hrs].
  exists rs. split; auto.
  unfold format_output. rewrite format_output_from; auto.
  intros d Hd.
  destruct (@parse_lab_tests_records _ _ _ Hrs Hd) as (line & _ & He).
  apply emits_inv in He as (g1 & g2 & unit & range & v & -> & _).
  apply format_entry_record.
Qed.

(** ** Upper-casing and trimming *)

Lemma toupper_nonempty c : toupper c <> [].
Proof.
  unfold toupper. destruct (c <? 128)%N eqn:E; [discriminate|].
  apply uni_toupper_nonempty. now apply N.ltb_ge.
Qed.

Lemma toupper_not_space c x :
  is_space c = false -> In x (toupper c) -> is_space x = false.
Proof.
  unfold toupper. intros Hc. destruct (c <? 128)%N eqn:E.
  - intros [<-|[]]. destruct (in_range 97 122 c) eqn:R; auto.
    clear Hc. N_cases.
  - apply uni_toupper_not_space; auto. now apply N.ltb_ge.
Qed.

Lemma toupper_fixed c x : In x (toupper c) -> toupper x = [x].
Proof.
  unfold toupper at 1. destruct (c <? 128)%N eqn:E.
  - intros [<-|[]]. unfold toupper. destruct (in_range 97 122 c) eqn:R.
    + replace (c - 32 <? 128)%N with true by (symmetry; N_cases).
      replace (in_range 97 122 (c - 32)) with false by (symmetry; N_cases).
      reflexivity.
    + now rewrite E, R.
  - apply uni_toupper_fixed. now apply N.ltb_ge.
Qed.

Lemma upper_fixed l : (forall x, In x l -> toupper x = [x]) -> upper l = l.
Proof.
  induction l as [|x l IH]; intros H; cbn [upper flat_map]; auto.
  rewrite (H x) by (simpl; auto). cbn [app]. f_equal.
  apply IH. intros y Hy. apply H. simpl. auto.
Qed.

(** Upper-casing an upper-cased string changes nothing. *)
Lemma upper_idempotent s : upper (upper s) = upper s.
Proof.
  induction s as [|c s IH]; auto.
  cbn [upper flat_map]. unfold upper in *. rewrite flat_map_app, IH. f_equal.
  apply (upper_fixed (toupper c)). intros x. apply toupper_fixed.
Qed.

Lemma strip_idempotent s : strip (strip s) = strip s.
Proof. apply strip_fixed; [apply strip_first | apply strip_last]. Qed.

(** Upper-casing a trimmed string leaves it trimmed. *)
Lemma strip_upper_strip g : strip (upper (strip g)) = upper (strip g).
Proof.
  apply strip_fixed.
  - intros c s' H. destruct (strip g) as [|y ys] eqn:Eg; [discriminate|].
    cbn [upper flat_map] in H.
    destruct (toupper y) as [|t ts] eqn:Et; [now apply toupper_nonempty in Et|].
    cbn [app] in H. injection H as <- _.
    apply (toupper_not_space y); [eapply strip_first; eauto | rewrite Et; simpl; auto].
  - intros c s' H. destruct (rev (strip g)) as [|y ys] eqn:Eg.
    + apply (f_equal (@rev _)) in Eg. rewrite rev_involutive in Eg.
      rewrite Eg in H. discriminate.
    + pose proof (strip_last _ Eg) as Hy.
      apply (f_equal (@rev _)) in Eg. rewrite rev_involutive in Eg. cbn [rev] in Eg.
      rewrite Eg in H. unfold upper in H. rewrite flat_map_app in H.
      cbn [flat_map] in H. rewrite app_nil_r, rev_app_distr in H.
      destruct (rev (toupper y)) as [|t ts] eqn:Et.
      * apply (f_equal (@rev _)) in Et. rewrite rev_involutive in Et.
        now apply toupper_nonempty in Et.
      * cbn [app] in H. injection H as <- _.
        apply (toupper_not_space y); auto.
        apply in_rev. rewrite Et. simpl. auto.
Qed.

Lemma num_class_not_space c : num_class c = true -> is_space c = false.
Proof.
  unfold num_class, is_decimal, todecimal. intros H.
  apply orb_true_iff in H as [H|H].
  - destruct (c <? 128)%N.
    + destruct (is_ascii_digit c) eqn:D; [|discriminate]. clear H. N_cases.
    + destruct (uni_todecimal c) as [d|] eqn:T; [|discriminate].
      eapply uni_todecimal_not_space; eauto.
  - apply N.eqb_eq in H. now subst c.
Qed.

(** A non-empty run of digits and dots is not changed by trimming. *)
Lemma strip_num_class s : forallb num_class s = true -> strip s = s.
Proof.
  intros H. apply strip_fixed.
  - intros c s' ->. cbn [forallb] in H. apply andb_prop in H as [H _].
    now apply num_class_not_space.
  - intros c s' E. rewrite <- forallb_rev, E in H. cbn [forallb] in H.
    apply andb_prop in H as [H _]. now apply num_class_not_space.
Qed.

Lemma strip_range_shape r : range_shape r -> strip r = r.
Proof.
  intros (a & b & -> & Ha & Hb & Hac & Hbc). apply strip_fixed.
  - intros c s' E. destruct a as [|x a]; [congruence|].
    cbn [app] in E. injection E as <- _. cbn [forallb] in Hac.
    apply andb_prop in Hac as [H _]. now apply num_class_not_space.
  - intros c s' E. rewrite rev_app_distr in E. cbn [rev] in E.
    destruct (rev b) as [|x rb] eqn:Eb.
    + apply (f_equal (@rev _)) in Eb. rewrite rev_involutive in Eb. now subst b.
    + rewrite <- forallb_rev in Hbc. unfold char in Hbc. rewrite Eb in Hbc.
      cbn [forallb] in Hbc.
      apply andb_prop in Hbc as [H _].
      rewrite <- app_assoc in E. cbn [app] in E. injection E as <- _.
      now apply num_class_not_space.
Qed.

Lemma forallb_In (p : char -> bool) s c : forallb p s = true -> In c s -> p c = true.
Proof. intros H. rewrite forallb_forall in H. apply H. Qed.

(** C4: in every record [test_name] is non-empty, trimmed and upper-cased,
    and [test_value] is non-empty (and trimmed); a line whose captured name or
    value is empty once trimmed adds no record. *)
Theorem C4_name_and_value_wellformed :
  (forall text rs d,
     parse_lab_tests text = Ok rs -> In d rs ->
     exists name value,
       getitem d "test_name" = Ok (VStr name) /\
       getitem d "test_value" = Ok (VStr value) /\
       name <> [] /\ strip name = name /\ upper name = name /\
       value <> [] /\ strip value = value) /\
  (forall line m,
     re_match pattern (strip line) = Some m ->
     if_truthy strip (group m 1) = [] \/ if_truthy strip (group m 2) = [] ->
     forall results, parse_line results line = Ok results).
Proof.
  split.
  - intros text rs d Hrs Hd.
    destruct (@parse_lab_tests_records _ _ _ Hrs Hd) as (line & _ & He).
    apply emits_inv in He as (g1 & g2 & unit & range & v & -> & Hn & Hv & _).
    exists (upper (strip g1)), (strip g2). cbn.
    repeat split; auto.
    + apply strip_upper_strip.
    + apply upper_idempotent.
    + apply strip_idempotent.
  - intros line m Hm Hempty results. unfold parse_line. rewrite Hm.
    destruct (negb (nonempty (strip line))); auto.
    destruct Hempty as [H|H].
    + assert (E : if_truthy (fun s => upper (strip s)) (group m 1) = []).
      { destruct (group m 1) as [[|c g]|]; auto. cbn in *. now rewrite H. }
      now rewrite E.
    + rewrite H. cbn [nonempty negb]. now rewrite orb_true_r.
Qed.

(** C7 (as the code has it): a record is emitted only when [float] accepts
    the value token; the number it denotes is then neither NaN nor negative,
    and it is finite whenever the token has at most 307 characters (a longer
    token can exceed the binary64 range and is then read as an infinity); a
    line whose value token [float] rejects adds no record. *)
Theorem C7_record_only_if_value_parses :
  (forall text rs d value,
     parse_lab_tests text = Ok rs -> In d rs ->
     getitem d "test_value" = Ok (VStr value) ->
     exists v,
       float value = Ok v /\ is_nonneg_number v = true /\
       ((List.length value <= 307)%nat -> is_finite v = true)) /\
  (forall line m e,
     re_match pattern (strip line) = Some m ->
     float (if_truthy strip (group m 2)) = Raise e ->
     forall results, parse_line results line = Ok results).
Proof.
  split.
  - intros text rs d value Hrs Hd Hvalue.
    destruct (@parse_lab_tests_records _ _ _ Hrs Hd) as (line & _ & He).
    apply emits_inv in He as (g1 & g2 & unit & range & v & -> & _ & _ & _ & Hc & Hf & _).
    cbn in Hvalue. injection Hvalue as <-.
    pose proof (forallb_strip _ _ Hc) as Hc'.
    exists v. repeat split; auto.
    + eapply float_num_class; eauto.
    + intros Hlen. eapply float_num_class_finite; eauto.
  - intros line m e Hm Hf results. unfold parse_line. rewrite Hm.
    destruct (negb (nonempty (strip line))); auto.
    destruct (_ || _); auto.
    rewrite Hf. cbn [bind try_except_ValueError].
    apply float_raises in Hf. now subst e.
Qed.

(** C8: the line [HEMOGLOBIN 9.5 g/dL (13.0-17.0)] yields exactly one
    record, with the five expected fields and the flag set. *)
Theorem C8_hemoglobin_scenario :
  parse_lab_tests hemoglobin_line = Ok [hemoglobin_record].
Proof. vm_compute. reflexivity. Qed.

(** C10: in every record [test_value] consists of digits and dots only (no
    sign, no exponent letter, no whitespace), and [bio_reference_range] is
    empty or made of two non-empty runs of digits and dots around its only
    hyphen. *)
Theorem C10_value_and_range_charset text rs d :
  parse_lab_tests text = Ok rs -> In d rs ->
  exists value range,
    getitem d "test_value" = Ok (VStr value) /\
    getitem d "bio_reference_range" = Ok (VStr range) /\
    (forall c, In c value ->
       num_class c = true /\ is_space c = false /\
       c <> 0x2B%N /\ c <> 0x2D%N /\ c <> 0x65%N /\ c <> 0x45%N) /\
    (range = [] \/
     exists a b,
       range = a ++ [0x2D%N] ++ b /\ a <> [] /\ b <> [] /\
       forallb num_class a = true /\ forallb num_class b = true /\
       ~ In 0x2D%N a /\ ~ In 0x2D%N b).
Proof.
  intros Hrs Hd.
  destruct (@parse_lab_tests_records _ _ _ Hrs Hd) as (line & _ & He).
  apply emits_inv in He
    as (g1 & g2 & unit & range & v & -> & _ & _ & _ & Hg2 & _ & Hshape).
  exists (strip g2), range. cbn. repeat split; auto.
  all: try (rewrite (strip_num_class _ Hg2) in *;
            pose proof (forallb_In _ _ _ Hg2 H) as Hc).
  - exact Hc.
  - now apply num_class_not_space.
  - intros ->. discriminate.
  - intros ->. discriminate.
  - intros ->. discriminate.
  - intros ->. discriminate.
  - destruct Hshape as [->|(r & -> & Hr)]; [now left|right].
    rewrite (strip_range_shape Hr).
    destruct Hr as (a & b & -> & Ha & Hb & Hac & Hbc).
    exists a, b. repeat split; auto.
    + intros Hin. pose proof num_class_hyphen as Hh.
      rewrite (forallb_In _ _ _ Hac Hin) in Hh. discriminate.
    + intros Hin. pose proof num_class_hyphen as Hh.
      rewrite (forallb_In _ _ _ Hbc Hin) in Hh. discriminate.
Qed.

(** ** The OCR boundary and the request handler *)

(** C6: [extract_text_from_image] returns a string whatever the backend
    does; on any internal failure that string is empty, and otherwise it is
    the text Tesseract returned. *)
Theorem C6_extract_text_never_raises (backend : ocr_backend) (image_path : str) :
  (exists text, extract_text_from_image backend image_path = Ok text) /\
  (internal_failure backend image_path ->
   extract_text_from_image backend image_path = Ok []) /\
  (forall img gray binary denoised text,
     imread backend image_path = Ok (Some img) ->
     cvtColor backend img = Ok gray ->
     threshold backend gray = Ok binary ->
     medianBlur backend binary = Ok denoised ->
     image_to_string backend denoised = Ok text ->
     extract_text_from_image backend image_path = Ok text).
Proof.
  unfold extract_text_from_image, try_except_Exception. repeat split.
  - destruct (_ <- _ ;; _); eauto.
  - intros [(e & H)|[H|(img & H & F)]]; rewrite H; cbn [bind]; auto.
    destruct F as [(e & Hg)|(gray & Hg & F)]; rewrite Hg; cbn [bind]; auto.
    destruct F as [(e & Hb)|(binary & Hb & F)]; rewrite Hb; cbn [bind]; auto.
    destruct F as [(e & Hm)|(denoised & Hm & e & Ht)]; rewrite Hm; cbn [bind]; auto.
    now rewrite Ht.
  - intros img gray binary denoised text H1 H2 H3 H4 H5.
    rewrite H1. cbn [bind]. rewrite H2. cbn [bind]. rewrite H3. cbn [bind].
    rewrite H4. cbn [bind]. now rewrite H5.
Qed.

Lemma has_path_removed path fs :
  has_path (filter (fun p => negb (str_eqb path p)) fs) path = false.
Proof.
  unfold has_path. induction fs as [|p fs IH]; cbn [filter existsb]; auto.
  destruct (str_eqb path p) eqn:E; cbn [negb]; auto.
  cbn [existsb]. now rewrite E, IH.
Qed.

(** On the success path the temporary file is gone when the handler returns. *)
Lemma get_lab_tests_success_removes h filename fs data fs' :
  get_lab_tests h filename fs = (Ok (Success data), fs') ->
  has_path fs' (upload_path h filename) = false.
Proof.
  unfold get_lab_tests, io_try, io_bind, io_ret, lift, open_wb, os_remove.
  destruct (open_result h _); [|discriminate].
  destruct (copy_result h); [|discriminate].
  destruct (extract_text_from_image _ _); [|discriminate].
  destruct (parse_lab_tests _); [|discriminate].
  destruct (format_output _); [|discriminate].
  destruct (has_path _ _); [|discriminate].
  destruct (remove_result h _); [|discriminate].
  intros H. injection H as _ <-. apply has_path_removed.
Qed.

Lemma str_eqb_refl a : str_eqb a a = true.
Proof. unfold str_eqb. destruct (list_eq_dec N.eq_dec a a); congruence. Qed.

Lemma has_path_created path fs :
  has_path (if has_path fs path then fs else path :: fs) path = true.
Proof.
  destruct (has_path fs path) eqn:E; auto.
  unfold has_path. cbn [existsb]. now rewrite str_eqb_refl.
Qed.

(** The handler always returns a response. *)
Lemma get_lab_tests_returns h filename fs :
  exists r fs', get_lab_tests h filename fs = (Ok r, fs').
Proof.
  unfold get_lab_tests, io_try, io_bind, io_ret, lift, open_wb, os_remove.
  destruct (open_result h _); eauto.
  destruct (copy_result h); eauto.
  destruct (extract_text_from_image _ _); eauto.
  destruct (parse_lab_tests _); eauto.
  destruct (format_output _); eauto.
  destruct (has_path _ _); eauto.
  destruct (remove_result h _); eauto.
Qed.

(** Once the file has been created, every failure response leaves it in the
    upload directory. *)
Lemma get_lab_tests_failure_keeps_file h filename fs code e fs' u :
  open_result h (upload_path h filename) = Ok u ->
  get_lab_tests h filename fs = (Ok (Failure code e), fs') ->
  has_path fs' (upload_path h filename) = true.
Proof.
  unfold get_lab_tests, io_try, io_bind, io_ret, lift, open_wb, os_remove.
  intros ->.
  destruct (copy_result h);
    [|intros H; injection H as _ _ <-; apply has_path_created].
  destruct (extract_text_from_image _ _);
    [|intros H; injection H as _ _ <-; apply has_path_created].
  destruct (parse_lab_tests _);
    [|intros H; injection H as _ _ <-; apply has_path_created].
  destruct (format_output _);
    [|intros H; injection H as _ _ <-; apply has_path_created].
  rewrite has_path_created.
  destruct (remove_result h _); [discriminate|].
  intros H; injection H as _ _ <-; apply has_path_created.
Qed.

(** C5 (what the code does when copying the upload fails): the handler
    answers with the failure response and the temporary file it created is
    still in the upload directory. *)
Theorem C5_temp_file_left_on_failure :
  get_lab_tests copy_fails (Some (py "scan.png")) []
  = (Ok (Failure 500 OSError),
     [py "temp_uploads/1b4e28ba-2fa1-41d2-883f-0016d3cca427.png"]).
Proof. vm_compute. reflexivity. Qed.


(** ** More on the formatter *)

Lemma getitem_raises d key e : getitem d key = Raise e -> e = KeyError key.
Proof.
  induction d as [|[k v] d IH]; cbn [getitem].
  - intros H. now injection H as <-.
  - destruct (String.eqb k key); [discriminate|exact IH].
Qed.

(** An entry that is formatted has the five fields, and the result holds
    exactly these, in the order of the schema. *)
Lemma format_entry_ok entry d' :
  format_entry entry = Ok d' ->
  map fst d' = required_keys /\
  (forall k, In k required_keys -> getitem d' k = getitem entry k) /\
  format_entry d' = Ok d'.
Proof.
  unfold format_entry.
  destruct (getitem entry "test_name") as [v1|] eqn:E1; [|discriminate].
  destruct (getitem entry "test_value") as [v2|] eqn:E2; [|discriminate].
  destruct (getitem entry "bio_reference_range") as [v3|] eqn:E3; [|discriminate].
  destruct (getitem entry "test_unit") as [v4|] eqn:E4; [|discriminate].
  destruct (getitem entry "lab_test_out_of_range") as [v5|] eqn:E5; [|discriminate].
  cbn [bind]. intros H. injection H as <-. repeat split.
  intros k [<-|[<-|[<-|[<-|[<-|[]]]]]]; cbn; congruence.
Qed.

Lemma format_output_from_inv parsed : forall acc formatted,
  for_each (fun formatted_data entry =>
              d <- format_entry entry ;; Ok (formatted_data ++ [d])) parsed acc
  = Ok formatted ->
  exists out, formatted = acc ++ out /\
              Forall2 (fun entry d => format_entry entry = Ok d) parsed out.
Proof.
  induction parsed as [|entry parsed IH]; intros acc formatted; cbn [for_each].
  - intros H. injection H as <-. exists []. now rewrite app_nil_r.
  - destruct (format_entry entry) as [d|] eqn:E; [|discriminate]. cbn [bind].
    intros H. apply IH in H as (out & -> & F).
    exists (d :: out). rewrite <- app_assoc. split; auto.
Qed.

Lemma format_output_from_total before :
  (forall d, In d before -> exists d', format_entry d = Ok d') ->
  forall acc, exists out,
    for_each (fun formatted_data entry =>
                d <- format_entry entry ;; Ok (formatted_data ++ [d])) before acc
    = Ok out.
Proof.
  induction before as [|d before IH]; intros H acc; cbn [for_each]; eauto.
  destruct (H d) as [d' ->]; [simpl; auto|]. cbn [bind].
  apply IH. intros x Hx. apply H. simpl. auto.
Qed.

(** X1: [format_output] keeps the number and the order of the entries;
    every formatted entry holds exactly the five schema fields, in schema
    order, with the values of the entry it comes from (any other field is
    dropped); and formatting its own output changes nothing. *)
Theorem X1_format_output_projects parsed formatted :
  format_output parsed = Ok formatted ->
  List.length formatted = List.length parsed /\
  (forall i entry d,
     nth_error parsed i = Some entry -> nth_error formatted i = Some d ->
     map fst d = required_keys /\
     forall k, In k required_keys -> getitem d k = getitem entry k) /\
  format_output formatted = Ok formatted.
Proof.
  unfold format_output. intros H.
  apply format_output_from_inv in H as (out & -> & F). cbn [app].
  repeat split.
  - symmetry. eapply Forall2_length; eauto.
  - revert i H H0. induction F as [|e0 d0 l l' E F IH]; intros [|i]; cbn; try discriminate.
    + intros H1 H2. injection H1 as <-. injection H2 as <-.
      now apply format_entry_ok in E.
    + apply IH.
  - revert i H H0. induction F as [|e0 d0 l l' E F IH]; intros [|i]; cbn; try discriminate.
    + intros H1 H2. injection H1 as <-. injection H2 as <-.
      apply format_entry_ok in E as (_ & E & _). auto.
    + apply IH.
  - apply format_output_from. intros d Hd.
    clear -F Hd. induction F as [|e0 d0 l l' E F IH]; [destruct Hd|].
    destruct Hd as [<-|Hd]; auto. now apply format_entry_ok in E.
Qed.

(** X2: [format_output] does not invent a default for a missing field: at
    the first entry that lacks one of the five fields it raises [KeyError] for
    the first field, in schema order, that this entry lacks, whatever
    follows. *)
Theorem X2_format_output_missing_field before entry after key :
  (forall d, In d before -> exists d', format_entry d = Ok d') ->
  In key required_keys -> getitem entry key = Raise (KeyError key) ->
  exists earlier missing later,
    required_keys = earlier ++ missing :: later /\
    (forall k, In k earlier -> exists v, getitem entry k = Ok v) /\
    getitem entry missing = Raise (KeyError missing) /\
    format_output (before ++ entry :: after) = Raise (KeyError missing).
Proof.
  intros Hbefore Hkey Hmiss. unfold format_output. rewrite for_each_app.
  destruct (format_output_from_total before Hbefore []) as [acc Hacc].
  fold dict in Hacc. rewrite Hacc. clear Hacc.
  cbn [bind for_each]. unfold format_entry.
  destruct (getitem entry "test_name") as [v1|e1] eqn:E1.
  2:{ apply getitem_raises in E1 as E. subst e1.
      exists [], "test_name"%string, (tl required_keys).
      repeat split; auto. intros k []. }
  destruct (getitem entry "test_value") as [v2|e2] eqn:E2.
  2:{ apply getitem_raises in E2 as E. subst e2.
      exists (firstn 1 required_keys), "test_value"%string, (skipn 2 required_keys).
      repeat split; auto. intros k [<-|[]]; eauto. }
  destruct (getitem entry "bio_reference_range") as [v3|e3] eqn:E3.
  2:{ apply getitem_raises in E3 as E. subst e3.
      exists (firstn 2 required_keys), "bio_reference_range"%string,
             (skipn 3 required_keys).
      repeat split; auto. intros k [<-|[<-|[]]]; eauto. }
  destruct (getitem entry "test_unit") as [v4|e4] eqn:E4.
  2:{ apply getitem_raises in E4 as E. subst e4.
      exists (firstn 3 required_keys), "test_unit"%string, (skipn 4 required_keys).
      repeat split; auto. intros k [<-|[<-|[<-|[]]]]; eauto. }
  destruct (getitem entry "lab_test_out_of_range") as [v5|e5] eqn:E5.
  2:{ apply getitem_raises in E5 as E. subst e5.
      exists (firstn 4 required_keys), "lab_test_out_of_range"%string, [].
      repeat split; auto. intros k [<-|[<-|[<-|[<-|[]]]]]; eauto. }
  exfalso. destruct Hkey as [<-|[<-|[<-|[<-|[<-|[]]]]]]; congruence.
Qed.


(** ** More on the line parser *)

(** The loop body only appends: what it adds does not depend on the results
    so far. *)
Lemma parse_line_acc results line :
  parse_line results line = (out <- parse_line [] line ;; Ok (results ++ out)).
Proof.
  unfold parse_line.
  destruct (negb (nonempty (strip line))); cbn [bind]; [now rewrite app_nil_r|].
  destruct (re_match pattern (strip line)) as [m|]; cbn [bind]; [|now rewrite app_nil_r].
  destruct (_ || _); cbn [bind]; [now rewrite app_nil_r|].
  destruct (float _) as [v|e] eqn:Hf; cbn [bind try_except_ValueError].
  - rewrite range_flag. cbn [bind app]. reflexivity.
  - apply float_raises in Hf. subst e. cbn. now rewrite app_nil_r.
Qed.

Lemma parse_line_at_most_one line :
  exists out, parse_line [] line = Ok out /\ (List.length out <= 1)%nat.
Proof.
  destruct (parse_line_cases [] line) as [H|(d & _ & H)]; rewrite H.
  - exists []. auto.
  - exists [d]. auto.
Qed.

Lemma for_each_parse_line_concat lines :
  exists per_line,
    Forall2 (fun line out => parse_line [] line = Ok out /\ (List.length out <= 1)%nat)
            lines per_line /\
    forall acc, for_each parse_line lines acc = Ok (acc ++ List.concat per_line).
Proof.
  induction lines as [|line lines (per_line & F & H)].
  - exists []. split; [constructor|]. intros acc. cbn. now rewrite app_nil_r.
  - destruct (parse_line_at_most_one line) as (out & Hout & Hlen).
    exists (out :: per_line). split; [constructor; auto|].
    intros acc. cbn [for_each List.concat]. rewrite parse_line_acc, Hout. cbn [bind].
    rewrite H. now rewrite app_assoc.
Qed.

(** X3: the result of [parse_lab_tests] is the concatenation, in line order,
    of what each line of the text yields on its own, and a line yields at most
    one record. *)
Theorem X3_records_follow_line_order text :
  exists per_line,
    Forall2 (fun line out => parse_line [] line = Ok out /\ (List.length out <= 1)%nat)
            (splitlines text) per_line /\
    parse_lab_tests text = Ok (List.concat per_line).
Proof.
  destruct (for_each_parse_line_concat (splitlines text)) as (per_line & F & H).
  exists per_line. split; auto. unfold parse_lab_tests. now rewrite H.
Qed.

(** Lines before and after a line feed, up to one empty line in between. *)
Lemma splitlines_from_line_feed n : forall a cur b,
  (List.length a <= n)%nat ->
  exists blanks,
    (blanks = [] \/ blanks = [[]]) /\
    splitlines_from cur (a ++ 0x0A%N :: b)
    = splitlines_from cur a ++ blanks ++ splitlines_from [] b.
Proof.
  assert (Hlf : forall cur b, splitlines_from cur (0x0A%N :: b)
                              = rev cur :: splitlines_from [] b).
  { intros cur b. cbn [splitlines_from]. change (is_linebreak 10%N) with true.
    cbn iota. now destruct b. }
  induction n as [|n IH]; intros a cur b Hlen.
  - destruct a; [|cbn in Hlen; lia]. cbn [app]. rewrite Hlf.
    cbn [splitlines_from]. destruct cur as [|x cur]; cbn [nonempty].
    + exists [[]]. auto.
    + exists []. auto.
  - destruct a as [|c a].
    { apply (IH [] cur b). cbn. lia. }
    cbn [List.length] in Hlen. cbn [app splitlines_from].
    destruct (is_linebreak c).
    + destruct a as [|c' a'].
      * cbn [app]. destruct ((c =? 13)%N && (10 =? 10)%N) eqn:E.
        -- exists []. auto.
        -- rewrite Hlf. exists [[]]. auto.
      * cbn [app]. destruct ((c =? 13)%N && (c' =? 10)%N).
        -- destruct (IH a' [] b) as (blanks & Hb & ->); [cbn in Hlen; lia|].
           exists blanks. auto.
        -- destruct (IH (c' :: a') [] b) as (blanks & Hb & E); [cbn in *; lia|].
           cbn [app] in E. rewrite E. exists blanks. auto.
    + apply IH. lia.
Qed.

Lemma for_each_parse_line_blanks blanks acc rest :
  blanks = [] \/ blanks = [[]] ->
  for_each parse_line (blanks ++ rest) acc = for_each parse_line rest acc.
Proof.
  intros [->| ->]; reflexivity.
Qed.

(** X5: parsing two texts joined by a line feed gives the records of the
    first followed by the records of the second. *)
Theorem X5_parse_lab_tests_concatenation a b :
  exists ra rb,
    parse_lab_tests a = Ok ra /\ parse_lab_tests b = Ok rb /\
    parse_lab_tests (a ++ 0x0A%N :: b) = Ok (ra ++ rb).
Proof.
  unfold parse_lab_tests, splitlines.
  destruct (@splitlines_from_line_feed (List.length a) a [] b (le_n _))
    as (blanks & Hb & E).
  destruct (for_each_parse_line_concat (splitlines_from [] a)) as (pa & _ & Ha).
  destruct (for_each_parse_line_concat (splitlines_from [] b)) as (pb & _ & Hb').
  exists (List.concat pa), (List.concat pb).
  specialize (Ha []). pose proof (Hb' []) as Hb0. cbn [app] in Ha, Hb0.
  unfold char, str in *. rewrite E, Ha, Hb0. repeat split.
  rewrite for_each_app, Ha. cbn [bind].
  rewrite for_each_parse_line_blanks by assumption. apply Hb'.
Qed.

Lemma splitlines_from_chars_bounded n : forall s cur line c,
  (List.length s <= n)%nat ->
  In line (splitlines_from cur s) -> In c line -> In c cur \/ In c s.
Proof.
  induction n as [|n IH]; intros s cur line c Hlen.
  - destruct s; [|cbn in Hlen; lia]. cbn [splitlines_from].
    destruct (nonempty cur); [|intros []].
    intros [<-|[]] Hc. left. now apply in_rev.
  - destruct s as [|x s]; [apply IH; cbn; lia|].
    cbn [List.length] in Hlen. cbn [splitlines_from].
    destruct (is_linebreak x).
    + intros [<-|Hin] Hc; [left; now apply in_rev|]. right.
      destruct s as [|c' s'']; [destruct Hin|].
      destruct ((x =? 13)%N && (c' =? 10)%N).
      * destruct (IH s'' [] line c ltac:(cbn in *; lia) Hin Hc) as [[]|H].
        right. right. exact H.
      * destruct (IH (c' :: s'') [] line c ltac:(cbn in *; lia) Hin Hc) as [[]|H].
        right. exact H.
    + intros Hin Hc.
      destruct (IH s (x :: cur) line c ltac:(lia) Hin Hc) as [[<-|H]|H]; auto.
      * right. left. reflexivity.
      * right. right. exact H.
Qed.

Lemma splitlines_from_chars s cur line c :
  In line (splitlines_from cur s) -> In c line -> In c cur \/ In c s.
Proof. apply (@splitlines_from_chars_bounded (List.length s)). lia. Qed.

Lemma drop_while_all p s : forallb p s = true -> drop_while p s = [].
Proof.
  induction s as [|c s IH]; cbn [forallb drop_while]; auto.
  intros H. apply andb_prop in H as [-> H]. auto.
Qed.

(** X6: a text made of whitespace only (the empty text included) yields no
    record. *)
Theorem X6_blank_text_no_records text :
  forallb is_space text = true -> parse_lab_tests text = Ok [].
Proof.
  intros Hws. unfold parse_lab_tests, splitlines.
  assert (H : forall line, In line (splitlines_from [] text) ->
                           nonempty (strip line) = false).
  { intros line Hl. unfold strip, rstrip, lstrip.
    rewrite (drop_while_all is_space line); [reflexivity|].
    apply forallb_forall. intros c Hc.
    destruct (@splitlines_from_chars _ _ _ _ Hl Hc) as [[]|Hin].
    rewrite forallb_forall in Hws. auto. }
  revert H. generalize (splitlines_from [] text). intros lines.
  induction lines as [|line lines IH]; intros H; cbn [for_each]; auto.
  rewrite parse_line_blank by (apply H; simpl; auto). cbn [bind].
  apply IH. intros l Hl. apply H. simpl. auto.
Qed.

(** X4: in every record [test_unit] is empty or made of ASCII letters,
    percent signs and slashes only. *)
Theorem X4_unit_charset text rs d :
  parse_lab_tests text = Ok rs -> In d rs ->
  exists unit,
    getitem d "test_unit" = Ok (VStr unit) /\ forallb unit_class unit = true.
Proof.
  intros Hrs Hd.
  destruct (@parse_lab_tests_records _ _ _ Hrs Hd)
    as (line & _ & m & v & _ & Hm & _ & _ & _ & ->).
  apply re_match_sound in Hm as (s1 & s2 & _ & M).
  apply pattern_matches_inv in M as (name & sep & value & rest & _ & _ & _ & _ & _ & _ & _ & G3 & _).
  cbn. eexists. split; [reflexivity|].
  destruct G3 as [->|(u & -> & _ & Hu)]; [reflexivity|].
  cbn [if_truthy]. destruct (nonempty u); [|reflexivity].
  pose proof (forallb_strip _ _ Hu) as Hs.
  now destruct (nonempty (strip u)).
Qed.


(** ** More on the request handler *)

Lemma extract_text_total backend image_path :
  exists text, extract_text_from_image backend image_path = Ok text.
Proof.
  unfold extract_text_from_image, try_except_Exception.
  destruct (_ <- _ ;; _); eauto.
Qed.

(** Between the OCR call and the removal of the file nothing can fail. *)
Lemma pipeline_total backend image_path :
  exists text rs,
    extract_text_from_image backend image_path = Ok text /\
    parse_lab_tests text = Ok rs /\ format_output rs = Ok rs.
Proof.
  destruct (extract_text_total backend image_path) as [text Ht].
  destruct (parse_lab_tests_total text) as [rs Hrs].
  exists text, rs. repeat split; auto.
  unfold format_output. rewrite format_output_from; auto.
  intros d Hd.
  destruct (@parse_lab_tests_records _ _ _ Hrs Hd) as (line & _ & He).
  apply emits_inv in He as (g1 & g2 & unit & range & v & -> & _).
  apply format_entry_record.
Qed.

Lemma filter_absent path fs :
  has_path fs path = false -> filter (fun p => negb (str_eqb path p)) fs = fs.
Proof.
  unfold has_path. induction fs as [|p fs IH]; cbn [existsb filter]; auto.
  intros H. apply orb_false_iff in H as [-> H]. cbn [negb]. now rewrite IH.
Qed.

(** X7: the handler always answers.  A failure answer has status 500 and is
    caused by opening, filling or removing the temporary file -- never by the
    OCR, parsing or formatting stage -- and, once the file was opened, it
    leaves the file behind; a success answer carries exactly the records
    parsed from the OCR text of the file, and the file is gone. *)
Theorem X7_handler_answers h filename fs :
  (exists r fs', get_lab_tests h filename fs = (Ok r, fs')) /\
  (forall code e fs',
     get_lab_tests h filename fs = (Ok (Failure code e), fs') ->
     code = 500%N /\
     (open_result h (upload_path h filename) = Raise e /\ fs' = fs \/
      (exists u, open_result h (upload_path h filename) = Ok u) /\
      (copy_result h = Raise e \/ remove_result h (upload_path h filename) = Raise e) /\
      has_path fs' (upload_path h filename) = true)) /\
  (forall data fs',
     get_lab_tests h filename fs = (Ok (Success data), fs') ->
     (exists text,
        extract_text_from_image (cv h) (upload_path h filename) = Ok text /\
        parse_lab_tests text = Ok data) /\
     has_path fs' (upload_path h filename) = false).
Proof.
  destruct (pipeline_total (cv h) (upload_path h filename))
    as (text & rs & Ht & Hrs & Hfmt).
  unfold get_lab_tests, io_try, io_bind, io_ret, lift, open_wb, os_remove.
  cbv zeta. rewrite Ht, Hrs, Hfmt.
  destruct (open_result h _) as [u|e0] eqn:Eo.
  2:{ repeat split; eauto; try discriminate.
      - congruence.
      - left. split; congruence. }
  destruct (copy_result h) as [u'|e1] eqn:Ec.
  2:{ repeat split; eauto; try discriminate.
      - congruence.
      - right. injection H as _ <- <-. repeat split; eauto using has_path_created. }
  rewrite has_path_created.
  destruct (remove_result h _) as [u''|e2] eqn:Er.
  2:{ repeat split; eauto; try discriminate.
      - congruence.
      - right. injection H as _ <- <-. repeat split; eauto using has_path_created. }
  repeat split; eauto; try discriminate.
  - injection H as <- _. eauto.
  - injection H as _ <-. apply has_path_removed.
Qed.

(** X8: when opening, filling and removing the temporary file all succeed
    and its path is fresh, the handler answers success with the records
    parsed from the OCR text and leaves the upload directory as it found
    it. *)
Theorem X8_handler_success_restores_directory h filename fs u1 u2 u3 :
  open_result h (upload_path h filename) = Ok u1 ->
  copy_result h = Ok u2 ->
  remove_result h (upload_path h filename) = Ok u3 ->
  has_path fs (upload_path h filename) = false ->
  exists text rs,
    extract_text_from_image (cv h) (upload_path h filename) = Ok text /\
    parse_lab_tests text = Ok rs /\
    get_lab_tests h filename fs = (Ok (Success rs), fs).
Proof.
  intros Ho Hc Hr Hfresh.
  destruct (pipeline_total (cv h) (upload_path h filename))
    as (text & rs & Ht & Hrs & Hfmt).
  exists text, rs. repeat split; auto.
  unfold get_lab_tests, io_try, io_bind, io_ret, lift, open_wb, os_remove.
  cbv zeta. rewrite Ho, Hc, Ht, Hrs, Hfmt, has_path_created, Hr, Hfresh.
  cbn [filter]. rewrite str_eqb_refl. cbn [negb].
  now rewrite filter_absent.
Qed.

Lemma splitext_ext_shape p :
  splitext_ext p = [] \/
  exists ext, splitext_ext p = 0x2E%N :: ext /\ ~ In 0x2F%N ext.
Proof.
  unfold splitext_ext.
  destruct (drop_while _ (rev p)) as [|dot before] eqn:E; auto.
  destruct (existsb (N.eqb 47) _) eqn:Es; auto.
  match goal with |- context [ if existsb ?f ?l then _ else _ ] =>
    destruct (existsb f l); auto end.
  right. apply drop_while_first in E. apply negb_false_iff, N.eqb_eq in E.
  subst dot. eexists. split; [reflexivity|].
  intros Hin. apply in_rev in Hin.
  assert (H : existsb (N.eqb 47) (take_while (fun c => negb (c =? 46)%N) (rev p)) = true).
  { apply existsb_exists. exists 47%N. split; auto. }
  congruence.
Qed.

(** X9: the temporary file is always created directly inside the upload
    directory: whatever the client sends as file name (directory parts, dots,
    nothing), the path is [temp_uploads/] followed by one component without a
    slash -- the identifier and, at most, an extension that starts with a
    dot. *)
Theorem X9_upload_path_confined h filename :
  ~ In 0x2F%N (uuid4 h) ->
  exists ext,
    upload_path h filename = py "temp_uploads/" ++ uuid4 h ++ ext /\
    ~ In 0x2F%N ext /\
    (ext = [] \/ exists rest, ext = 0x2E%N :: rest).
Proof.
  intros Hid. unfold upload_path.
  set (ext := match filename with
              | Some f => if nonempty f then splitext_ext f else py ".png"
              | None => py ".png"
              end).
  assert (Hext : ext = [] \/ exists rest, ext = 0x2E%N :: rest /\ ~ In 0x2F%N rest).
  { unfold ext. destruct filename as [f|].
    - destruct (nonempty f); [apply splitext_ext_shape|].
      right. exists (py "png"). split; [reflexivity|].
      cbn. intros [H|[H|[H|[]]]]; discriminate.
    - right. exists (py "png"). split; [reflexivity|].
      cbn. intros [H|[H|[H|[]]]]; discriminate. }
  exists ext.
  assert (Hno : ~ In 0x2F%N ext).
  { destruct Hext as [->|(rest & -> & Hr)]; [intros []|].
    intros [H|H]; [discriminate|auto]. }
  repeat split; auto.
  - unfold path_join.
    destruct (uuid4 h ++ ext) as [|c leaf] eqn:E; [reflexivity|].
    assert (Hc : (c =? 47)%N = false).
    { apply N.eqb_neq. intros ->.
      assert (Hin : In 47%N (uuid4 h ++ ext)) by (rewrite E; simpl; auto).
      apply in_app_or in Hin as [H|H]; auto. }
    rewrite Hc. reflexivity.
  - destruct Hext as [->|(rest & -> & _)]; eauto.
Qed.


(** ** The pattern and the scanner agree *)

Lemma take_drop_while p s : take_while p s ++ drop_while p s = s.
Proof.
  induction s as [|c s IH]; cbn [take_while drop_while]; auto.
  destruct (p c); cbn [app]; auto. now rewrite IH.
Qed.

Lemma firstn_take_while p (s : str) :
  firstn (List.length s - List.length (drop_while p s)) s = take_while p s.
Proof.
  rewrite <- (take_drop_while p s) at 1 3. apply firstn_consumed.
Qed.

(** A greedy repetition stops at the end of the run when what follows
    accepts that. *)
Lemma star_greedy_take A p s (k : str -> option A) a :
  k (drop_while p s) = Some a -> star_greedy p s k = Some a.
Proof.
  induction s as [|c s IH]; cbn [drop_while star_greedy]; auto.
  destruct (p c); auto. intros H. now rewrite (IH H).
Qed.

(** It can stop nowhere else when what follows rejects the characters of
    the run. *)
Lemma star_greedy_only_max A p s (k : str -> option A) :
  (forall c t, p c = true -> k (c :: t) = None) ->
  star_greedy p s k = k (drop_while p s).
Proof.
  intros Hk. induction s as [|c s IH]; cbn [drop_while star_greedy]; auto.
  destruct (p c) eqn:E; auto. rewrite IH.
  destruct (k (drop_while p s)); auto.
Qed.

Lemma num_not_sep c : num_class c = true -> sep_class c = false.
Proof.
  intros H. unfold sep_class. rewrite (num_class_not_space _ H). cbn [orb].
  apply N.eqb_neq. intros ->. discriminate H.
Qed.

Lemma num_not_hyphen c : num_class c = true -> is_char 0x2D%N c = false.
Proof.
  intros H. unfold is_char. apply N.eqb_neq. intros ->.
  pose proof num_class_hyphen. congruence.
Qed.

(** What remains of the pattern after the range. *)
Lemma match_close_paren s g :
  rmatch (Opt (Chr (is_char 0x29%N))) s g (fun _ g' => Some g') = Some g.
Proof.
  cbn [rmatch]. destruct s as [|c s]; auto. now destruct (is_char 41%N c).
Qed.

(** The range item finds what [scan_range] finds. *)
Lemma match_range_some A s r g (k : str -> groups -> option A) :
  scan_range s = Some r ->
  exists rest, s = r ++ rest /\
    forall a, k rest g = Some a ->
      rmatch (Plus true num_class +++ Chr (is_char 0x2D%N) +++ Plus true num_class)
             s g k = Some a.
Proof.
  unfold scan_range. intros H.
  destruct (drop_while num_class s) as [|h s1] eqn:Ed; [discriminate|].
  destruct (h =? 45)%N eqn:Eh; [|discriminate]. apply N.eqb_eq in Eh. subst h.
  destruct (take_while num_class s) as [|c low] eqn:El; [discriminate|].
  destruct (take_while num_class s1) as [|d high] eqn:Eh; [discriminate|].
  cbn [andb nonempty] in H. injection H as <-.
  exists (drop_while num_class s1). split.
  - rewrite <- (take_drop_while num_class s), El, Ed.
    rewrite <- (take_drop_while num_class s1) at 1. rewrite Eh.
    cbn [app]. now rewrite <- app_assoc.
  - intros a Ha. unfold Plus. cbn [rmatch].
    destruct s as [|c0 s0]; [discriminate|]. cbn [take_while drop_while] in El, Ed.
    destruct (num_class c0) eqn:Ec0; [|discriminate].
    rewrite star_greedy_only_max.
    + rewrite Ed. unfold is_char at 1. rewrite N.eqb_refl.
      destruct s1 as [|d0 s1']; [discriminate|]. cbn [take_while drop_while] in Eh, Ha |- *.
      destruct (num_class d0); [|discriminate].
      now apply star_greedy_take.
    + intros x t Hx. now rewrite (num_not_hyphen _ Hx).
Qed.

Lemma match_range_none A s g (k : str -> groups -> option A) :
  scan_range s = None ->
  rmatch (Plus true num_class +++ Chr (is_char 0x2D%N) +++ Plus true num_class)
         s g k = None.
Proof.
  unfold scan_range, Plus. cbn [rmatch]. intros H.
  destruct s as [|c0 s0]; auto. cbn [take_while drop_while] in H.
  destruct (num_class c0) eqn:Ec0; auto.
  rewrite star_greedy_only_max.
  2:{ intros x t Hx. now rewrite (num_not_hyphen _ Hx). }
  destruct (drop_while num_class s0) as [|h s1]; auto.
  unfold is_char at 1. destruct (h =? 45)%N; auto.
  cbn [andb nonempty] in H.
  destruct s1 as [|d0 s1']; auto. cbn [take_while] in H.
  destruct (num_class d0); auto. discriminate.
Qed.


Lemma rmatch_Cat A r1 r2 s g (k : str -> groups -> option A) :
  rmatch (Cat r1 r2) s g k = rmatch r1 s g (fun s1 g1 => rmatch r2 s1 g1 k).
Proof. reflexivity. Qed.

Lemma rmatch_Opt A r s g (k : str -> groups -> option A) :
  rmatch (Opt r) s g k
  = match rmatch r s g k with Some a => Some a | None => k s g end.
Proof. reflexivity. Qed.

Lemma rmatch_Grp A i r s g (k : str -> groups -> option A) :
  rmatch (Grp i r) s g k
  = rmatch r s g
      (fun s' g' => k s' ((i, firstn (List.length s - List.length s') s) :: g')).
Proof. reflexivity. Qed.

Lemma rmatch_Plus A p s g (k : str -> groups -> option A) :
  rmatch (Plus true p) s g k
  = match s with
    | c :: s' => if p c then star_greedy p s' (fun s1 => k s1 g) else None
    | [] => None
    end.
Proof. reflexivity. Qed.

Lemma rmatch_Lazy A p s g (k : str -> groups -> option A) :
  rmatch (Star false p) s g k = star_lazy p s (fun s1 => k s1 g).
Proof. reflexivity. Qed.

Lemma rmatch_Chr A p s g (k : str -> groups -> option A) :
  rmatch (Chr p) s g k
  = match s with
    | c :: s' => if p c then k s' g else None
    | [] => None
    end.
Proof. reflexivity. Qed.

Lemma rmatch_Star A p s g (k : str -> groups -> option A) :
  rmatch (Star true p) s g k = star_greedy p s (fun s1 => k s1 g).
Proof. reflexivity. Qed.

Local Abbreviation accept := (fun (_ : str) (g : groups) => Some g).
Local Abbreviation range_item :=
  (Plus true num_class +++ Chr (is_char 0x2D%N) +++ Plus true num_class).
Local Abbreviation after_range := (Opt (Chr (is_char 0x29%N))).
Local Abbreviation after_paren := (Opt (Grp 4 range_item) +++ after_range).
Local Abbreviation after_unit :=
  (Star true is_space +++ Opt (Chr (is_char 0x28%N)) +++ after_paren).
Local Abbreviation after_value :=
  (Star true is_space +++ Opt (Grp 3 (Plus true unit_class)) +++ after_unit).
Local Abbreviation after_name :=
  (Plus true sep_class +++ Grp 2 (Plus true num_class) +++ after_value).

Lemma match_after_paren s g :
  rmatch after_paren s g accept
  = Some (match scan_range s with Some r => (4%nat, r) :: g | None => g end).
Proof.
  rewrite rmatch_Cat, rmatch_Opt, rmatch_Grp.
  destruct (scan_range s) as [r|] eqn:E.
  - destruct (@match_range_some groups s r g
                (fun s' g' => rmatch after_range s'
                   ((4%nat, firstn (List.length s - List.length s') s) :: g') accept) E)
      as (rest & Hs & H).
    erewrite H; [reflexivity|].
    rewrite match_close_paren. subst s. now rewrite firstn_consumed.
  - rewrite match_range_none by assumption. apply match_close_paren.
Qed.

Lemma match_after_unit s g :
  rmatch after_unit s g accept
  = Some (match scan_range (skip_paren (drop_while is_space s)) with
          | Some r => (4%nat, r) :: g
          | None => g
          end).
Proof.
  rewrite rmatch_Cat, rmatch_Star. apply star_greedy_take.
  rewrite rmatch_Cat, rmatch_Opt, rmatch_Chr.
  destruct (drop_while is_space s) as [|c t]; cbn [skip_paren].
  - apply match_after_paren.
  - unfold is_char at 1. destruct (c =? 40)%N.
    + now rewrite match_after_paren.
    + apply match_after_paren.
Qed.

Lemma match_after_value s g :
  rmatch after_value s g accept
  = Some (let t := drop_while is_space s in
          let unit := take_while unit_class t in
          let g3 := (if nonempty unit then [(3%nat, unit)] else []) ++ g in
          match scan_range
                  (skip_paren (drop_while is_space (drop_while unit_class t))) with
          | Some r => (4%nat, r) :: g3
          | None => g3
          end).
Proof.
  rewrite rmatch_Cat, rmatch_Star. apply star_greedy_take. cbv zeta.
  set (t := drop_while is_space s).
  rewrite rmatch_Cat, rmatch_Opt, rmatch_Grp, rmatch_Plus.
  destruct t as [|c t'] eqn:Et.
  - cbn [take_while drop_while nonempty app]. apply match_after_unit.
  - cbn [take_while drop_while]. destruct (unit_class c) eqn:Ec.
    + erewrite star_greedy_take; [reflexivity|].
      rewrite match_after_unit. cbn [nonempty app].
      replace (firstn (List.length (c :: t') - List.length (drop_while unit_class t'))
                      (c :: t'))
        with (take_while unit_class (c :: t')).
      * cbn [take_while]. now rewrite Ec.
      * rewrite <- firstn_take_while. cbn [drop_while]. now rewrite Ec.
    + cbn [nonempty app]. apply match_after_unit.
Qed.

(** From the separators on, the pattern matches exactly where a value token
    starts, and finds what [scan_tail] finds. *)
Lemma match_after_name s g :
  rmatch after_name s g accept
  = if token_at s then Some (scan_tail s g) else None.
Proof.
  rewrite rmatch_Cat, rmatch_Plus. unfold token_at, scan_tail.
  destruct s as [|c s']; auto. cbn [drop_while].
  destruct (sep_class c); cbn [andb]; auto.
  rewrite star_greedy_only_max.
  2:{ intros x t Hx. rewrite rmatch_Cat, rmatch_Grp, rmatch_Plus.
      destruct (num_class x) eqn:E; auto.
      apply num_not_sep in E. congruence. }
  rewrite rmatch_Cat, rmatch_Grp, rmatch_Plus.
  set (t := drop_while sep_class s').
  destruct t as [|d t'] eqn:Et; auto.
  destruct (num_class d) eqn:Ed; auto.
  erewrite star_greedy_take; [reflexivity|].
  rewrite match_after_value. cbv zeta.
  replace (firstn (List.length (d :: t') - List.length (drop_while num_class t'))
                  (d :: t'))
    with (take_while num_class (d :: t'))
    by (rewrite <- firstn_take_while; cbn [drop_while]; now rewrite Ed).
  replace (drop_while num_class (d :: t')) with (drop_while num_class t')
    by (cbn [drop_while]; now rewrite Ed).
  reflexivity.
Qed.


Lemma scan_name_split s : forall name rest,
  scan_name s = Some (name, rest) ->
  s = name ++ rest /\ forallb any_char name = true /\ token_at rest = true /\
  (forall pre suf, name = pre ++ suf -> suf <> [] -> token_at (suf ++ rest) = false).
Proof.
  induction s as [|c s IH]; intros name rest; cbn [scan_name].
  - destruct (token_at []) eqn:E; [discriminate E|discriminate].
  - destruct (token_at (c :: s)) eqn:E.
    + intros H. injection H as <- <-. repeat split; auto.
      intros pre suf Hn Hs. destruct pre, suf; try discriminate. congruence.
    + destruct (any_char c) eqn:Ec; [|discriminate].
      destruct (scan_name s) as [[name' rest']|] eqn:Es; [|discriminate].
      intros H. injection H as <- <-.
      destruct (IH _ _ eq_refl) as (-> & Hany & Ht & Hmin).
      repeat split; auto.
      * cbn [forallb]. now rewrite Ec, Hany.
      * intros pre suf Hn Hs. destruct pre as [|x pre]; cbn [app] in Hn.
        -- subst suf. exact E.
        -- injection Hn as _ Hn. eauto.
Qed.

(** The lazy name item stops at the first position where the rest of the
    pattern matches. *)
Lemma match_name cur : forall pre s g,
  s = pre ++ cur ->
  star_lazy any_char cur
    (fun s' => rmatch after_name s'
                 ((1%nat, firstn (List.length s - List.length s') s) :: g) accept)
  = match scan_name cur with
    | Some (name, rest) => Some (scan_tail rest ((1%nat, pre ++ name) :: g))
    | None => None
    end.
Proof.
  induction cur as [|c cur IH]; intros pre s g Hs.
  - cbn [star_lazy scan_name]. rewrite match_after_name. reflexivity.
  - cbn [star_lazy scan_name]. rewrite match_after_name.
    destruct (token_at (c :: cur)).
    + subst s. now rewrite firstn_consumed, app_nil_r.
    + destruct (any_char c); auto.
      rewrite (@IH (pre ++ [c]) s g) by (now rewrite <- app_assoc).
      destruct (scan_name cur) as [[name rest]|]; auto.
      now rewrite <- app_assoc.
Qed.

(** X10: matching a line against the pattern is the same as scanning it from
    left to right: the name is the shortest prefix after which separators and
    then a digit or dot follow, and every later item takes the longest run it
    can, a unit or a range being present only when its first character is. *)
Theorem X10_pattern_is_scanner s : re_match pattern s = scan_line s.
Proof.
  unfold re_match, pattern, scan_line.
  rewrite rmatch_Cat, rmatch_Grp, rmatch_Lazy. cbv beta.
  etransitivity; [exact (@match_name s [] s [] eq_refl)|].
  now destruct (scan_name s) as [[name rest]|].
Qed.

Lemma scan_tail_value rest g :
  group (scan_tail rest g) 2
  = Some (take_while num_class (drop_while sep_class rest)).
Proof.
  unfold scan_tail. destruct (scan_range _); destruct (nonempty _); reflexivity.
Qed.

Lemma scan_tail_name rest name :
  group (scan_tail rest [(1%nat, name)]) 1 = Some name.
Proof.
  unfold scan_tail. destruct (scan_range _); destruct (nonempty _); reflexivity.
Qed.

(** X11: the value is the first value token of the line, taken whole: the
    captured name is followed by a value token, no value token starts inside
    the name, and the value is the longest run of digits and dots after the
    separators. *)
Theorem X11_value_is_first_token s m :
  re_match pattern s = Some m ->
  exists name rest,
    s = name ++ rest /\
    group m 1 = Some name /\
    group m 2 = Some (take_while num_class (drop_while sep_class rest)) /\
    token_at rest = true /\
    (forall pre suf, name = pre ++ suf -> suf <> [] -> token_at (suf ++ rest) = false).
Proof.
  unfold re_match, pattern.
  rewrite rmatch_Cat, rmatch_Grp, rmatch_Lazy. cbv beta.
  intros H.
  assert (H' : match scan_name s with
               | Some (name, rest) => Some (scan_tail rest [(1%nat, name)])
               | None => None
               end = Some m).
  { rewrite <- H. symmetry. exact (@match_name s [] s [] eq_refl). }
  clear H. revert H'.
  destruct (scan_name s) as [[name rest]|] eqn:E; [|discriminate].
  intros H. injection H as <-.
  apply scan_name_split in E as (-> & _ & Ht & Hmin).
  exists name, rest. cbn [app].
  rewrite scan_tail_value, scan_tail_name. auto.
Qed.


(** ** Well-formed lines *)

Lemma re_match_scan s : re_match pattern s = scan_line s.
Proof.
  unfold re_match, pattern, scan_line.
  rewrite rmatch_Cat, rmatch_Grp, rmatch_Lazy. cbv beta.
  etransitivity; [exact (@match_name s [] s [] eq_refl)|].
  now destruct (scan_name s) as [[name rest]|].
Qed.

Lemma take_while_run p a b :
  forallb p a = true -> stops p b -> take_while p (a ++ b) = a.
Proof.
  intros Ha Hb. induction a as [|c a IH]; cbn [app take_while].
  - destruct b as [|x b]; auto. cbn [stops] in Hb. cbn [take_while]. now rewrite Hb.
  - cbn [forallb] in Ha. apply andb_prop in Ha as [-> Ha]. now rewrite IH.
Qed.

Lemma drop_while_run p a b :
  forallb p a = true -> stops p b -> drop_while p (a ++ b) = b.
Proof.
  intros Ha Hb. induction a as [|c a IH]; cbn [app drop_while].
  - destruct b as [|x b]; auto. cbn [stops] in Hb. cbn [drop_while]. now rewrite Hb.
  - cbn [forallb] in Ha. apply andb_prop in Ha as [-> Ha]. now rewrite IH.
Qed.

(** A run of [q] characters, none of which is in [p], in front of something
    that stops [p]. *)
Lemma stops_run (q p : char -> bool) a b :
  forallb q a = true -> (forall c, q c = true -> p c = false) ->
  stops p b -> stops p (a ++ b).
Proof.
  intros Ha Hqp Hb. destruct a as [|c a]; auto.
  cbn [forallb] in Ha. apply andb_prop in Ha as [Hc _]. cbn. auto.
Qed.

Lemma stops_nonempty_run (q p : char -> bool) a b :
  a <> [] -> forallb q a = true -> (forall c, q c = true -> p c = false) ->
  stops p (a ++ b).
Proof.
  intros Hne Ha Hqp. destruct a as [|c a]; [congruence|].
  cbn [forallb] in Ha. apply andb_prop in Ha as [Hc _]. cbn. auto.
Qed.

Lemma unit_class_cases c :
  unit_class c = true ->
  (97 <= c <= 122 \/ 65 <= c <= 90 \/ c = 37 \/ c = 47)%N.
Proof.
  unfold unit_class, in_range.
  rewrite !orb_true_iff, !andb_true_iff, !N.leb_le, !N.eqb_eq. lia.
Qed.

Lemma unit_not_space c : unit_class c = true -> is_space c = false.
Proof. intros H. apply unit_class_cases in H. N_cases. Qed.

Lemma space_not_unit c : is_space c = true -> unit_class c = false.
Proof.
  intros H. destruct (unit_class c) eqn:E; auto.
  apply unit_not_space in E. congruence.
Qed.

Lemma unit_not_num c : unit_class c = true -> num_class c = false.
Proof.
  intros H. apply unit_class_cases in H.
  unfold num_class, is_decimal, todecimal.
  replace (c <? 128)%N with true by (symmetry; apply N.ltb_lt; lia).
  replace (is_ascii_digit c) with false by (symmetry; N_cases).
  cbn [orb]. apply N.eqb_neq. lia.
Qed.

Lemma space_not_num c : is_space c = true -> num_class c = false.
Proof.
  intros H. destruct (num_class c) eqn:E; auto.
  apply num_class_not_space in E. congruence.
Qed.

Lemma sep_not_num c : sep_class c = true -> num_class c = false.
Proof.
  intros H. destruct (num_class c) eqn:E; auto.
  apply num_not_sep in E. congruence.
Qed.

(** In a plain name no value token starts, whatever follows the name. *)
Lemma plain_name_no_token name rest :
  plain_name name ->
  forall pre suf, name = pre ++ suf -> suf <> [] -> token_at (suf ++ rest) = false.
Proof.
  intros (_ & _ & Hnt & _ & Hlast) pre suf Hn Hs.
  destruct suf as [|c suf']; [congruence|]. cbn [app token_at].
  destruct (sep_class c) eqn:Ec; auto. cbn [andb].
  destruct (drop_while_suffix sep_class suf') as [run Hrun].
  assert (Hrunc : forallb sep_class run = true).
  { clear -Hrun. revert run Hrun.
    induction suf' as [|x s IH]; intros run; cbn [drop_while].
    - destruct run; [auto|discriminate].
    - destruct (sep_class x) eqn:E.
      + destruct run as [|y run]; cbn [app].
        * intros H. exfalso.
          assert (L : (List.length (drop_while sep_class s) <= List.length s)%nat)
            by apply length_drop_while_le.
          rewrite <- H in L. cbn in L. lia.
        * intros H. injection H as <- H. cbn [forallb]. rewrite E. eauto.
      + intros H. destruct run as [|y run]; auto.
        exfalso. apply (f_equal (@List.length _)) in H.
        rewrite length_app in H. cbn in H. lia. }
  destruct (drop_while sep_class suf') as [|x tl] eqn:Ed.
  - exfalso. rewrite app_nil_r in Hrun. subst suf'.
    assert (Hl : exists y r, rev name = y :: r /\ sep_class y = true).
    { subst name. rewrite rev_app_distr. cbn [rev].
      destruct (rev run) as [|y r] eqn:Er.
      - cbn [app]. eauto.
      - exists y. eexists. split; [rewrite <- !app_assoc; reflexivity|].
        rewrite <- forallb_rev in Hrunc. unfold char in *. rewrite Er in Hrunc.
        cbn [forallb] in Hrunc. now apply andb_prop in Hrunc as [-> _]. }
    destruct Hl as (y & r & Hr & Hy). rewrite (Hlast _ _ Hr) in Hy. discriminate.
  - pose proof (drop_while_first _ _ Ed) as Hx.
    rewrite Hrun, <- app_assoc, drop_while_run by (auto; exact Hx).
    cbn [app].
    destruct (num_class x) eqn:En; auto. exfalso.
    assert (H : has_value_token name = true).
    { subst name suf'.
      destruct (rev run) as [|y r] eqn:Er.
      - apply (f_equal (@rev _)) in Er. rewrite rev_involutive in Er. subst run.
        cbn [app]. now apply has_value_token_here.
      - apply (f_equal (@rev _)) in Er. rewrite rev_involutive in Er. cbn [rev] in Er.
        subst run. rewrite forallb_app in Hrunc. apply andb_prop in Hrunc as [_ Hy].
        cbn [forallb] in Hy. apply andb_prop in Hy as [Hy _].
        replace (pre ++ c :: (rev r ++ [y]) ++ x :: tl)
          with ((pre ++ c :: rev r) ++ y :: x :: tl)
          by (repeat (rewrite <- app_assoc; cbn [app]); reflexivity).
        now apply has_value_token_here. }
    congruence.
Qed.

Lemma scan_name_complete name : forall rest,
  forallb any_char name = true -> token_at rest = true ->
  (forall pre suf, name = pre ++ suf -> suf <> [] -> token_at (suf ++ rest) = false) ->
  scan_name (name ++ rest) = Some (name, rest).
Proof.
  induction name as [|c name IH]; intros rest Hany Ht Hmin.
  - cbn [app]. destruct rest; cbn [scan_name]; now rewrite Ht.
  - cbn [app scan_name].
    pose proof (Hmin [] (c :: name) eq_refl ltac:(discriminate)) as H0.
    cbn [app] in H0. rewrite H0.
    cbn [forallb] in Hany. apply andb_prop in Hany as [-> Hany].
    rewrite IH; auto.
    intros pre suf Hn Hs. apply (Hmin (c :: pre) suf); auto. cbn [app]. now f_equal.
Qed.


Lemma token_at_sep_value sep value tail :
  sep <> [] -> forallb sep_class sep = true ->
  value <> [] -> forallb num_class value = true ->
  token_at (sep ++ value ++ tail) = true.
Proof.
  intros Hs Hsep Hv Hvalue. destruct sep as [|c sep]; [congruence|].
  cbn [forallb] in Hsep. apply andb_prop in Hsep as [Hc Hsep].
  cbn [app token_at]. rewrite Hc. cbn [andb].
  rewrite drop_while_run; auto.
  - destruct value as [|d value]; [congruence|]. cbn [app].
    cbn [forallb] in Hvalue. now apply andb_prop in Hvalue as [-> _].
  - now apply stops_nonempty_run with (q := num_class); auto using num_not_sep.
Qed.

Lemma not_sep_not_space c : sep_class c = false -> is_space c = false.
Proof. unfold sep_class. now intros [-> _]%orb_false_iff. Qed.

Lemma rev_nonempty_head A (l : list A) : l <> [] -> exists x r, rev l = x :: r /\ In x l.
Proof.
  intros H. destruct (rev l) as [|x r] eqn:E.
  - apply (f_equal (@rev _)) in E. rewrite rev_involutive in E. now subst.
  - exists x, r. split; auto. apply in_rev. rewrite E. now left.
Qed.

(** A line made of a plain name, separators, a value and a tail that ends
    the value and does not end in whitespace: the record appended is read off
    the one-pass scan of what follows the name. *)
Lemma parse_line_plain results name sep value tail v :
  plain_name name ->
  sep <> [] -> forallb sep_class sep = true ->
  value <> [] -> forallb num_class value = true ->
  stops num_class tail -> stops is_space (rev tail) ->
  float value = Ok v ->
  parse_line results (name ++ sep ++ value ++ tail)
  = Ok (results ++
        [make_record (upper name) value
           (if_truthy strip (group (scan_tail (sep ++ value ++ tail) [(1%nat, name)]) 4))
           (if_truthy strip (group (scan_tail (sep ++ value ++ tail) [(1%nat, name)]) 3))
           (out_of_range_flag v
              (if_truthy strip (group (scan_tail (sep ++ value ++ tail) [(1%nat, name)]) 4)))]).
Proof.
  intros Hname Hs Hsep Hv Hvalue Htail Hend Hfloat.
  pose proof Hname as (Hne & Hany & Hnt & Hfirst & Hlast).
  set (rest := sep ++ value ++ tail).
  assert (Hstrip : strip (name ++ rest) = name ++ rest).
  { apply strip_fixed.
    - destruct name as [|c0 name0]; [congruence|]. cbn [app].
      intros c s' E. injection E as <- _. now apply (Hfirst c0 name0).
    - unfold rest. rewrite !rev_app_distr, <- !app_assoc. intros c s' E.
      destruct (rev tail) as [|t rt] eqn:Et.
      + cbn [app] in E. destruct (rev_nonempty_head Hv) as (x & r & Er & Hin).
        unfold char, str in *. rewrite Er in E. cbn [app] in E. injection E as <- _.
        apply num_class_not_space. rewrite forallb_forall in Hvalue. auto.
      + cbn [app] in E. injection E as <- _. exact Hend. }
  assert (Hstripn : strip name = name).
  { apply strip_fixed; auto. intros c s' E. apply not_sep_not_space. eauto. }
  assert (Hscan : re_match pattern (name ++ rest)
                  = Some (scan_tail rest [(1%nat, name)])).
  { rewrite re_match_scan. unfold scan_line.
    rewrite scan_name_complete; auto.
    - now apply token_at_sep_value.
    - now apply plain_name_no_token. }
  assert (Hg2 : group (scan_tail rest [(1%nat, name)]) 2 = Some value).
  { rewrite scan_tail_value. unfold rest.
    rewrite drop_while_run, take_while_run; auto.
    now apply stops_nonempty_run with (q := num_class); auto using num_not_sep. }
  unfold parse_line. rewrite Hstrip.
  replace (nonempty (name ++ rest)) with true
    by (destruct name; [congruence|reflexivity]).
  cbn [negb]. rewrite Hscan. cbv zeta.
  rewrite scan_tail_name, Hg2. cbn [if_truthy].
  apply nonempty_true in Hne, Hv. rewrite Hne, Hv.
  rewrite Hstripn, (strip_num_class _ Hvalue), Hv.
  replace (nonempty (upper name)) with true.
  2:{ symmetry. apply nonempty_true. apply nonempty_true in Hne.
      destruct name as [|c0 name0]; [congruence|]. cbn [upper flat_map].
      pose proof (toupper_nonempty c0). destruct (toupper c0); [congruence|discriminate]. }
  cbn [negb orb]. rewrite Hfloat. cbn [bind]. rewrite range_flag. reflexivity.
Qed.

Lemma split_from_two a b : forall cur,
  forallb num_class a = true -> forallb num_class b = true ->
  split_from 0x2D%N cur (a ++ 0x2D%N :: b) = [rev cur ++ a; b].
Proof.
  assert (Hb : forall b cur, forallb num_class b = true ->
                             split_from 0x2D%N cur b = [rev cur ++ b]).
  { clear. induction b as [|c b IH]; intros cur H; cbn [split_from].
    - now rewrite app_nil_r.
    - cbn [forallb] in H. apply andb_prop in H as [Hc H].
      apply num_not_hyphen in Hc. unfold is_char in Hc. rewrite Hc.
      rewrite IH; auto. cbn [rev]. now rewrite <- app_assoc. }
  induction a as [|c a IH]; intros cur Ha Hb'; cbn [app split_from].
  - rewrite N.eqb_refl, Hb; auto. now rewrite app_nil_r.
  - cbn [forallb] in Ha. apply andb_prop in Ha as [Hc Ha].
    apply num_not_hyphen in Hc. unfold is_char in Hc. rewrite Hc.
    rewrite IH; auto. cbn [rev]. now rewrite <- app_assoc.
Qed.

(** The scan of what follows the name in a fully formed line. *)
Lemma scan_tail_full sep value ws1 unit ws2 low high g :
  forallb sep_class sep = true ->
  value <> [] -> forallb num_class value = true ->
  forallb is_space ws1 = true ->
  unit <> [] -> forallb unit_class unit = true ->
  forallb is_space ws2 = true ->
  low <> [] -> forallb num_class low = true ->
  high <> [] -> forallb num_class high = true ->
  scan_tail (sep ++ value ++ ws1 ++ unit ++ ws2 ++
             0x28%N :: low ++ 0x2D%N :: high ++ [0x29%N]) g
  = (4%nat, low ++ 0x2D%N :: high) :: (3%nat, unit) :: (2%nat, value) :: g.
Proof.
  intros Hsep Hv Hvalue Hws1 Hu Hunit Hws2 Hl Hlow Hh Hhigh.
  unfold scan_tail.
  rewrite (@drop_while_run sep_class sep); auto.
  2:{ now apply stops_nonempty_run with (q := num_class); auto using num_not_sep. }
  assert (S1 : stops num_class (ws1 ++ unit ++ ws2 ++
                                0x28%N :: low ++ 0x2D%N :: high ++ [0x29%N])).
  { apply stops_run with (q := is_space); auto using space_not_num.
    now apply stops_nonempty_run with (q := unit_class); auto using unit_not_num. }
  rewrite (@take_while_run num_class value), (@drop_while_run num_class value); auto.
  rewrite (@drop_while_run is_space ws1); auto.
  2:{ now apply stops_nonempty_run with (q := unit_class); auto using unit_not_space. }
  assert (S2 : stops unit_class (ws2 ++ 0x28%N :: low ++ 0x2D%N :: high ++ [0x29%N])).
  { apply stops_run with (q := is_space); auto using space_not_unit. reflexivity. }
  rewrite (@take_while_run unit_class unit), (@drop_while_run unit_class unit); auto.
  rewrite (@drop_while_run is_space ws2); auto; [|reflexivity].
  cbn [skip_paren]. rewrite N.eqb_refl.
  unfold scan_range.
  rewrite (@take_while_run num_class low), (@drop_while_run num_class low);
    auto; try apply num_class_hyphen.
  rewrite (@take_while_run num_class high); auto; [|reflexivity].
  rewrite N.eqb_refl.
  apply nonempty_true in Hu, Hl, Hh. rewrite Hu, Hl, Hh. reflexivity.
Qed.


Lemma strip_class (p : char -> bool) s :
  (forall c, p c = true -> is_space c = false) ->
  forallb p s = true -> strip s = s.
Proof.
  intros Hp Hs. rewrite forallb_forall in Hs. apply strip_fixed.
  - intros c s' ->. apply Hp, Hs. now left.
  - intros c s' E. apply Hp, Hs, in_rev. rewrite E. now left.
Qed.

Lemma strip_range low high :
  forallb num_class low = true -> forallb num_class high = true ->
  strip (low ++ 0x2D%N :: high) = low ++ 0x2D%N :: high.
Proof.
  intros Hl Hh.
  apply strip_class with (p := fun c => num_class c || (c =? 0x2D)%N).
  - intros c [H|H]%orb_true_iff; [now apply num_class_not_space|].
    apply N.eqb_eq in H. now subst.
  - rewrite forallb_forall in *. intros c [H|[<-|H]]%in_app_iff.
    + now rewrite Hl.
    + now rewrite N.eqb_refl, orb_true_r.
    + now rewrite Hh.
Qed.

(** X12: a line that starts with a plain name, separators and a value that
    [float] accepts always yields a record, whatever follows the value (as
    long as it ends the run of digits and dots and the line does not end in
    whitespace): the record carries the name in upper case and the value
    text unchanged.  With nothing after the value, unit and range are empty
    and the flag is false. *)
Theorem X12_name_and_value_recovered results name sep value tail v :
  plain_name name ->
  sep <> [] -> forallb sep_class sep = true ->
  value <> [] -> forallb num_class value = true ->
  stops num_class tail -> stops is_space (rev tail) ->
  float value = Ok v ->
  (exists unit range,
     parse_line results (name ++ sep ++ value ++ tail)
     = Ok (results ++
           [make_record (upper name) value range unit (out_of_range_flag v range)])) /\
  parse_line results (name ++ sep ++ value)
  = Ok (results ++ [make_record (upper name) value [] [] false]).
Proof.
  intros Hname Hs Hsep Hv Hvalue Htail Hend Hfloat. split.
  - do 2 eexists. now apply parse_line_plain.
  - pose proof (@parse_line_plain results name sep value [] v
                  Hname Hs Hsep Hv Hvalue I I Hfloat) as H.
    unfold scan_tail in H.
    rewrite (@drop_while_run sep_class sep (value ++ [])) in H; auto.
    2:{ now apply stops_nonempty_run with (q := num_class); auto using num_not_sep. }
    rewrite (@take_while_run num_class value []),
            (@drop_while_run num_class value []) in H by (auto; exact I).
    rewrite !app_nil_r in H. exact H.
Qed.

(** X13: a line of the full shape [name sep value unit (low-high)], with
    optional spaces around the unit, yields exactly the record with the name
    in upper case, the value text, the unit, the range [low-high] without its
    parentheses, and the flag computed from them; when both bounds parse, the
    flag says that the value is below [low] or above [high]. *)
Theorem X13_wellformed_line results name sep value ws1 unit ws2 low high v :
  plain_name name ->
  sep <> [] -> forallb sep_class sep = true ->
  value <> [] -> forallb num_class value = true ->
  forallb is_space ws1 = true ->
  unit <> [] -> forallb unit_class unit = true ->
  forallb is_space ws2 = true ->
  low <> [] -> forallb num_class low = true ->
  high <> [] -> forallb num_class high = true ->
  float value = Ok v ->
  parse_line results
    (name ++ sep ++ value ++ ws1 ++ unit ++ ws2 ++
     0x28%N :: low ++ 0x2D%N :: high ++ [0x29%N])
  = Ok (results ++
        [make_record (upper name) value (low ++ 0x2D%N :: high) unit
           (out_of_range_flag v (low ++ 0x2D%N :: high))]) /\
  (forall lo hi,
     float low = Ok lo -> float high = Ok hi ->
     out_of_range_flag v (low ++ 0x2D%N :: high) = flt v lo || fgt v hi).
Proof.
  intros Hname Hs Hsep Hv Hvalue Hws1 Hu Hunit Hws2 Hl Hlow Hh Hhigh Hfloat.
  split.
  - set (tail := ws1 ++ unit ++ ws2 ++ 0x28%N :: low ++ 0x2D%N :: high ++ [0x29%N]).
    assert (S1 : stops num_class tail).
    { apply stops_run with (q := is_space); auto using space_not_num.
      now apply stops_nonempty_run with (q := unit_class); auto using unit_not_num. }
    assert (S2 : stops is_space (rev tail)).
    { replace tail
        with ((ws1 ++ unit ++ ws2 ++ 0x28%N :: low ++ 0x2D%N :: high) ++ [0x29%N])
        by (unfold tail; repeat (rewrite <- app_assoc; cbn [app]); reflexivity).
      rewrite rev_app_distr. reflexivity. }
    rewrite (@parse_line_plain results name sep value tail v); auto.
    unfold tail. rewrite scan_tail_full; auto.
    cbn [group Nat.eqb if_truthy].
    pose proof Hu as Hu'. apply nonempty_true in Hu'. rewrite Hu'.
    replace (nonempty (low ++ 0x2D%N :: high)) with true
      by (destruct low; [congruence|reflexivity]).
    rewrite strip_range by auto.
    rewrite (@strip_class unit_class unit) by auto using unit_not_space.
    reflexivity.
  - intros lo hi Hlo Hhi.
    unfold out_of_range_flag, range_check, split.
    replace (nonempty (low ++ 0x2D%N :: high)) with true
      by (destruct low; [congruence|reflexivity]).
    rewrite split_from_two by auto. cbn [rev app map unpack2].
    rewrite Hlo, Hhi. cbn [bind].
    apply outside_interval; apply is_nonneg_number_not_nan.
    + exact (float_num_class _ Hvalue Hfloat).
    + exact (float_num_class _ Hlow Hlo).
    + exact (float_num_class _ Hhigh Hhi).
Qed.


(** ** Reversed ranges *)

(** X14: a range written the wrong way round flags everything.  For a
    record whose range halves parse as numbers with [low > high], the flag is
    true whatever the value is. *)
Theorem X14_reversed_range_flags_every_value text rs d range low_s high_s low high :
  parse_lab_tests text = Ok rs -> In d rs ->
  getitem d "bio_reference_range" = Ok (VStr range) ->
  split 0x2D%N range = [low_s; high_s] ->
  float low_s = Ok low -> float high_s = Ok high ->
  fgt low high = true ->
  getitem d "lab_test_out_of_range" = Ok (VBool true).
Proof.
  intros Hrs Hd Hrange Hsplit Hlow Hhigh Hrev.
  destruct (@parse_lab_tests_records _ _ _ Hrs Hd) as (line & _ & He).
  apply emits_inv in He
    as (g1 & g2 & unit & range' & v & -> & _ & _ & _ & Hg2 & Hfloat & Hshape).
  cbn in Hrange. injection Hrange as <-.
  destruct Hshape as [->|(r & -> & Hr)]; [discriminate|].
  assert (Hne : nonempty (strip r) = true).
  { destruct (strip r); [discriminate|reflexivity]. }
  assert (Hflag : out_of_range_flag v (strip r) = negb (fle low v && fle v high)).
  { unfold out_of_range_flag, range_check. rewrite Hne, Hsplit.
    cbn [map unpack2]. rewrite Hlow, Hhigh. reflexivity. }
  cbn. rewrite Hflag. now rewrite reversed_outside.
Qed.


(** ** Batch processing: which files are images, and where their output goes *)

Lemma lower_from_app a b : forall before,
  exists x, lower_from before (a ++ b) = x ++ lower_from (before ++ a) b.
Proof.
  induction a as [|c a IH]; intros before; cbn [app lower_from].
  - exists []. now rewrite app_nil_r.
  - destruct (IH (before ++ [c])) as [x ->]. eexists.
    rewrite <- (app_assoc before [c] a), app_assoc. reflexivity.
Qed.

Lemma lower_from_ascii s : forall before,
  (forall c, In c s -> (c < 128)%N) -> lower_from before s = map ascii_lower s.
Proof.
  induction s as [|c s IH]; intros before H; cbn [lower_from map]; auto.
  replace (c <? 128)%N with true
    by (symmetry; apply N.ltb_lt, H; now left).
  cbn [app]. f_equal. apply IH. intros x Hx. apply H. now right.
Qed.

Lemma endswith_app a suffix : endswith (a ++ suffix) suffix = true.
Proof.
  unfold endswith. rewrite length_app.
  replace (List.length a + List.length suffix - List.length suffix)%nat
    with (List.length a) by lia.
  rewrite skipn_app, skipn_all, Nat.sub_diag.
  cbn [app skipn]. rewrite str_eqb_refl, andb_true_r.
  apply Nat.leb_le. lia.
Qed.

Lemma ascii_lower_cases c : ascii_lower c = c \/ (65 <= c <= 90 /\ ascii_lower c = c + 32)%N.
Proof.
  unfold ascii_lower, in_range.
  destruct ((65 <=? c)%N && (c <=? 90)%N) eqn:E; auto.
  apply andb_prop in E as [E1 E2]. apply N.leb_le in E1, E2. right. lia.
Qed.

Lemma ascii_lower_dot c : ascii_lower c = 0x2E%N -> c = 0x2E%N.
Proof. destruct (ascii_lower_cases c) as [->|[H ->]]; auto. lia. Qed.

Lemma ascii_lower_letter c :
  in_range 97 122 (ascii_lower c) = true ->
  c <> 0x2E%N /\ c <> 0x2F%N /\ (c < 128)%N.
Proof.
  unfold in_range. intros [H1 H2]%andb_prop. apply N.leb_le in H1, H2.
  destruct (ascii_lower_cases c) as [E|[H E]]; rewrite E in *; lia.
Qed.

(** Every image suffix is a dot followed by lower-case letters. *)
Lemma image_suffix_shape suffix :
  In suffix image_suffixes ->
  exists letters, suffix = 0x2E%N :: letters /\
                  forallb (in_range 97 122) letters = true.
Proof.
  intros H. exists (tl suffix).
  unfold image_suffixes in H. cbn [map In] in H.
  repeat destruct H as [<-|H]; try (split; vm_compute; reflexivity).
  destruct H.
Qed.

(** A name that ends, in any mix of cases, with an image suffix. *)
Lemma image_extension_shape ext :
  In (map ascii_lower ext) image_suffixes ->
  exists e, ext = 0x2E%N :: e /\ ~ In 0x2E%N e /\ ~ In 0x2F%N e /\
            forall c, In c ext -> (c < 128)%N.
Proof.
  intros H. destruct (@image_suffix_shape _ H) as (letters & E & Hl).
  destruct ext as [|c0 e]; [discriminate|]. cbn [map] in E.
  injection E as E0 E. apply ascii_lower_dot in E0. subst c0.
  assert (He : forall c, In c e -> c <> 0x2E%N /\ c <> 0x2F%N /\ (c < 128)%N).
  { intros c Hc. apply ascii_lower_letter.
    rewrite forallb_forall in Hl. apply Hl. rewrite <- E. now apply in_map. }
  exists e. split; [reflexivity|]. repeat split.
  - intros Hc. now apply He in Hc as (Hc & _).
  - intros Hc. now apply He in Hc as (_ & Hc & _).
  - intros c [<-|Hc]; [reflexivity|]. now apply He in Hc.
Qed.

Lemma is_image_name_ext stem ext :
  In (map ascii_lower ext) image_suffixes -> is_image_name (stem ++ ext) = true.
Proof.
  intros H. destruct (@image_extension_shape _ H) as (e & _ & _ & _ & Hascii).
  unfold is_image_name, lower. apply existsb_exists.
  exists (map ascii_lower ext). split; auto.
  destruct (lower_from_app stem ext []) as [x ->].
  rewrite (@lower_from_ascii ext _ Hascii). apply endswith_app.
Qed.

Lemma forallb_not_in (x : char) s :
  ~ In x s -> forallb (fun c => negb (c =? x)%N) s = true.
Proof.
  intros H. apply forallb_forall. intros c Hc.
  apply negb_true_iff, N.eqb_neq. intros ->. auto.
Qed.

(** The extension of a name: from a dot on, when no dot or slash follows it
    and the last component has something else than dots before it. *)
Lemma splitext_ext_last stem e :
  ~ In 0x2E%N e -> ~ In 0x2F%N e ->
  ~ In 0x2F%N stem -> (exists c, In c stem /\ c <> 0x2E%N) ->
  splitext_ext (stem ++ 0x2E%N :: e) = 0x2E%N :: e.
Proof.
  intros Hdot Hslash Hstem (c & Hc & Hcd). unfold splitext_ext.
  rewrite rev_app_distr. cbn [rev]. rewrite <- app_assoc. cbn [app].
  assert (He : forallb (fun c => negb (c =? 0x2E)%N) (rev e) = true).
  { apply forallb_not_in. now rewrite <- in_rev. }
  rewrite take_while_run, drop_while_run; auto; try (cbn; reflexivity).
  replace (existsb (N.eqb 0x2F) (rev e)) with false.
  2:{ symmetry. apply not_true_is_false. intros (x & Hx & E)%existsb_exists.
      apply N.eqb_eq in E. subst x. now apply in_rev in Hx. }
  pose proof (@take_while_run (fun c => negb (c =? 0x2F)%N) (rev stem) []) as Ht.
  rewrite app_nil_r in Ht. rewrite Ht.
  - replace (existsb (fun c => negb (c =? 0x2E)%N) (rev stem)) with true.
    + now rewrite rev_involutive.
    + symmetry. apply existsb_exists. exists c. split; [now apply in_rev in Hc|].
      now apply negb_true_iff, N.eqb_neq.
  - apply forallb_not_in. now rewrite <- in_rev.
  - exact I.
Qed.

(** A name that is nothing but an extension has none. *)
Lemma splitext_ext_hidden e :
  ~ In 0x2E%N e -> splitext_ext (0x2E%N :: e) = [].
Proof.
  intros Hdot. unfold splitext_ext. cbn [rev].
  assert (He : forallb (fun c => negb (c =? 0x2E)%N) (rev e) = true).
  { apply forallb_not_in. now rewrite <- in_rev. }
  rewrite take_while_run, drop_while_run; auto; try (cbn; reflexivity).
  cbn [take_while existsb]. now destruct (existsb _ _).
Qed.

Lemma path_join_relative (a b : str) (c : char) (b' : str) :
  b = c :: b' -> c <> 0x2F%N -> a <> [] -> last a 0%N <> 0x2F%N ->
  path_join a b = a ++ 0x2F%N :: b.
Proof.
  intros -> Hc Ha Hl. unfold path_join.
  apply N.eqb_neq in Hc. apply N.eqb_neq in Hl. rewrite Hc, Hl.
  apply nonempty_true in Ha. now rewrite Ha.
Qed.

(** X15: a file whose name is a stem followed by one of the six image
    extensions, in any mix of upper and lower case, is taken as an image;
    when the stem has no slash and is not made of dots only, its output goes
    to [output/<stem>.json], whatever the extension (so [scan.png] and
    [scan.JPG] share one output file); a name that is only an extension, such
    as [.png], keeps it: [output/.png.json]. *)
Theorem X15_image_output_path stem ext :
  In (map ascii_lower ext) image_suffixes ->
  is_image_name (stem ++ ext) = true /\
  (~ In 0x2F%N stem -> (exists c, In c stem /\ c <> 0x2E%N) ->
   output_path_of (stem ++ ext) = py "output/" ++ stem ++ py ".json") /\
  (is_image_name ext = true /\
   output_path_of ext = py "output/" ++ ext ++ py ".json").
Proof.
  intros H. pose proof (@image_extension_shape _ H) as (e & -> & Hdot & Hslash & _).
  split; [now apply is_image_name_ext|]. split.
  - intros Hstem Hc. unfold output_path_of, splitext_root.
    rewrite splitext_ext_last by auto.
    rewrite firstn_consumed.
    destruct Hc as (c & Hc & _). destruct stem as [|c0 stem']; [destruct Hc|].
    transitivity (OUTPUT_DIR ++ 0x2F%N :: (c0 :: stem') ++ py ".json");
      [|reflexivity].
    apply (@path_join_relative OUTPUT_DIR _ c0 (stem' ++ py ".json"));
      try reflexivity; try discriminate.
    intros ->. apply Hstem. now left.
  - split; [exact (@is_image_name_ext [] _ H)|].
    unfold output_path_of, splitext_root.
    rewrite splitext_ext_hidden by auto.
    rewrite Nat.sub_0_r, firstn_all.
    transitivity (OUTPUT_DIR ++ 0x2F%N :: (0x2E%N :: e) ++ py ".json");
      [|reflexivity].
    apply (@path_join_relative OUTPUT_DIR _ 0x2E%N (e ++ py ".json"));
      try reflexivity; discriminate.
Qed.


(** ** Batch processing: the loop *)

Lemma str_eqb_neq a b : a <> b -> str_eqb a b = false.
Proof. unfold str_eqb. now destruct (list_eq_dec N.eq_dec a b). Qed.

Lemma extract_text_failure backend image_path :
  internal_failure backend image_path ->
  extract_text_from_image backend image_path = Ok [].
Proof.
  unfold extract_text_from_image, try_except_Exception.
  intros [(e & H)|[H|(img & H & F)]]; rewrite H; cbn [bind]; auto.
  destruct F as [(e & Hg)|(gray & Hg & F)]; rewrite Hg; cbn [bind]; auto.
  destruct F as [(e & Hb)|(binary & Hb & F)]; rewrite Hb; cbn [bind]; auto.
  destruct F as [(e & Hm)|(denoised & Hm & e & Ht)]; rewrite Hm; cbn [bind]; auto.
  now rewrite Ht.
Qed.

Lemma image_report_inv backend file_name report :
  image_report backend file_name = Ok report ->
  exists text parsed,
    extract_text_from_image backend (path_join INPUT_DIR file_name) = Ok text /\
    parse_lab_tests text = Ok parsed /\ report = json_dumps parsed.
Proof.
  unfold image_report.
  destruct (extract_text_from_image _ _) as [text|] eqn:Et; [|discriminate].
  cbn [bind].
  destruct (parse_lab_tests text) as [parsed|] eqn:Ep; [|discriminate]. cbn [bind].
  intros E. injection E as <-. exists text, parsed. auto.
Qed.

Lemma image_report_total backend file_name :
  exists report, image_report backend file_name = Ok report.
Proof.
  unfold image_report.
  destruct (extract_text_total backend (path_join INPUT_DIR file_name)) as [text ->].
  cbn [bind]. destruct (parse_lab_tests_total text) as [parsed ->]. cbn [bind]. eauto.
Qed.

Lemma process_files_app h a : forall b k out,
  process_files h (a ++ b) k out
  = match process_files h a k out with
    | (Ok k', out') => process_files h b k' out'
    | (Raise e, out') => (Raise e, out')
    end.
Proof.
  induction a as [|f a IH]; intros b k out; cbn [app process_files]; auto.
  destruct (is_image_name f); auto.
  destruct (image_report _ f); auto. cbv zeta.
  destruct (open_w_result h k _); auto.
  destruct (write_result h k _ _) as [[e remains]|]; auto.
Qed.

(** A loop that ends normally has written one file per image name and has
    left all other paths alone. *)
Lemma process_files_ok h names : forall k out k' out',
  process_files h names k out = (Ok k', out') ->
  k' = (k + List.length (filter is_image_name names))%nat /\
  List.length out' = (List.length out + List.length (filter is_image_name names))%nat /\
  forall p, (forall f, In f names -> is_image_name f = true -> output_path_of f <> p) ->
            file_content out' p = file_content out p.
Proof.
  induction names as [|f names IH]; intros k out k' out'; cbn [process_files filter].
  - intros E. injection E as <- <-. cbn [List.length]. repeat split; auto; lia.
  - destruct (is_image_name f) eqn:Ef.
    + destruct (image_report _ f) as [report|]; [|discriminate]. cbv zeta.
      destruct (open_w_result h k _); [|discriminate].
      destruct (write_result h k _ _) as [[e remains]|]; [discriminate|].
      intros E. apply IH in E as (-> & -> & Hun). cbn [List.length].
      repeat split; try lia.
      intros p Hp. rewrite Hun by (intros g Hg; apply Hp; now right).
      cbn [file_content]. rewrite str_eqb_neq; auto.
      intros ->. apply (Hp f); auto. now left.
    + intros E. apply IH in E as (-> & -> & Hun). repeat split; auto.
      intros p Hp. apply Hun. intros g Hg. apply Hp. now right.
Qed.

(** ... and each output path holds what the last image that goes there
    gave. *)
Lemma process_files_last h pre f post k out k' out' :
  process_files h (pre ++ f :: post) k out = (Ok k', out') ->
  is_image_name f = true ->
  (forall g, In g post -> is_image_name g = true ->
             output_path_of g <> output_path_of f) ->
  exists report,
    image_report (batch_cv h) f = Ok report /\
    file_content out' (output_path_of f) = Some report.
Proof.
  intros E Hf Hpost. rewrite process_files_app in E.
  destruct (process_files h pre k out) as [[k1|e] out1]; [|discriminate].
  cbn [process_files] in E. rewrite Hf in E.
  destruct (image_report _ f) as [report|]; [|discriminate]. cbv zeta in E.
  destruct (open_w_result h k1 _); [|discriminate].
  destruct (write_result h k1 _ _) as [[e remains]|]; [discriminate|].
  apply process_files_ok in E as (_ & _ & Hun).
  exists report. split; auto. rewrite Hun by auto.
  cbn [file_content]. now rewrite str_eqb_refl.
Qed.

Lemma process_all_images_ok h names out out' :
  input_exists h = true -> listdir_result h = Ok names ->
  process_all_images h out = (Ok tt, out') ->
  exists k, process_files h names 0 out = (Ok k, out').
Proof.
  unfold process_all_images. intros -> ->.
  destruct (makedirs_result h); [|discriminate]. cbn [negb].
  destruct (process_files h names 0 out) as [[k|e] out1]; [|discriminate].
  intros E. injection E as <-. eauto.
Qed.

(** X16: after a batch that ends normally, the output file of an image
    holds the JSON text of the records parsed from the text read off the
    last listed image that goes to that path (an earlier image with the same
    output path is overwritten), and every path that is the output of no
    listed image is as it was before. *)
Theorem X16_batch_outputs h names out out' :
  input_exists h = true -> listdir_result h = Ok names ->
  process_all_images h out = (Ok tt, out') ->
  (forall pre f post,
     names = pre ++ f :: post -> is_image_name f = true ->
     (forall g, In g post -> is_image_name g = true ->
                output_path_of g <> output_path_of f) ->
     exists text parsed,
       extract_text_from_image (batch_cv h) (path_join INPUT_DIR f) = Ok text /\
       parse_lab_tests text = Ok parsed /\
       file_content out' (output_path_of f) = Some (json_dumps parsed)) /\
  (forall p,
     (forall f, In f names -> is_image_name f = true -> output_path_of f <> p) ->
     file_content out' p = file_content out p).
Proof.
  intros He Hl H. destruct (@process_all_images_ok _ _ _ _ He Hl H) as [k Hk]. split.
  - intros pre f post -> Hf Hpost.
    destruct (@process_files_last _ _ _ _ _ _ _ _ Hk Hf Hpost) as (report & Hr & Hc).
    destruct (@image_report_inv _ _ _ Hr) as (text & parsed & Ht & Hp & ->). eauto.
  - now apply process_files_ok in Hk as (_ & _ & Hun).
Qed.

(** X17: one output file that cannot be written stops the whole batch.
    When the files listed before an image have been processed, and opening
    the output file of that image fails, the batch raises that exception, the
    output directory is as the earlier files left it, and nothing listed
    after the image is processed; when the file opens but writing it fails,
    the batch raises too, leaving in that file what the failed write left. *)
Theorem X17_batch_stops_at_first_failure h pre f post out k out1 :
  makedirs_result h = Ok tt -> input_exists h = true ->
  listdir_result h = Ok (pre ++ f :: post) ->
  process_files h pre 0 out = (Ok k, out1) ->
  is_image_name f = true ->
  (forall e,
     open_w_result h k (output_path_of f) = Raise e ->
     process_all_images h out = (Raise e, out1)) /\
  (forall text parsed e remains,
     extract_text_from_image (batch_cv h) (path_join INPUT_DIR f) = Ok text ->
     parse_lab_tests text = Ok parsed ->
     open_w_result h k (output_path_of f) = Ok tt ->
     write_result h k (output_path_of f) (json_dumps parsed) = Some (e, remains) ->
     process_all_images h out = (Raise e, (output_path_of f, remains) :: out1)).
Proof.
  intros Hm He Hl Hpre Hf. unfold process_all_images.
  rewrite Hm, He, Hl. cbn [negb]. rewrite process_files_app, Hpre.
  cbn [process_files]. rewrite Hf. split.
  - intros e Ho. destruct (image_report_total (batch_cv h) f) as [report ->].
    cbv zeta. now rewrite Ho.
  - intros text parsed e remains Ht Hp Ho Hw.
    unfold image_report. rewrite Ht. cbn [bind]. rewrite Hp. cbn [bind]. cbv zeta.
    now rewrite Ho, Hw.
Qed.

(** X18: neither the OCR nor the parser can stop a batch.  When the output
    directory can be made, a missing input directory ends the batch normally
    with nothing written; and when the listing and every opening and writing
    of an output file succeed, the batch ends normally whatever the OCR
    backend does, having written one file for each listed name that is an
    image name. *)
Theorem X18_batch_ends_normally h out :
  makedirs_result h = Ok tt ->
  (input_exists h = false -> process_all_images h out = (Ok tt, out)) /\
  (forall names,
     input_exists h = true -> listdir_result h = Ok names ->
     (forall k p, open_w_result h k p = Ok tt) ->
     (forall k p text, write_result h k p text = None) ->
     exists out',
       process_all_images h out = (Ok tt, out') /\
       List.length out'
       = (List.length out + List.length (filter is_image_name names))%nat).
Proof.
  intros Hm. unfold process_all_images. rewrite Hm. split.
  - now intros ->.
  - intros names -> -> Ho Hw. cbn [negb].
    assert (H : forall names k out, exists k' out',
               process_files h names k out = (Ok k', out')).
    { clear names out. induction names as [|f names IH]; intros k out;
        cbn [process_files]; eauto.
      destruct (is_image_name f); auto.
      destruct (image_report_total (batch_cv h) f) as [report ->]. cbv zeta.
      now rewrite Ho, Hw. }
    destruct (H names 0%nat out) as (k' & out' & E). rewrite E.
    exists out'. split; auto. now apply process_files_ok in E as (_ & E & _).
Qed.

(** X19: an image that cannot be read still gets an output file.  After a
    batch that ends normally, the output file of an image on which the OCR
    fails (unless a later image has the same output path) holds the empty
    JSON list. *)
Theorem X19_unreadable_image_gives_empty_list h pre f post out out' :
  input_exists h = true -> listdir_result h = Ok (pre ++ f :: post) ->
  process_all_images h out = (Ok tt, out') ->
  is_image_name f = true ->
  (forall g, In g post -> is_image_name g = true ->
             output_path_of g <> output_path_of f) ->
  internal_failure (batch_cv h) (path_join INPUT_DIR f) ->
  file_content out' (output_path_of f) = Some (py "[]").
Proof.
  intros He Hl H Hf Hpost Hfail.
  destruct (@process_all_images_ok _ _ _ _ He Hl H) as [k Hk].
  destruct (@process_files_last _ _ _ _ _ _ _ _ Hk Hf Hpost) as (report & Hr & ->).
  unfold image_report in Hr. rewrite (@extract_text_failure _ _ Hfail) in Hr.
  cbn in Hr. now injection Hr as <-.
Qed.

End Pipeline.

(** ** The sample character database satisfies the assumptions *)

Lemma sample_todecimal_digit c d : sample_todecimal c = Some d -> (d < 10)%N.
Proof.
  unfold sample_todecimal. destruct (in_range 1632 1641 c) eqn:E; [|discriminate].
  intros H. injection H as <-. N_cases.
Qed.

Lemma sample_todecimal_not_space c d : sample_todecimal c = Some d -> is_space c = false.
Proof.
  unfold sample_todecimal. destruct (in_range 1632 1641 c) eqn:E; [|discriminate].
  intros _. N_cases.
Qed.

Lemma sample_toupper_nonempty c : (128 <= c)%N -> sample_toupper c <> [].
Proof.
  intros _. unfold sample_toupper.
  destruct (c =? 223)%N; [discriminate|]. destruct (_ && _); discriminate.
Qed.

Lemma sample_toupper_not_space c x :
  (128 <= c)%N -> is_space c = false -> In x (sample_toupper c) -> is_space x = false.
Proof.
  intros _ Hc. unfold sample_toupper.
  destruct (c =? 223)%N.
  - intros [<-|[<-|[]]]; reflexivity.
  - destruct (in_range 224 254 c && negb (c =? 247)%N) eqn:E.
    + intros [<-|[]]. apply andb_prop in E as [E _]. clear Hc. N_cases.
    + now intros [<-|[]].
Qed.

Lemma sample_toupper_fixed c x :
  (128 <= c)%N -> In x (sample_toupper c) -> toupper sample_toupper x = [x].
Proof.
  intros Hc. unfold sample_toupper at 1.
  destruct (c =? 223)%N eqn:E1.
  - intros [<-|[<-|[]]]; reflexivity.
  - destruct (in_range 224 254 c && negb (c =? 247)%N) eqn:E2.
    + intros [<-|[]]. apply andb_prop in E2 as [E2 E3].
      unfold toupper, sample_toupper.
      replace (c - 32 <? 128)%N with false by (symmetry; N_cases).
      replace (c - 32 =? 223)%N with false by (symmetry; clear E3; N_cases).
      replace (in_range 224 254 (c - 32)) with false by (symmetry; clear E3; N_cases).
      reflexivity.
    + intros [<-|[]]. unfold toupper, sample_toupper.
      replace (c <? 128)%N with false by (symmetry; now apply N.ltb_ge).
      now rewrite E1, E2.
Qed.

(** ** The theorems at concrete inputs *)

Lemma C1_flag_iff_outside_range_witness :
  exists low high v,
    float sample_todecimal (py "13.0") = Ok low /\
    float sample_todecimal (py "17.0") = Ok high /\
    float sample_todecimal (py "9.5") = Ok v /\
    getitem hemoglobin_record "lab_test_out_of_range"
    = Ok (VBool (flt v low || fgt v high)).
Proof.
  assert (Hlow : float sample_todecimal (py "13.0")
                 = Ok (FFinite false 7318349394477056 (-49)))
    by (vm_compute; reflexivity).
  assert (Hhigh : float sample_todecimal (py "17.0")
                  = Ok (FFinite false 4785074604081152 (-48)))
    by (vm_compute; reflexivity).
  assert (Hrs : parse_lab_tests sample_todecimal sample_toupper hemoglobin_line
                = Ok [hemoglobin_record])
    by (vm_compute; reflexivity).
  assert (Hne : py "13.0-17.0" <> []) by discriminate.
  destruct (@C1_flag_iff_outside_range sample_todecimal sample_toupper
              sample_todecimal_digit hemoglobin_line [hemoglobin_record]
              hemoglobin_record (py "9.5") (py "13.0-17.0") (py "13.0") (py "17.0")
              _ _ Hrs (or_introl eq_refl) eq_refl eq_refl Hne eq_refl Hlow Hhigh)
    as (v & Hv & Hflag & _).
  exists (FFinite false 7318349394477056 (-49)),
         (FFinite false 4785074604081152 (-48)), v.
  auto.
Defined.

Lemma C2_unusable_range_in_range_witness :
  float sample_todecimal (py "1.2.3") = Raise ValueError /\
  getitem (make_record (py "X") (py "5") (py "1.2.3-4") [] false) "lab_test_out_of_range"
  = Ok (VBool false).
Proof.
  assert (Hbad : float sample_todecimal (py "1.2.3") = Raise ValueError)
    by (vm_compute; reflexivity).
  split; [exact Hbad|].
  apply (proj2 (C2_unusable_range_in_range sample_todecimal sample_toupper
                  (py "X 5 (1.2.3-4)"))
           [make_record (py "X") (py "5") (py "1.2.3-4") [] false] _ (py "1.2.3-4")).
  - vm_compute. reflexivity.
  - left. reflexivity.
  - reflexivity.
  - right. exists (py "1.2.3"), ValueError. split; [left; reflexivity|exact Hbad].
Defined.

Lemma C3_total_and_skips_witness :
  has_value_token sample_todecimal (strip (py "~~ scanned page ~~")) = false /\
  for_each (parse_line sample_todecimal sample_toupper)
           ([] ++ py "~~ scanned page ~~" :: [hemoglobin_line]) []
  = for_each (parse_line sample_todecimal sample_toupper) ([] ++ [hemoglobin_line]) [].
Proof.
  assert (H : has_value_token sample_todecimal (strip (py "~~ scanned page ~~")) = false)
    by (vm_compute; reflexivity).
  split; [exact H|].
  apply (proj2 (C3_total_and_skips sample_todecimal sample_toupper)).
  right. right. left. exact H.
Defined.

Lemma C4_name_and_value_wellformed_witness :
  exists name value,
    getitem hemoglobin_record "test_name" = Ok (VStr name) /\
    getitem hemoglobin_record "test_value" = Ok (VStr value) /\
    name <> [] /\ strip name = name /\ upper sample_toupper name = name /\
    value <> [] /\ strip value = value.
Proof.
  apply (proj1 (C4_name_and_value_wellformed sample_todecimal sample_toupper
                  sample_toupper_nonempty sample_toupper_not_space
                  sample_toupper_fixed)
           hemoglobin_line [hemoglobin_record]).
  - vm_compute. reflexivity.
  - left. reflexivity.
Defined.

Lemma C6_extract_text_never_raises_witness :
  internal_failure undecodable (py "scan.png") /\
  extract_text_from_image undecodable (py "scan.png") = Ok [].
Proof.
  assert (H : internal_failure undecodable (py "scan.png")).
  { right. left. reflexivity. }
  split; [exact H|].
  apply (proj1 (proj2 (C6_extract_text_never_raises undecodable (py "scan.png")))).
  exact H.
Defined.

Lemma C7_record_only_if_value_parses_witness :
  exists v,
    float sample_todecimal (py "9.5") = Ok v /\ is_nonneg_number v = true /\
    ((List.length (py "9.5") <= 307)%nat -> is_finite v = true).
Proof.
  apply (proj1 (C7_record_only_if_value_parses sample_todecimal sample_toupper
                  sample_todecimal_digit)
           hemoglobin_line [hemoglobin_record] hemoglobin_record).
  - vm_compute. reflexivity.
  - left. reflexivity.
  - reflexivity.
Defined.

Lemma C10_value_and_range_charset_witness :
  exists value range,
    getitem hemoglobin_record "test_value" = Ok (VStr value) /\
    getitem hemoglobin_record "bio_reference_range" = Ok (VStr range) /\
    (forall c, In c value ->
       num_class sample_todecimal c = true /\ is_space c = false /\
       c <> 0x2B%N /\ c <> 0x2D%N /\ c <> 0x65%N /\ c <> 0x45%N) /\
    (range = [] \/
     exists a b,
       range = a ++ [0x2D%N] ++ b /\ a <> [] /\ b <> [] /\
       forallb (num_class sample_todecimal) a = true /\
       forallb (num_class sample_todecimal) b = true /\
       ~ In 0x2D%N a /\ ~ In 0x2D%N b).
Proof.
  apply (@C10_value_and_range_charset sample_todecimal sample_toupper
           sample_todecimal_not_space hemoglobin_line [hemoglobin_record]).
  - vm_compute. reflexivity.
  - left. reflexivity.
Defined.

(** C1 as stated fails: in the range [4.0-0.4] the value [4.0] equals the
    lower bound, and the record is flagged as out of range. *)
Lemma C1_counterexample :
  exists d v low,
    parse_lab_tests sample_todecimal sample_toupper (py "X 4.0 (4.0-0.4)") = Ok [d] /\
    getitem d "test_value" = Ok (VStr (py "4.0")) /\
    getitem d "bio_reference_range" = Ok (VStr (py "4.0-0.4")) /\
    split 0x2D%N (py "4.0-0.4") = [py "4.0"; py "0.4"] /\
    float sample_todecimal (py "4.0") = Ok v /\
    float sample_todecimal (py "4.0") = Ok low /\
    fcompare v low = Some Eq /\
    getitem d "lab_test_out_of_range" = Ok (VBool true).
Proof.
  exists (make_record (py "X") (py "4.0") (py "4.0-0.4") [] true),
         (FFinite false 4503599627370496 (-50)),
         (FFinite false 4503599627370496 (-50)).
  repeat split; vm_compute; reflexivity.
Qed.

(** C7 as stated fails: a value token of four hundred nines is accepted by
    [float], which returns an infinity, and the record is emitted. *)
Lemma C7_counterexample :
  exists d,
    parse_lab_tests sample_todecimal sample_toupper (py "A " ++ huge_value) = Ok [d] /\
    getitem d "test_value" = Ok (VStr huge_value) /\
    float sample_todecimal huge_value = Ok (FInf false) /\
    is_finite (FInf false) = false.
Proof.
  eexists. split; [vm_compute; reflexivity|].
  split; [reflexivity|]. split; [vm_compute; reflexivity|reflexivity].
Qed.


Lemma X4_unit_charset_witness :
  exists unit,
    getitem hemoglobin_record "test_unit" = Ok (VStr unit) /\
    forallb unit_class unit = true.
Proof.
  apply (@X4_unit_charset sample_todecimal sample_toupper hemoglobin_line
           [hemoglobin_record]).
  - vm_compute. reflexivity.
  - left. reflexivity.
Defined.

Lemma X6_blank_text_no_records_witness :
  forallb is_space (py "  ") = true /\
  parse_lab_tests sample_todecimal sample_toupper (py "  ") = Ok [].
Proof.
  assert (H : forallb is_space (py "  ") = true) by reflexivity.
  split; [exact H|]. now apply X6_blank_text_no_records.
Defined.


Lemma X7_handler_answers_witness :
  (exists text,
     extract_text_from_image (cv healthy)
       (upload_path healthy (Some (py "scan.png"))) = Ok text /\
     parse_lab_tests sample_todecimal sample_toupper text = Ok [hemoglobin_record]) /\
  has_path [] (upload_path healthy (Some (py "scan.png"))) = false.
Proof.
  apply (proj2 (proj2 (X7_handler_answers sample_todecimal sample_toupper
                         healthy (Some (py "scan.png")) []))).
  vm_compute. reflexivity.
Defined.

Lemma X8_handler_success_restores_directory_witness :
  exists text rs,
    extract_text_from_image (cv healthy)
      (upload_path healthy (Some (py "scan.png"))) = Ok text /\
    parse_lab_tests sample_todecimal sample_toupper text = Ok rs /\
    get_lab_tests sample_todecimal sample_toupper healthy (Some (py "scan.png")) []
    = (Ok (Success rs), []).
Proof.
  apply (@X8_handler_success_restores_directory sample_todecimal sample_toupper
           healthy (Some (py "scan.png")) [] tt tt tt); reflexivity.
Defined.

Lemma X9_upload_path_confined_witness :
  exists ext,
    upload_path healthy (Some (py "../../etc/report.final.PNG"))
    = py "temp_uploads/" ++ uuid4 healthy ++ ext /\
    ~ In 0x2F%N ext /\
    (ext = [] \/ exists rest, ext = 0x2E%N :: rest).
Proof.
  apply X9_upload_path_confined.
  cbn. intuition discriminate.
Defined.


Lemma X10_pattern_is_scanner_witness :
  re_match (pattern sample_todecimal) hemoglobin_line
  = scan_line sample_todecimal hemoglobin_line.
Proof.
  apply (@X10_pattern_is_scanner sample_todecimal sample_todecimal_not_space).
Defined.

Lemma X11_value_is_first_token_witness :
  exists name rest,
    py "VITAMIN B 12 540 pg/mL" = name ++ rest /\
    group [(2%nat, py "12"); (1%nat, py "VITAMIN B")] 1 = Some name /\
    group [(2%nat, py "12"); (1%nat, py "VITAMIN B")] 2
    = Some (take_while (num_class sample_todecimal) (drop_while sep_class rest)) /\
    token_at sample_todecimal rest = true /\
    (forall pre suf, name = pre ++ suf -> suf <> [] ->
                     token_at sample_todecimal (suf ++ rest) = false).
Proof.
  apply (@X11_value_is_first_token sample_todecimal sample_todecimal_not_space
           (py "VITAMIN B 12 540 pg/mL")).
  vm_compute. reflexivity.
Defined.


Lemma X12_name_and_value_recovered_witness :
  exists unit range,
    parse_line sample_todecimal sample_toupper [] (py "Glucose: 5.6 mmol/L")
    = Ok [make_record (py "GLUCOSE") (py "5.6") range unit
            (out_of_range_flag sample_todecimal
               (FFinite false 6305039478318694 (-50)) range)].
Proof.
  assert (Hname : plain_name sample_todecimal (py "Glucose")).
  { repeat split; try discriminate; try (vm_compute; reflexivity).
    - intros c s' E. injection E as <- _. reflexivity.
    - intros c s' E. vm_compute in E. injection E as <- _. reflexivity. }
  assert (Hfloat : float sample_todecimal (py "5.6")
                   = Ok (FFinite false 6305039478318694 (-50)))
    by (vm_compute; reflexivity).
  destruct (@X12_name_and_value_recovered sample_todecimal sample_toupper
              sample_todecimal_not_space sample_toupper_nonempty
              [] (py "Glucose") (py ": ") (py "5.6") (py " mmol/L") _
              Hname ltac:(discriminate) eq_refl ltac:(discriminate) eq_refl
              eq_refl eq_refl Hfloat) as [(unit & range & H) _].
  exists unit, range. exact H.
Defined.

Lemma X13_wellformed_line_witness :
  parse_line sample_todecimal sample_toupper [] (py "Hemoglobin:  9.5 g/dL (13.0-17.0)")
  = Ok [make_record (py "HEMOGLOBIN") (py "9.5") (py "13.0-17.0") (py "g/dL")
          (out_of_range_flag sample_todecimal
             (FFinite false 5348024557502464 (-49)) (py "13.0-17.0"))].
Proof.
  assert (Hname : plain_name sample_todecimal (py "Hemoglobin")).
  { repeat split; try discriminate; try (vm_compute; reflexivity).
    - intros c s' E. injection E as <- _. reflexivity.
    - intros c s' E. vm_compute in E. injection E as <- _. reflexivity. }
  assert (Hfloat : float sample_todecimal (py "9.5")
                   = Ok (FFinite false 5348024557502464 (-49)))
    by (vm_compute; reflexivity).
  exact (proj1 (@X13_wellformed_line sample_todecimal sample_toupper
                  sample_todecimal_digit sample_todecimal_not_space
                  sample_toupper_nonempty
                  [] (py "Hemoglobin") (py ":  ") (py "9.5") (py " ") (py "g/dL")
                  (py " ") (py "13.0") (py "17.0") _
                  Hname ltac:(discriminate) eq_refl ltac:(discriminate) eq_refl
                  eq_refl ltac:(discriminate) eq_refl eq_refl
                  ltac:(discriminate) eq_refl ltac:(discriminate) eq_refl Hfloat)).
Defined.


Lemma X1_format_output_projects_witness :
  List.length [hemoglobin_record]
  = List.length [(("note", VStr (py "fasting")) :: hemoglobin_record)%string] /\
  (forall i entry d,
     nth_error [(("note", VStr (py "fasting")) :: hemoglobin_record)%string] i
     = Some entry ->
     nth_error [hemoglobin_record] i = Some d ->
     map fst d = required_keys /\
     forall k, In k required_keys -> getitem d k = getitem entry k) /\
  format_output [hemoglobin_record] = Ok [hemoglobin_record].
Proof.
  apply (@X1_format_output_projects
           [(("note", VStr (py "fasting")) :: hemoglobin_record)%string]
           [hemoglobin_record]).
  vm_compute. reflexivity.
Defined.

Lemma X2_format_output_missing_field_witness :
  format_output
    ([hemoglobin_record] ++
     [("test_unit", VStr (py "mg/dL"))%string] :: [hemoglobin_record])
  = Raise (KeyError "test_name").
Proof.
  destruct (@X2_format_output_missing_field
              [hemoglobin_record] [("test_unit", VStr (py "mg/dL"))%string]
              [hemoglobin_record] "lab_test_out_of_range"%string)
    as (earlier & missing & later & Hkeys & Hearlier & _ & Hraise).
  - intros d [<-|[]]. eexists. reflexivity.
  - vm_compute. auto 10.
  - reflexivity.
  - destruct earlier as [|k earlier]; cbn [app] in Hkeys; injection Hkeys as <- _.
    + exact Hraise.
    + destruct (Hearlier "test_name"%string (or_introl eq_refl)) as [v Hv].
      discriminate Hv.
Defined.


Lemma X14_reversed_range_flags_every_value_witness :
  getitem (make_record (py "TSH") (py "2.5") (py "4.0-0.4") (py "mIU/L") true)
          "lab_test_out_of_range"
  = Ok (VBool true).
Proof.
  assert (Hlow : float sample_todecimal (py "4.0")
                 = Ok (FFinite false 4503599627370496 (-50)))
    by (vm_compute; reflexivity).
  assert (Hhigh : float sample_todecimal (py "0.4")
                  = Ok (FFinite false 7205759403792794 (-54)))
    by (vm_compute; reflexivity).
  assert (Hrs : parse_lab_tests sample_todecimal sample_toupper
                  (py "TSH 2.5 mIU/L (4.0-0.4)")
                = Ok [make_record (py "TSH") (py "2.5") (py "4.0-0.4") (py "mIU/L") true])
    by (vm_compute; reflexivity).
  exact (@X14_reversed_range_flags_every_value sample_todecimal sample_toupper
           (py "TSH 2.5 mIU/L (4.0-0.4)") _ _ (py "4.0-0.4") (py "4.0") (py "0.4")
           _ _ Hrs (or_introl eq_refl) eq_refl eq_refl Hlow Hhigh eq_refl).
Defined.


Lemma X15_image_output_path_witness :
  is_image_name sample_tolower (py "scan.JPG") = true /\
  output_path_of (py "scan.JPG") = py "output/scan.json".
Proof.
  destruct (@X15_image_output_path sample_tolower (py "scan") (py ".JPG"))
    as (H1 & H2 & _).
  - vm_compute. auto 10.
  - split; [exact H1|]. apply H2.
    + intros H. vm_compute in H. intuition discriminate.
    + exists 0x73%N. split; [now left|discriminate].
Defined.

Lemma X16_batch_outputs_witness :
  exists text parsed,
    extract_text_from_image reads_scan_jpg (py "lbmaske/scan.JPG") = Ok text /\
    parse_lab_tests sample_todecimal sample_toupper text = Ok parsed /\
    file_content
      [(py "output/old.json", py "[]");
       (py "output/scan.json", json_dumps [hemoglobin_record]);
       (py "output/scan.json", py "[]")]
      (py "output/scan.json")
    = Some (json_dumps parsed).
Proof.
  assert (H : process_all_images sample_todecimal sample_toupper sample_tolower
                lab_folder []
              = (Ok tt, [(py "output/old.json", py "[]");
                         (py "output/scan.json", json_dumps [hemoglobin_record]);
                         (py "output/scan.json", py "[]")]))
    by (vm_compute; reflexivity).
  apply (proj1 (@X16_batch_outputs sample_todecimal sample_toupper sample_tolower
                  lab_folder _ [] _ eq_refl eq_refl H)
           [py "scan.png"; py "notes.txt"] (py "scan.JPG") [py "old.bmp"]).
  - reflexivity.
  - vm_compute. reflexivity.
  - intros g [<-|[]] _. vm_compute. discriminate.
Defined.

Lemma X17_batch_stops_at_first_failure_witness :
  process_all_images sample_todecimal sample_toupper sample_tolower
    second_open_fails []
  = (Raise OSError, [(py "output/scan.json", py "[]")]).
Proof.
  assert (H : process_files sample_todecimal sample_toupper sample_tolower
                second_open_fails [py "scan.png"; py "notes.txt"] 0 []
              = (Ok 1%nat, [(py "output/scan.json", py "[]")]))
    by (vm_compute; reflexivity).
  apply (proj1 (@X17_batch_stops_at_first_failure
                  sample_todecimal sample_toupper sample_tolower
                  second_open_fails [py "scan.png"; py "notes.txt"] (py "scan.JPG")
                  [py "old.bmp"] [] 1%nat _ eq_refl eq_refl eq_refl H
                  ltac:(vm_compute; reflexivity))).
  vm_compute. reflexivity.
Defined.

Lemma X18_batch_ends_normally_witness :
  exists out',
    process_all_images sample_todecimal sample_toupper sample_tolower lab_folder []
    = (Ok tt, out') /\
    List.length out' = 3%nat.
Proof.
  apply (proj2 (@X18_batch_ends_normally sample_todecimal sample_toupper
                  sample_tolower lab_folder [] eq_refl)
           [py "scan.png"; py "notes.txt"; py "scan.JPG"; py "old.bmp"]);
    reflexivity.
Defined.

Lemma X19_unreadable_image_gives_empty_list_witness :
  file_content
    [(py "output/old.json", py "[]");
     (py "output/scan.json", json_dumps [hemoglobin_record]);
     (py "output/scan.json", py "[]")]
    (py "output/old.json")
  = Some (py "[]").
Proof.
  assert (H : process_all_images sample_todecimal sample_toupper sample_tolower
                lab_folder []
              = (Ok tt, [(py "output/old.json", py "[]");
                         (py "output/scan.json", json_dumps [hemoglobin_record]);
                         (py "output/scan.json", py "[]")]))
    by (vm_compute; reflexivity).
  apply (@X19_unreadable_image_gives_empty_list
           sample_todecimal sample_toupper sample_tolower lab_folder
           [py "scan.png"; py "notes.txt"; py "scan.JPG"] (py "old.bmp") []
           [] _ eq_refl eq_refl H).
  - vm_compute. reflexivity.
  - intros g [].
  - right. left. vm_compute. reflexivity.
Defined.
